(** * Skill routing: discovery, confidence scoring and streaming orchestration

    A shallow embedding of the skill subsystem of the chat service:
    - [skills/base.py]    the skill base class, reference documents, the
                          generic model-delegating skill;
    - [skills/loader.py]  the loader and its table of skills;
    - [skills/matcher.py] the two-signal matcher;
    - [skills/calculator/skill.py] the calculator skill;
    - [api.py]            the streaming [chat] endpoint.

    Python values are modelled as the code has them: [str] is a sequence of
    Unicode code points, [float] is IEEE 754 binary64 (Rocq's primitive
    floats), a [dict] whose iteration order matters is an insertion-ordered
    association list, a [dict] used as a plain map is a [gmap], and the
    generator of [chat] is a run that records what it yields and whether it
    ended by returning or by an exception. *)

From Stdlib Require Import ZArith NArith List String Ascii Bool Lia Floats.
From stdpp Require Import base option list gmap.
Set Warnings "-inexact-float,-register-all".

(* ================================================================== *)
(** * Python text *)
(* ================================================================== *)

(** A Python [str]: the sequence of its Unicode code points. *)
Abbreviation str := (list N).

(** Literals are written as Rocq strings, which hold the UTF-8 bytes of the
    source text; [py] decodes them into code points. *)
Fixpoint utf8_decode (bs : list N) : list N :=
  match bs with
  | [] => []
  | b0 :: r0 =>
      if (b0 <? 128)%N then b0 :: utf8_decode r0
      else
        match r0 with
        | [] => []
        | b1 :: r1 =>
            if (b0 <? 224)%N
            then ((b0 - 192) * 64 + (b1 - 128))%N :: utf8_decode r1
            else
              match r1 with
              | [] => []
              | b2 :: r2 =>
                  if (b0 <? 240)%N
                  then ((b0 - 224) * 4096 + (b1 - 128) * 64 + (b2 - 128))%N
                         :: utf8_decode r2
                  else
                    match r2 with
                    | [] => []
                    | b3 :: r3 =>
                        ((b0 - 240) * 262144 + (b1 - 128) * 4096
                         + (b2 - 128) * 64 + (b3 - 128))%N :: utf8_decode r3
                    end
              end
        end
  end.

Definition py (s : string) : str :=
  utf8_decode (map N_of_ascii (list_ascii_of_string s)).

(** Truth value of a [str]: non-empty. *)
Definition truthy (s : str) : bool :=
  match s with [] => false | _ :: _ => true end.

(** [str.isspace] of one code point: the white space that [str.strip()]
    removes (CPython's [_PyUnicode_IsWhitespace]). *)
Definition isspace (c : N) : bool :=
  ((9 <=? c) && (c <=? 13) || (28 <=? c) && (c <=? 32)
   || (c =? 133) || (c =? 160) || (c =? 5760)
   || (8192 <=? c) && (c <=? 8202)
   || (c =? 8232) || (c =? 8233) || (c =? 8239) || (c =? 8287)
   || (c =? 12288))%N.

Fixpoint lstrip (s : str) : str :=
  match s with
  | [] => []
  | c :: t => if isspace c then lstrip t else s
  end.

Definition rstrip (s : str) : str := rev (lstrip (rev s)).

(** [s.strip()] *)
Definition strip (s : str) : str := rstrip (lstrip s).

(** [s.startswith(p)] *)
Fixpoint startswith (p s : str) : bool :=
  match p, s with
  | [], _ => true
  | _ :: _, [] => false
  | a :: p', b :: s' => (a =? b)%N && startswith p' s'
  end.

(** [sub in s] for two strings: [sub] occurs in [s] as a contiguous run. *)
Fixpoint contains (sub s : str) : bool :=
  startswith sub s ||
  match s with
  | [] => false
  | _ :: t => contains sub t
  end.

(** [s.replace(old, new)] for a one-character [old]. *)
Definition replace_char (old : N) (new : str) (s : str) : str :=
  flat_map (fun c => if (c =? old)%N then new else [c]) s.

Definition ascii_letter (c : N) : bool :=
  ((65 <=? c) && (c <=? 90) || (97 <=? c) && (c <=? 122))%N.

Definition ascii_digit (c : N) : bool := ((48 <=? c) && (c <=? 57))%N.

(* ================================================================== *)
(** * Python floats *)
(* ================================================================== *)

(** [float(n)] for a Python [int]: the nearest binary64 value. *)
Definition float_of_int (z : Z) : float :=
  SF2Prim (binary_normalize prec emax z 0 false).

(** [min(a, b)] of two floats: [b] when [b < a], otherwise [a]. *)
Definition py_min (a b : float) : float :=
  if (b <? a)%float then b else a.

(* ================================================================== *)
(** * Insertion-ordered dictionaries *)
(* ================================================================== *)

(** A Python [dict] read in iteration order: its items in the order their
    keys were first inserted. *)
Definition dict (K V : Type) : Type := list (K * V).

Section Dict.
Context {K V : Type} `{EqDecision K}.

(** [d[k] = v]: a known key keeps its place, a new key goes last. *)
Fixpoint dict_set (d : dict K V) (k : K) (v : V) : dict K V :=
  match d with
  | [] => [(k, v)]
  | (k', v') :: t =>
      if decide (k' = k) then (k', v) :: t else (k', v') :: dict_set t k v
  end.

(** [d.get(k)] *)
Fixpoint dict_get (d : dict K V) (k : K) : option V :=
  match d with
  | [] => None
  | (k', v') :: t => if decide (k' = k) then Some v' else dict_get t k
  end.

(** [d.get(k, dflt)] *)
Definition dict_get_or (d : dict K V) (k : K) (dflt : V) : V :=
  default dflt (dict_get d k).

(** [d.items()], [d.keys()], [d.values()] *)
Definition dict_items (d : dict K V) : list (K * V) := d.
Definition dict_keys (d : dict K V) : list K := map fst d.
Definition dict_values (d : dict K V) : list V := map snd d.

(** [{k: f(k) for k in ks}] *)
Definition dict_comp (ks : list K) (f : K -> V) : dict K V :=
  foldl (fun d k => dict_set d k (f k)) [] ks.
End Dict.

(* ================================================================== *)
(** * Skills (skills/base.py) *)
(* ================================================================== *)

Record SkillMetadata := {
  name : str;
  description : str;
  category : option str;
  tags : option (list str);
  author : option str;
  version : option str;
}.

Record SkillContext := {
  user_message : str;
  conversation_history : list (str * str);
}.

Record SkillResult := {
  success : bool;
  content : str;
  result_metadata : option (list (str * str));
  error : option str;
}.

(** The class of a skill object: the generic [DynamicPythonSkill], the
    calculator, or another class found in a [skill.py]. *)
Inductive SkillClass :=
| DynamicPythonSkill
| CalculatorSkill
| NativeSkill (cls : str).

(** A skill object. [skill_dir] is the directory it was built from, and
    tells two skill objects apart; [skill_md] is the text of its [SKILL.md]
    ([None] when the file is missing), as it is when the skill is built. *)
Record Skill := {
  skill_dir : str;
  skill_class : SkillClass;
  metadata : SkillMetadata;
  references : gmap str str;
  skill_md : option str;
}.

#[global] Instance SkillMetadata_eq_dec : EqDecision SkillMetadata.
Proof. solve_decision. Defined.
#[global] Instance SkillClass_eq_dec : EqDecision SkillClass.
Proof. solve_decision. Defined.
#[global] Instance Skill_eq_dec : EqDecision Skill.
Proof. solve_decision. Defined.

(** [BaseSkill.get_full_content], for a [SKILL.md] that is as it was when
    the skill was built. The method reads the file again at each call,
    outside any [try]: on a file changed since, it returns the new text,
    and on one that can no longer be read it raises, and the lexical
    scorer with it. Such a change of the file is not modelled. *)
Definition get_full_content (skill : Skill) : str :=
  match skill_md skill with
  | Some text => text
  | None => []
  end.

(* ================================================================== *)
(** * The Python runtime *)
(* ================================================================== *)

(** What the code takes from the Python runtime and cannot be read off the
    repository: the Unicode case and category tables, the integer parser,
    the YAML parser and the module importer, and (for the calculator) the
    regular-expression engine, [eval] and the number formatter. *)
Inductive PyValue :=
| VInt (z : Z)
| VFloat (f : float)
| VObject (repr : str).

Class Python := {
  (** [s.lower()] *)
  lower : str -> str;
  (** [c.isalnum()] for a code point outside ASCII *)
  isalnum : N -> bool;
  (** [int(s)]; [None] when it raises [ValueError] *)
  py_int : str -> option Z;
  (** [re.search(pattern, s)]: the matched text, [None] without a match *)
  re_search : str -> str -> option str;
  (** [eval(expression, allowed_names)]: the value, or the message of the
      exception it raised *)
  py_eval : str -> str + PyValue;
  (** [str(v)], or the message of the exception it raised *)
  py_str : PyValue -> str + str;
  (** [f.is_integer()], [int(f)], and the format [f"{f:.6f}"] *)
  float_is_integer : float -> bool;
  int_of_float : float -> Z;
  format_6f : float -> str;
  (** the message of the validation error of [SkillResult(content=None)] *)
  content_none_error : str;
  (** the [SkillMetadata] built from the mapping [yaml.safe_load(text)];
      [None] when the parser or the validation raises *)
  yaml_metadata : str -> option SkillMetadata;
  (** the import of a [skill.py] in [_load_python_skill], given the name of
      the directory and the text of the file: the first class found that
      derives from [BaseSkill]; [None] when the import raises or no such
      class is found *)
  import_skill_class : str -> str -> option SkillClass;
}.

(* ================================================================== *)
(** * Runs: effects and exceptions *)
(* ================================================================== *)

(** One piece of the text stream produced by the [chat] endpoint. *)
Inductive Fragment :=
| Analyzing
| Matched (skill : str) (confidence : float)
| Executing (skill : str)
| Succeeded (text : str)
| Failed (err : option str)
| Thinking
| Chunk (text : str).

(** A request to the hosted model. *)
Inductive ModelRequest :=
| SelectSkill (message : str) (skills : list Skill)
| ExecuteSkill (skill : Skill) (ctx : SkillContext)
| ChatStream (messages : list (str * str)).

(** The outcome of a non-streaming completion request: an exception, or a
    reply whose message content may be [None]. *)
Inductive ModelReply :=
| RequestError (msg : str)
| Reply (text : option str).

(** What a run does that can be seen from outside: a fragment handed to
    the consumer, a skill scored, a request sent to the model, a skill
    executed, and the two ways the loader writes its table
    ([self._skills.clear()] and [self._skills[key] = skill]). *)
Inductive Event :=
| Yielded (f : Fragment)
| Scored (skill : Skill)
| Requested (r : ModelRequest)
| Executed (skill : Skill)
| Cleared
| Stored (key : str) (skill : Skill).

(** The collaborators of one call of the matcher or of the chat endpoint:
    the hosted model and the classes loaded from [skill.py] files.
    [complete] gives the reply that a request gets during this call; the
    model samples its replies, so that the same request sent by another
    call is answered by another [World], and may get another reply. *)
Record World := {
  (** [client.chat.completions.create(...)] without streaming *)
  complete : ModelRequest -> ModelReply;
  (** the same with [stream=True]: the [delta.content] of each chunk, and
      the exception that ends the stream early, if any *)
  chat_stream : list (str * str) -> list (option str) * option str;
  (** [execute] of a class found in a [skill.py] other than the
      calculator: the exception it raises, or its result *)
  native_execute : str -> SkillContext -> str + SkillResult;
}.

(** A run: the events so far, and either the exception that ended it or its
    value. *)
Definition Run (A : Type) : Type := list Event * (str + A).

#[global] Instance Run_ret : MRet Run := fun A a => ([], inr a).

#[global] Instance Run_bind : MBind Run := fun A B f m =>
  match m with
  | (l, inl e) => (l, inl e)
  | (l, inr a) => let '(l', r) := f a in (l ++ l', r)
  end.

Definition emit (e : Event) : Run unit := ([e], inr tt).

Definition raise {A : Type} (e : str) : Run A := ([], inl e).

(** The events and the fragments of a run. *)
Definition events {A : Type} (r : Run A) : list Event := fst r.

Definition fragments_of (evs : list Event) : list Fragment :=
  omap (fun e => match e with Yielded f => Some f | _ => None end) evs.

Definition fragments {A : Type} (r : Run A) : list Fragment :=
  fragments_of (events r).

(** A run that ends by returning. *)
Definition ends_normally {A : Type} (r : Run A) : Prop :=
  exists a, snd r = inr a.

(* ================================================================== *)
(** * The matcher (skills/matcher.py) *)
(* ================================================================== *)

Section Matcher.
Context `{Python}.

(** [\w] of a [str] pattern: alphanumeric or underscore. *)
Definition word_char (c : N) : bool :=
  if (c <? 128)%N
  then ascii_letter c || ascii_digit c || (c =? 95)%N
  else isalnum c.

(** The maximal runs of word characters of a text, left to right;
    [cur] is the run being read, reversed. *)
Fixpoint word_runs (cur : str) (s : str) : list str :=
  match s with
  | [] => match cur with [] => [] | _ :: _ => [rev cur] end
  | c :: t =>
      if word_char c then word_runs (c :: cur) t
      else
        match cur with
        | [] => word_runs [] t
        | _ :: _ => rev cur :: word_runs [] t
        end
  end.

(** [re.findall(r'\b[a-zA-Z]{3,}\b', s)]: a match starts and ends at a
    word boundary and holds only ASCII letters, so the matches are the
    runs of word characters that are made of at least three ASCII
    letters. *)
Definition findall_words (s : str) : list str :=
  List.filter (fun w => forallb ascii_letter w && (3 <=? length w)%nat)
              (word_runs [] s).

Definition action_words : list str :=
  [ py "review"; py "search"; py "find"; py "install"; py "get"; py "use";
    py "create"; py "generate"; py "execute"; py "run"; py "code";
    py "test"; py "debug"; py "fix";
    py "分析"; py "搜索"; py "查找"; py "安装"; py "获取"; py "使用";
    py "创建"; py "生成"; py "执行"; py "运行"; py "代码"; py "测试";
    py "调试"; py "修复"; py "审查" ].

(** [SkillMatcher._extract_keywords]. [list(set(keywords))] keeps one
    copy of each keyword, in an order the code does not rely on. *)
Definition _extract_keywords (text : str) : list str :=
  let english_words := findall_words (lower text) in
  let keywords :=
    english_words
    ++ List.filter (fun word => contains word (lower text)) action_words in
  remove_dups keywords.

(** The body of the loop of [SkillMatcher._match_by_keywords]: the score
    of one skill against the lowercased message. *)
Definition keyword_score (user_message_lower : str) (skill : Skill) : float :=
  let score := 0%float in
  let score :=
    if contains (lower (name (metadata skill))) user_message_lower
    then (score + 0.5)%float else score in
  let keywords :=
    _extract_keywords (description (metadata skill))
    ++ _extract_keywords (get_full_content skill) in
  let matched_keywords :=
    length (List.filter (fun kw => contains kw user_message_lower) keywords) in
  let score :=
    if (0 <? matched_keywords)%nat
    then (score
          + py_min (float_of_int (Z.of_nat matched_keywords) * 0.2) 0.5)%float
    else score in
  py_min score 1.

(** [SkillMatcher._match_by_keywords] *)
Definition _match_by_keywords (user_message : str) (skills : list Skill)
  : Run (dict Skill float) :=
  let user_message_lower := lower user_message in
  foldl (fun acc skill =>
           scores ← acc;
           emit (Scored skill);;
           mret (dict_set scores skill (keyword_score user_message_lower skill)))
        (mret []) skills.

(** What [_match_by_semantic] makes of the outcome of its request. The
    outer [except Exception] turns a failed request, and the
    [AttributeError] of [None.strip()], into all zeros; a reply that
    [int] rejects, or a number outside [0..len(skills)], falls through
    to the same. *)
Definition semantic_scores (reply : ModelReply) (skills : list Skill)
  : dict Skill float :=
  let zeros := dict_comp skills (fun _ => 0%float) in
  match reply with
  | RequestError _ => zeros
  | Reply None => zeros
  | Reply (Some text) =>
      let result := strip text in
      match py_int result with
      | None => zeros
      | Some skill_index =>
          if (skill_index =? 0)%Z then zeros
          else if ((1 <=? skill_index) && (skill_index <=? Z.of_nat (length skills)))%Z
          then
            match skills !! Z.to_nat (skill_index - 1) with
            | Some matched_skill =>
                dict_comp skills
                  (fun skill =>
                     if decide (skill = matched_skill) then 0.9%float else 0.1%float)
            | None => zeros
            end
          else zeros
      end
  end.

(** [SkillMatcher._match_by_semantic]: one request for the whole list. *)
Definition _match_by_semantic (w : World) (user_message : str)
    (skills : list Skill) (conversation_history : list (str * str))
  : Run (dict Skill float) :=
  emit (Requested (SelectSkill user_message skills));;
  mret (semantic_scores (complete w (SelectSkill user_message skills)) skills).

(** The weighted sum of the two scores of one skill. *)
Definition combine (keyword_score semantic_score : float) : float :=
  (keyword_score * 0.4 + semantic_score * 0.6)%float.

(** The loop that fills [scores] in [match_skill]. *)
Definition combined_scores (skills : list Skill)
    (keyword_matches semantic_matches : dict Skill float) : dict Skill float :=
  foldl (fun scores skill =>
           let keyword_score := dict_get_or keyword_matches skill 0%float in
           let semantic_score := dict_get_or semantic_matches skill 0%float in
           dict_set scores skill (combine keyword_score semantic_score))
        [] skills.

(** [max(items, key=lambda x: x[1])] from a first item on: a later item
    replaces the best one only when its key is greater. *)
Fixpoint max_from {K : Type} (best : K * float) (items : list (K * float))
  : K * float :=
  match items with
  | [] => best
  | x :: t => max_from (if (snd best <? snd x)%float then x else best) t
  end.

(** The end of [match_skill]: combine, take the best, apply the
    threshold. [max] of no item raises [ValueError]. *)
Definition best_match (skills : list Skill)
    (keyword_matches semantic_matches : dict Skill float)
  : Run (option (Skill * float)) :=
  let scores := combined_scores skills keyword_matches semantic_matches in
  match dict_items scores with
  | [] => raise (py "max() arg is an empty sequence")
  | first :: rest =>
      let best_skill := max_from first rest in
      if (snd best_skill <? 0.3)%float then mret None
      else mret (Some best_skill)
  end.

(** [SkillLoader.get_all_skills]: a copy of the table. *)
Definition get_all_skills (_skills : dict str Skill) : dict str Skill := _skills.

(** [SkillMatcher.match_skill] *)
Definition match_skill (w : World) (_skills : dict str Skill)
    (user_message : str) (conversation_history : list (str * str))
  : Run (option (Skill * float)) :=
  let skills := dict_values (get_all_skills _skills) in
  match skills with
  | [] => mret None
  | _ :: _ =>
      keyword_matches ← _match_by_keywords user_message skills;
      semantic_matches ←
        _match_by_semantic w user_message skills conversation_history;
      best_match skills keyword_matches semantic_matches
  end.
End Matcher.

(* ================================================================== *)
(** * The file system *)
(* ================================================================== *)

(** A file, with what [read_text(encoding="utf-8")] returns for it ([None]
    when reading raises), or a directory with its entries in the order
    the system lists them. *)
Inductive Node :=
| File (text : option str)
| Dir (entries : list (str * Node)).

Definition dir_entries (n : Node) : dict str Node :=
  match n with
  | File _ => []
  | Dir entries => entries
  end.

(** [(p / name)] when it exists. *)
Definition child (p : Node) (name : str) : option Node :=
  dict_get (dir_entries p) name.

(** [p.read_text(encoding="utf-8")] *)
Definition read_text (p : Node) : Run str :=
  match p with
  | File (Some text) => mret text
  | File None => raise (py "'utf-8' codec can't decode")
  | Dir _ => raise (py "[Errno 21] Is a directory")
  end.

(** Every path below a directory, as the list of its components, with
    what is found there: the walk behind [glob("**/...")]. *)
Fixpoint walk (rel : list str) (n : Node) : list (list str * Node) :=
  match n with
  | File _ => []
  | Dir entries =>
      flat_map (fun e => (rel ++ [fst e], snd e) :: walk (rel ++ [fst e]) (snd e))
               entries
  end.

(** [s.endswith(suffix)] *)
Definition endswith (suffix s : str) : bool := startswith (rev suffix) (rev s).

(** The last component of a path. *)
Definition basename (rel : list str) : str := default [] (last rel).

(** [str(path)] of a relative POSIX path: its components joined by [/]. *)
Definition path_str (rel : list str) : str :=
  match rel with
  | [] => py "."
  | p :: ps => foldl (fun acc q => acc ++ py "/" ++ q) p ps
  end.

(** [for x in l: f(x)] *)
Fixpoint for_each {A : Type} (f : A -> Run unit) (l : list A) : Run unit :=
  match l with
  | [] => mret tt
  | x :: t => f x;; for_each f t
  end.

(** [try: m except Exception as e: handler(e)] *)
Definition try_except {A : Type} (m : Run A) (handler : str -> Run A) : Run A :=
  match m with
  | (l, inl e) => let '(l', r) := handler e in (l ++ l', r)
  | (l, inr a) => (l, inr a)
  end.

(* ================================================================== *)
(** * Building a skill (skills/base.py) *)
(* ================================================================== *)

Section BaseSkill.
Context `{Python}.

Definition nl : N := 10%N.

(** The shortest text before the first line break followed by [---]. *)
Fixpoint until_marker (acc : str) (s : str) : option str :=
  if startswith (nl :: py "---") s then Some (rev acc)
  else
    match s with
    | [] => None
    | c :: t => until_marker (c :: acc) t
    end.

(** Group 1 of [re.match(r"^---\n(.*?)\n---", content, re.DOTALL)]. *)
Definition frontmatter_match (content : str) : option str :=
  if startswith (py "---" ++ [nl]) content
  then until_marker [] (drop 4 content)
  else None.

Definition default_metadata (dir_name : str) : SkillMetadata :=
  {| name := dir_name;
     description := py "No description available";
     category := None;
     tags := Some [];
     author := None;
     version := Some (py "1.0.0") |}.

(** [BaseSkill._load_metadata] *)
Definition _load_metadata (dir_name : str) (skill_dir : Node) : Run SkillMetadata :=
  match child skill_dir (py "SKILL.md") with
  | None => mret (default_metadata dir_name)
  | Some skill_md_file =>
      content ← read_text skill_md_file;
      match frontmatter_match content with
      | Some frontmatter_text =>
          match yaml_metadata frontmatter_text with
          | Some m => mret m
          | None => mret (default_metadata dir_name)
          end
      | None => mret (default_metadata dir_name)
      end
  end.

(** What [references_dir.glob("**/*.md")] yields: every path below the
    directory whose last component ends in [.md]. *)
Definition glob_md (references_dir : Node) : list (list str * Node) :=
  List.filter (fun p => endswith (py ".md") (basename (fst p)))
              (walk [] references_dir).

(** [BaseSkill._load_references] *)
Definition _load_references (skill_dir : Node) : Run (gmap str str) :=
  match child skill_dir (py "references") with
  | None => mret ∅
  | Some references_dir =>
      foldl (fun acc ref_file =>
               refs ← acc;
               text ← read_text (snd ref_file);
               mret (<[path_str (fst ref_file) := text]> refs))
            (mret ∅) (glob_md references_dir)
  end.

(** [BaseSkill.__init__], for a skill of class [cls]. *)
Definition new_skill (cls : SkillClass) (dir_name : str) (dir : Node) : Run Skill :=
  _metadata ← _load_metadata dir_name dir;
  _references ← _load_references dir;
  mret {| skill_dir := dir_name;
          skill_class := cls;
          metadata := _metadata;
          references := _references;
          skill_md :=
            match child dir (py "SKILL.md") with
            | Some (File text) => text
            | _ => None
            end |}.
End BaseSkill.

(* ================================================================== *)
(** * The loader (skills/loader.py) *)
(* ================================================================== *)

Section Loader.
Context `{Python}.

(** [SkillLoader._load_python_skill], for a class that [BaseSkill.__init__]
    builds, as it builds the calculator. A class with a constructor of
    its own, and a [skill.py] that ends the interpreter instead of
    raising an [Exception], are not modelled. *)
Definition _load_python_skill (dir_name : str) (skill_dir py_file : Node)
  : Run (option Skill) :=
  try_except
    (match py_file with
     | File (Some source) =>
         match import_skill_class dir_name source with
         | Some cls =>
             skill ← new_skill cls dir_name skill_dir;
             mret (Some skill)
         | None => mret None
         end
     | _ => mret None
     end)
    (fun _ => mret None).

(** One turn of the loop of [SkillLoader._load_all]. *)
Definition load_entry (e : str * Node) : Run unit :=
  let '(dir_name, skill_dir) := e in
  match skill_dir with
  | File _ => mret tt
  | Dir children =>
      if startswith (py "_") dir_name || startswith (py ".") dir_name
      then mret tt
      else
        match child skill_dir (py "SKILL.md") with
        | None => mret tt
        | Some _ =>
            skill ←
              match child skill_dir (py "skill.py") with
              | Some py_file => _load_python_skill dir_name skill_dir py_file
              | None =>
                  skill ← new_skill DynamicPythonSkill dir_name skill_dir;
                  mret (Some skill)
              end;
            match skill with
            | Some skill => emit (Stored (name (metadata skill)) skill)
            | None => mret tt
            end
        end
  end.

(** [SkillLoader._load_all]; [None] is a skills directory that does not
    exist. *)
Definition _load_all (skills_dir : option Node) : Run unit :=
  match skills_dir with
  | None => mret tt
  | Some (File _) => raise (py "[Errno 20] Not a directory")
  | Some (Dir entries) => for_each load_entry entries
  end.

(** The table [self._skills] after the writes of a run. *)
Definition apply_event (_skills : dict str Skill) (e : Event) : dict str Skill :=
  match e with
  | Cleared => []
  | Stored key skill => dict_set _skills key skill
  | _ => _skills
  end.

Definition table_after (_skills : dict str Skill) (evs : list Event)
  : dict str Skill :=
  foldl apply_event _skills evs.

(** The table as it stands after each write of a run, in order. *)
Fixpoint tables_during (_skills : dict str Skill) (evs : list Event)
  : list (dict str Skill) :=
  match evs with
  | [] => []
  | e :: t => apply_event _skills e :: tables_during (apply_event _skills e) t
  end.

(** [SkillLoader.__init__]: the table starts empty. *)
Definition SkillLoader_init (skills_dir : option Node) : Run unit :=
  _load_all skills_dir.

(** [SkillLoader.reload] *)
Definition reload (skills_dir : option Node) : Run unit :=
  emit Cleared;;
  _load_all skills_dir.

(** [SkillLoader.get_skill] and [SkillLoader.list_skills] *)
Definition get_skill (_skills : dict str Skill) (skill_name : str) : option Skill :=
  dict_get _skills skill_name.

Definition list_skills (_skills : dict str Skill) : list SkillMetadata :=
  map metadata (dict_values _skills).
End Loader.

(* ================================================================== *)
(** * Executing a skill *)
(* ================================================================== *)

Section Execute.
Context `{Python}.

(** [SkillResult(success=False, content="", error=e)] *)
Definition failure (e : str) : SkillResult :=
  {| success := false; content := []; result_metadata := None; error := Some e |}.

(** [DynamicPythonSkill.execute] (skills/base.py): one request to the
    model; its reply is the content of a success, and whatever is raised
    on the way becomes a failure. *)
Definition dynamic_execute (w : World) (self : Skill) (context : SkillContext)
  : Run SkillResult :=
  try_except
    (emit (Requested (ExecuteSkill self context));;
     text ←
       match complete w (ExecuteSkill self context) with
       | RequestError e => raise e
       | Reply text => mret text
       end;
     match text with
     | None => raise content_none_error
     | Some text =>
         mret {| success := true;
                 content := text;
                 result_metadata := Some [(py "skill_name", name (metadata self))];
                 error := None |}
     end)
    (fun e => mret (failure e)).

(** The first code point of a literal. *)
Definition cp (s : string) : N := default 0%N (head (py s)).

Definition expression_pattern : str :=
  py "[\d+\-*/^().%]+\s*[\d+\-*/^().%\s]*[\d+\-*/^().%]+".

Definition simple_pattern : str :=
  py "[-+]?\d*\.?\d+\s*[\+\-\*/]\s*[-+]?\d*\.?\d+".

(** [CalculatorSkill._extract_expression] *)
Definition _extract_expression (text : str) : str :=
  match re_search expression_pattern text with
  | Some expr =>
      let expr := replace_char (cp "？") [] expr in
      let expr := replace_char (cp "＝") (py "=") expr in
      let expr := replace_char (cp "乘") (py "*") expr in
      let expr := replace_char (cp "除") (py "/") expr in
      let expr := replace_char (cp "^") (py "**") expr in
      let expr := replace_char (cp "%") (py "/100") expr in
      strip expr
  | None =>
      match re_search simple_pattern text with
      | Some m => m
      | None => []
      end
  end.

(** [CalculatorSkill._is_valid_expression] *)
Definition _is_valid_expression (expr : str) : bool :=
  forallb (fun c => existsb (N.eqb c) (py "0123456789+-*/(). %")) expr.

(** [s.rstrip(c)] for one character [c]. *)
Fixpoint lstrip_char (c : N) (s : str) : str :=
  match s with
  | [] => []
  | x :: t => if (x =? c)%N then lstrip_char c t else s
  end.

Definition rstrip_char (c : N) (s : str) : str :=
  rev (lstrip_char c (rev s)).

(** A value of the runtime that may be an exception, as a run. *)
Definition lift {A : Type} (r : str + A) : Run A := ([], r).

(** The formatting of the result in [CalculatorSkill.execute]. *)
Definition format_result (result : PyValue) : Run str :=
  match result with
  | VFloat f =>
      if float_is_integer f then lift (py_str (VInt (int_of_float f)))
      else mret (rstrip_char (cp ".") (rstrip_char (cp "0") (format_6f f)))
  | _ => lift (py_str result)
  end.

(** [CalculatorSkill.execute] (skills/calculator/skill.py) *)
Definition calculator_execute (context : SkillContext) : Run SkillResult :=
  try_except
    (let message := strip (user_message context) in
     let expression := _extract_expression message in
     if negb (truthy expression)
     then mret (failure (py "无法从消息中提取数学表达式"))
     else if negb (_is_valid_expression expression)
     then mret (failure (py "表达式包含非法字符: " ++ expression))
     else
       match py_eval expression with
       | inl e => mret (failure (py "计算错误: " ++ e))
       | inr result =>
           result_str ← format_result result;
           mret {| success := true;
                   content := expression ++ py " = " ++ result_str;
                   result_metadata :=
                     Some [(py "skill_name", py "calculator");
                           (py "expression", expression);
                           (py "result", result_str)];
                   error := None |}
       end)
    (fun e => mret (failure e)).

(** [skill.execute(context)], by the class of the skill. *)
Definition execute (w : World) (skill : Skill) (context : SkillContext)
  : Run SkillResult :=
  match skill_class skill with
  | DynamicPythonSkill => dynamic_execute w skill context
  | CalculatorSkill => calculator_execute context
  | NativeSkill cls => lift (native_execute w cls context)
  end.
End Execute.

(* ================================================================== *)
(** * The chat endpoint (api.py) *)
(* ================================================================== *)

Section Chat.
Context `{Python}.

(** The loop over the chunks of the stream: a chunk is forwarded when
    its content is neither [None] nor empty. *)
Definition forward_chunk (delta : option str) : Run unit :=
  match delta with
  | Some text => if truthy text then emit (Yielded (Chunk text)) else mret tt
  | None => mret tt
  end.

(** Step 2 of [generate]: the plain chat. *)
Definition generic_chat (w : World) (messages : list (str * str)) : Run unit :=
  emit (Yielded Thinking);;
  emit (Requested (ChatStream messages));;
  for_each forward_chunk (fst (chat_stream w messages));;
  match snd (chat_stream w messages) with
  | Some e => raise e
  | None => mret tt
  end.

(** [messages[-1]["content"] if messages else ""] *)
Definition last_content (messages : list (str * str)) : str :=
  match last messages with
  | Some m => snd m
  | None => []
  end.

(** The generator [generate] of [chat], run to its end; its value is the
    list [messages] as the run leaves it. *)
Definition generate (w : World) (_skills : dict str Skill)
    (messages : list (str * str)) (enable_skills : bool)
  : Run (list (str * str)) :=
  let message := last_content messages in
  if enable_skills && truthy (strip message) then
    emit (Yielded Analyzing);;
    matched ← match_skill w _skills message (removelast messages);
    match matched with
    | Some (skill, confidence) =>
        emit (Yielded (Matched (name (metadata skill)) confidence));;
        emit (Yielded (Executing (name (metadata skill))));;
        let context :=
          {| user_message := message; conversation_history := messages |} in
        emit (Executed skill);;
        result ← execute w skill context;
        (if success result
         then emit (Yielded (Succeeded (content result)))
         else emit (Yielded (Failed (error result))));;
        mret (messages
              ++ [(py "assistant",
                   py "使用了 " ++ name (metadata skill) ++ py " Skill")])
    | None =>
        generic_chat w messages;;
        mret messages
    end
  else
    generic_chat w messages;;
    mret messages.
End Chat.

(* ================================================================== *)
(** * A runtime for ASCII text *)
(* ================================================================== *)

(** The runtime restricted to what is needed to run the definitions on
    ASCII examples: case folding and the decimal integers of ASCII; the
    other services answer that they found or parsed nothing. *)
Definition ascii_lower (s : str) : str :=
  map (fun c => if ((65 <=? c) && (c <=? 90))%N then (c + 32)%N else c) s.

(** Decimal digits, with single underscores between digits. *)
Fixpoint digits_value (acc : Z) (after_digit : bool) (s : str) : option Z :=
  match s with
  | [] => if after_digit then Some acc else None
  | c :: t =>
      if ascii_digit c then digits_value (acc * 10 + Z.of_N (c - 48)) true t
      else if (c =? 95)%N && after_digit then digits_value acc false t
      else None
  end.

Definition ascii_int (s : str) : option Z :=
  match strip s with
  | 45%N :: d => Z.opp <$> digits_value 0 false d
  | 43%N :: d => digits_value 0 false d
  | d => digits_value 0 false d
  end.

(** Decimal digits of a natural number, least significant first. *)
Fixpoint digits_rev (fuel : nat) (n : N) : str :=
  match fuel with
  | O => []
  | S fuel' =>
      if (n <? 10)%N then [(48 + n)%N]
      else (48 + n mod 10)%N :: digits_rev fuel' (n / 10)
  end.

Definition str_of_Z (z : Z) : str :=
  let n := Z.abs_N z in
  (if (z <? 0)%Z then py "-" else []) ++ rev (digits_rev (S (N.to_nat (N.log2 n))) n).

Definition ascii_python : Python :=
  {| lower := ascii_lower;
     isalnum := fun c => ((19968 <=? c) && (c <=? 40959))%N;
     py_int := ascii_int;
     re_search := fun _ _ => None;
     py_eval := fun _ => inl (py "invalid syntax");
     py_str := fun v =>
       match v with
       | VInt z => inr (str_of_Z z)
       | VFloat _ => inr (py "nan")
       | VObject repr => inr repr
       end;
     float_is_integer := fun _ => false;
     int_of_float := fun _ => 0%Z;
     format_6f := fun _ => py "nan";
     content_none_error := py "1 validation error for SkillResult";
     yaml_metadata := fun _ => None;
     import_skill_class := fun _ _ => None |}.

(* ================================================================== *)
(** * Vocabulary of the statements *)
(* ================================================================== *)

(** A binary64 value that is neither NaN nor negative: a zero, a positive
    number or the positive infinity. *)
Definition sf_nonneg (x : spec_float) : Prop :=
  match x with
  | S754_zero false | S754_infinity false | S754_finite false _ _ => True
  | _ => False
  end.

Definition nonneg (x : float) : Prop := sf_nonneg (Prim2SF x).

(** What two comparisons along a chain [x, y, z] say of [x] and [z]. *)
Definition cmp_then (c1 c2 : comparison) : option comparison :=
  match c1, c2 with
  | Eq, c | c, Eq => Some c
  | Lt, Lt => Some Lt
  | Gt, Gt => Some Gt
  | _, _ => None
  end.

(** The combined score of a skill, read off the two dictionaries as
    [match_skill] does. *)
Definition score_of (keyword_matches semantic_matches : dict Skill float)
    (skill : Skill) : float :=
  (dict_get_or keyword_matches skill 0 * 0.4
   + dict_get_or semantic_matches skill 0 * 0.6)%float.

(** The state of the scan of [max]: the best item so far sits at index
    [i], nothing seen is greater, and everything before [i] is strictly
    smaller. *)
Definition best_at {K : Type} (items : list (K * float)) (i : nat)
    (best : K * float) : Prop :=
  items !! i = Some best /\
  forall j x, items !! j = Some x ->
    (snd x <=? snd best)%float = true
    /\ ((j < i)%nat -> (snd x <? snd best)%float = true).

(** The ways the request of [_match_by_semantic] goes wrong: the request
    raises, the reply has no text, the text is not an integer, or the
    integer is no ordinal of the list. *)
Definition degraded `{Python} (reply : ModelReply) (skills : list Skill) : Prop :=
  match reply with
  | RequestError _ => True
  | Reply None => True
  | Reply (Some text) =>
      match py_int (strip text) with
      | None => True
      | Some k => (k < 0)%Z \/ (Z.of_nat (length skills) < k)%Z
      end
  end.

(** The lexical score as the specification words it: the keywords of the
    description and of the full text form one set, and each keyword of
    that set found in the message counts once. *)
Definition spec_lexical_score `{Python} (user_message_lower : str) (skill : Skill)
  : float :=
  let name_part :=
    if contains (lower (name (metadata skill))) user_message_lower
    then 0.5%float else 0%float in
  let keywords :=
    remove_dups (_extract_keywords (description (metadata skill))
                 ++ _extract_keywords (get_full_content skill)) in
  let matched_count :=
    length (List.filter (fun kw => contains kw user_message_lower) keywords) in
  py_min (name_part + py_min (float_of_int (Z.of_nat matched_count) * 0.2) 0.5)%float 1.

(** The number of keywords of a text that occur in a message. *)
Definition keyword_hits `{Python} (text user_message_lower : str) : nat :=
  length (List.filter (fun kw => contains kw user_message_lower)
                      (_extract_keywords text)).

(** A table in which every skill is stored under its own name, once. *)
Definition keyed_by_name (_skills : dict str Skill) : Prop :=
  NoDup (dict_keys _skills)
  /\ forall k s, (k, s) ∈ _skills -> name (metadata s) = k.

(** The event of storing a skill under its own name. *)
Definition stores_by_name (e : Event) : Prop :=
  exists s, e = Stored (name (metadata s)) s.

(** A reload is a swap when whoever reads the table while it runs sees
    the table of before or the table of after. *)
Definition swaps_atomically (_skills : dict str Skill) (evs : list Event) : Prop :=
  forall t, t ∈ tables_during _skills evs ->
            t = _skills \/ t = table_after _skills evs.

(** A run without events. *)
Definition quiet {A : Type} (r : Run A) : Prop := fst r = [].

(** What is found at a relative path below a directory. *)
Fixpoint node_at (n : Node) (rel : list str) : option Node :=
  match rel with
  | [] => Some n
  | c :: rest =>
      match child n c with
      | Some m => node_at m rest
      | None => None
      end
  end.

(** A tree as a file system holds it: in a directory no two entries have
    the same name, and no name contains the separator [/]. *)
Fixpoint well_formed (n : Node) : bool :=
  match n with
  | File _ => true
  | Dir entries =>
      bool_decide (NoDup (map fst entries))
      && forallb (fun e => negb (existsb (N.eqb 47) (fst e)) && well_formed (snd e))
                 entries
  end.

(** A file whose text can be read. *)
Definition readable (n : Node) : bool :=
  match n with
  | File (Some _) => true
  | _ => false
  end.

(** One turn of the loop of [_load_references] on a file that can be
    read. *)
Definition store_reference (refs : gmap str str) (ref_file : list str * Node)
  : gmap str str :=
  match snd ref_file with
  | File (Some text) => <[path_str (fst ref_file) := text]> refs
  | _ => refs
  end.

(** The invariant of [SkillResult] as the specification states it: a
    success has content and no error, a failure has an error and no
    content. *)
Definition content_xor_error (r : SkillResult) : Prop :=
  (success r = true /\ content r <> [] /\ error r = None)
  \/ (success r = false /\ content r = [] /\ error r <> None).

(** The context that [generate] hands to the skill it executes. *)
Definition context_of (messages : list (str * str)) : SkillContext :=
  {| user_message := last_content messages; conversation_history := messages |}.

(** What the specification asks of [generate] when the handler of the
    matched skill raises: the run still ends by returning, and a failed
    fragment is among its fragments. *)
Definition handler_exception_is_caught `{Python} (w : World)
    (_skills : dict str Skill) (messages : list (str * str)) : Prop :=
  forall skill confidence e,
    snd (match_skill w _skills (last_content messages) (removelast messages))
    = inr (Some (skill, confidence)) ->
    snd (execute w skill (context_of messages)) = inl e ->
    ends_normally (generate w _skills messages true)
    /\ exists err, Failed err ∈ fragments (generate w _skills messages true).

(** The texts of a stream that [generate] forwards: those that are neither
    [None] nor empty. *)
Definition forwarded (chunks : list (option str)) : list str :=
  omap (fun delta =>
          match delta with
          | Some text => if truthy text then Some text else None
          | None => None
          end) chunks.

(* ================================================================== *)
(** * Sample inputs *)
(* ================================================================== *)

(** Metadata with a name and a description, the other fields at their
    defaults. *)
Definition sample_metadata (skill_name descr : string) : SkillMetadata :=
  {| name := py skill_name;
     description := py descr;
     category := None;
     tags := Some [];
     author := None;
     version := Some (py "1.0.0") |}.

(** A [SKILL.md] that declares the name [calc] and the description
    [math helper], and the skill built from it without a [skill.py]. *)
Definition calc_md : str :=
  py "---" ++ [nl] ++ py "name: calc" ++ [nl]
  ++ py "description: math helper" ++ [nl] ++ py "---" ++ [nl] ++ py "Do math.".

Definition calc_skill : Skill :=
  {| skill_dir := py "calc";
     skill_class := DynamicPythonSkill;
     metadata := sample_metadata "calc" "math helper";
     references := ∅;
     skill_md := Some calc_md |}.

(** Two skills that differ by their names only, in the order [alpha],
    [beta]; and a message that names both. *)
Definition twin_skill (skill_name : string) : Skill :=
  {| skill_dir := py skill_name;
     skill_class := DynamicPythonSkill;
     metadata := sample_metadata skill_name "math helper";
     references := ∅;
     skill_md := Some (py "math helper") |}.

Definition twin_table : dict str Skill :=
  [ (py "alpha", twin_skill "alpha"); (py "beta", twin_skill "beta") ].

Definition twin_message : str := py "alpha beta math".

(** Scores for the two skills that put the first one on the threshold. *)
Definition threshold_keyword_matches : dict Skill float :=
  [ (twin_skill "alpha", 0%float); (twin_skill "beta", 0.5%float) ].

Definition threshold_semantic_matches : dict Skill float :=
  [ (twin_skill "alpha", 0.5%float); (twin_skill "beta", 0.1%float) ].

(** A directory of reference documents: two Markdown documents, one of
    them in a subdirectory, and a file that is not Markdown. *)
Definition sample_references : Node :=
  Dir [ (py "howto.md", File (Some (py "How to.")));
        (py "data.json", File (Some (py "{}")));
        (py "deep", Dir [ (py "more.md", File (Some (py "More."))) ]) ].

Definition notes_dir : Node :=
  Dir [ (py "SKILL.md", File (Some (py "Take notes.")));
        (py "references", sample_references) ].

(** A skills directory with two skills, neither with a [skill.py]. *)
Definition sample_tree : Node :=
  Dir [ (py "calc", Dir [ (py "SKILL.md", File (Some calc_md)) ]);
        (py "notes", notes_dir) ].

(** The table of a loader before a reload: one skill. *)
Definition sample_table : dict str Skill := [ (py "calc", calc_skill) ].

(** A model that answers every request with the empty text, and one that
    answers [1]; the classes loaded from [skill.py] files raise. *)
Definition silent_world : World :=
  {| complete := fun _ => Reply (Some []);
     chat_stream := fun _ => ([Some (py "Hel"); None; Some []; Some (py "lo")], None);
     native_execute := fun _ _ => inl (py "boom") |}.

Definition first_choice_world : World :=
  {| complete := fun _ => Reply (Some (py "1"));
     chat_stream := fun _ => ([], None);
     native_execute := fun _ _ => inl (py "boom") |}.

(** A skill whose class comes from its [skill.py], alone in its table,
    and a conversation that names it. *)
Definition boom_skill : Skill :=
  {| skill_dir := py "boom";
     skill_class := NativeSkill (py "BoomSkill");
     metadata := sample_metadata "boom" "explode on demand";
     references := ∅;
     skill_md := Some (py "Explode.") |}.

Definition boom_table : dict str Skill := [ (py "boom", boom_skill) ].

Definition boom_messages : list (str * str) := [ (py "user", py "boom now") ].

(** A runtime for the calculator on a message that holds [2+2]: the
    pattern finds the expression and [eval] gives [4]. *)
Definition calculator_python : Python :=
  {| lower := ascii_lower;
     isalnum := fun _ => false;
     py_int := ascii_int;
     re_search := fun _ text => if contains (py "2+2") text then Some (py "2+2") else None;
     py_eval := fun _ => inr (VInt 4);
     py_str := fun v =>
       match v with
       | VInt z => inr (str_of_Z z)
       | VFloat _ => inr (py "nan")
       | VObject repr => inr repr
       end;
     float_is_integer := fun _ => false;
     int_of_float := fun _ => 0%Z;
     format_6f := fun _ => py "nan";
     content_none_error := py "1 validation error for SkillResult";
     yaml_metadata := fun _ => None;
     import_skill_class := fun _ _ => None |}.

Definition calculator_skill : Skill :=
  {| skill_dir := py "calculator";
     skill_class := CalculatorSkill;
     metadata := sample_metadata "calculator" "evaluate arithmetic";
     references := ∅;
     skill_md := Some (py "Evaluate.") |}.

(* ================================================================== *)
(** * Ranking the skills (skills/matcher.py) *)
(* ================================================================== *)

(** [d[k]]: the value, or [KeyError]. *)
Definition dict_index {K V : Type} `{EqDecision K} (d : dict K V) (k : K) : Run V :=
  match dict_get d k with
  | Some v => mret v
  | None => raise (py "KeyError")
  end.

(** [ranked.sort(key=lambda x: x[1], reverse=True)] on keys that are
    numbers: the items in descending order of their keys, items with
    equal keys in the order they had. An item goes in front of the first
    sorted item that is not greater than it. *)
Fixpoint insert_desc {K : Type} (x : K * float) (sorted : list (K * float))
  : list (K * float) :=
  match sorted with
  | [] => [x]
  | y :: t => if (snd x <? snd y)%float then y :: insert_desc x t else x :: y :: t
  end.

Definition sort_desc {K : Type} (l : list (K * float)) : list (K * float) :=
  foldr insert_desc [] l.

(** [l[:stop]]: a negative [stop] counts from the end. *)
Definition slice_to {A : Type} (l : list A) (stop : Z) : list A :=
  if (stop <? 0)%Z then take (length l - Z.to_nat (- stop)) l
  else take (Z.to_nat stop) l.

Section Ranking.
Context `{Python}.

(** [SkillMatcher.rank_skills] *)
Definition rank_skills (w : World) (_skills : dict str Skill)
    (user_message : str) (top_n : Z)
  : Run (list (Skill * float)) :=
  let skills := dict_values (get_all_skills _skills) in
  match skills with
  | [] => mret []
  | _ :: _ =>
      keyword_scores ← _match_by_keywords user_message skills;
      semantic_scores ← _match_by_semantic w user_message skills [];
      ranked ←
        foldl (fun acc skill =>
                 ranked ← acc;
                 keyword_score ← dict_index keyword_scores skill;
                 semantic_score ← dict_index semantic_scores skill;
                 mret (ranked ++ [(skill, combine keyword_score semantic_score)]))
              (mret []) skills;
      mret (slice_to (sort_desc ranked) top_n)
  end.
End Ranking.

(** A list of scored items in descending order: no item has a greater
    score than an item before it. *)
Definition descending {K : Type} (l : list (K * float)) : Prop :=
  forall i j a b, (i < j)%nat -> l !! i = Some a -> l !! j = Some b ->
                  (snd b <=? snd a)%float = true.

(* ================================================================== *)
(** * Vocabulary for the loader *)
(* ================================================================== *)

(** The skills that a run stores under a name, in order. *)
Definition stored_under (key : str) (evs : list Event) : list Skill :=
  omap (fun e =>
          match e with
          | Stored k skill => if decide (k = key) then Some skill else None
          | _ => None
          end) evs.

(** The names under which a run stores skills, in order. *)
Definition stored_keys (evs : list Event) : list str :=
  omap (fun e => match e with Stored k _ => Some k | _ => None end) evs.

(** The distinct items of a list, in the order of their first
    occurrences. *)
Definition first_occurrences (l : list str) : list str :=
  rev (remove_dups (rev l)).

(** A skills directory whose second skill has a [SKILL.md] that cannot
    be decoded, between two skills that load. *)
Definition broken_dir : Node := Dir [ (py "SKILL.md", File None) ].

Definition broken_tree : Node :=
  Dir [ (py "calc", Dir [ (py "SKILL.md", File (Some calc_md)) ]);
        (py "broken", broken_dir);
        (py "notes", notes_dir) ].



(** The skill that the loader builds from the directory [notes]. *)
Definition notes_skill : Skill :=
  {| skill_dir := py "notes";
     skill_class := DynamicPythonSkill;
     metadata := default_metadata (py "notes");
     references :=
       <[py "deep/more.md" := py "More."]> (<[py "howto.md" := py "How to."]> ∅);
     skill_md := Some (py "Take notes.") |}.

(** A skill directory in which a directory is named like a document. *)
Definition stale_references_dir : Node :=
  Dir [ (py "SKILL.md", File (Some (py "Take notes.")));
        (py "references",
         Dir [ (py "a.md", File (Some (py "A")));
               (py "old.md", Dir []) ]) ].

(* ================================================================== *)
(** * Vocabulary for the calculator *)
(* ================================================================== *)

(** A runtime with another [eval]. *)
Definition with_eval (P : Python) (eval : str -> str + PyValue) : Python :=
  {| lower := @lower P;
     isalnum := @isalnum P;
     py_int := @py_int P;
     re_search := @re_search P;
     py_eval := eval;
     py_str := @py_str P;
     float_is_integer := @float_is_integer P;
     int_of_float := @int_of_float P;
     format_6f := @format_6f P;
     content_none_error := @content_none_error P;
     yaml_metadata := @yaml_metadata P;
     import_skill_class := @import_skill_class P |}.

(** An [eval] that agrees with the one of the runtime on the expressions
    that are not empty and pass [_is_valid_expression], and is arbitrary
    on every other string. *)
Definition eval_elsewhere (P : Python) (other : str -> str + PyValue)
  : str -> str + PyValue :=
  fun expression =>
    if truthy expression && _is_valid_expression expression
    then @py_eval P expression
    else other expression.

(** The ASCII characters that the first pattern of [_extract_expression]
    lets through: digits, operators, parentheses, the dot, the percent
    sign and the space. *)
Definition plain_expression (expr : str) : bool :=
  forallb (fun c => existsb (N.eqb c) (py "0123456789+-*/^().% ")) expr.

(* ================================================================== *)
(** * The endpoints of the skills (api.py) *)
(* ================================================================== *)

Module Api.

(** One item of the answer of [list_skills]: the fields of the metadata,
    with [tags or []] for the tags. *)
Record SkillInfo := {
  info_name : str;
  info_description : str;
  info_category : option str;
  info_tags : list str;
  info_author : option str;
  info_version : option str;
}.

Record SkillList := {
  total : nat;
  skills : list SkillInfo;
}.

Definition skill_info (skill : SkillMetadata) : SkillInfo :=
  {| info_name := name skill;
     info_description := description skill;
     info_category := category skill;
     info_tags := default [] (tags skill);
     info_author := author skill;
     info_version := version skill |}.

(** [GET /skills] *)
Definition list_skills (_skills : dict str Skill) : SkillList :=
  let skills := list_skills _skills in
  {| total := length skills;
     skills := map skill_info skills |}.

(** [HTTPException(status_code=404, detail=...)] *)
Definition not_found (skill_name : str) : str :=
  py "404: Skill '" ++ skill_name ++ py "' not found".

Section Endpoints.
Context `{Python}.

(** [POST /skills/reload] *)
Definition reload_skills (skills_dir : option Node) : Run str :=
  reload skills_dir;;
  mret (py "Skills reloaded successfully").

(** [GET /skills/{skill_name}]: the metadata of the skill and the names
    of its reference documents (as a set: their order is not kept
    here). *)
Definition get_skill_detail (_skills : dict str Skill) (skill_name : str)
  : Run (SkillMetadata * gset str) :=
  match get_skill _skills skill_name with
  | None => raise (not_found skill_name)
  | Some skill => mret (metadata skill, dom (references skill))
  end.

End Endpoints.
End Api.

(* ================================================================== *)
(** * Vocabulary for the chat endpoint *)
(* ================================================================== *)

(** The events of the plain chat: its fragments and its request. *)
Definition chat_event (e : Event) : bool :=
  match e with
  | Yielded Thinking | Yielded (Chunk _) | Requested (ChatStream _) => true
  | _ => false
  end.

(** The events of the execution of a skill: its fragments, the call of
    the handler and the request of the generic skill. *)
Definition skill_event (e : Event) : bool :=
  match e with
  | Yielded (Matched _ _) | Yielded (Executing _) | Yielded (Succeeded _)
  | Yielded (Failed _) | Executed _ | Requested (ExecuteSkill _ _) => true
  | _ => false
  end.

(** A conversation that no skill of the sample tables matches. *)
Definition hello_messages : list (str * str) := [ (py "user", py "hello") ].

(* ================================================================== *)
(** * Vocabulary for the scores *)
(* ================================================================== *)

(** The lexical score as a table: by whether the name of the skill is in
    the message, and by the number of keywords found there. *)
Definition lexical_table (named : bool) (hits : nat) : float :=
  match named, hits with
  | false, 0%nat => 0
  | false, 1%nat => 0.2
  | false, 2%nat => 0.4
  | false, _ => 0.5
  | true, 0%nat => 0.5
  | true, 1%nat => 0.7
  | true, 2%nat => 0.9
  | true, _ => 1
  end%float.

(** The values that the lexical score can take. *)
Definition lexical_values : list float :=
  [0; 0.2; 0.4; 0.5; 0.7; 0.9; 1]%float.

(** The number of keywords of a skill found in a message, as
    [_match_by_keywords] counts them. *)
Definition matched_keywords `{Python} (user_message_lower : str) (skill : Skill) : nat :=
  (keyword_hits (description (metadata skill)) user_message_lower
   + keyword_hits (get_full_content skill) user_message_lower)%nat.

(** A reply of the model that names no skill: a failed request, no text,
    a text that is no integer, an integer that is no ordinal of the list,
    or the integer [0]. *)
Definition names_no_skill `{Python} (reply : ModelReply) (skills : list Skill) : Prop :=
  degraded reply skills
  \/ exists text, reply = Reply (Some text) /\ py_int (strip text) = Some 0%Z.

(** A model that answers every request with [2]. *)
Definition second_choice_world : World :=
  {| complete := fun _ => Reply (Some (py "2"));
     chat_stream := fun _ => ([], None);
     native_execute := fun _ _ => inl (py "boom") |}.

(** A model that answers the requests that pick a skill with [1], and
    fails on every other request. *)
Definition picking_world : World :=
  {| complete := fun r =>
       match r with
       | SelectSkill _ _ => Reply (Some (py "1"))
       | _ => RequestError (py "Request timed out.")
       end;
     chat_stream := fun _ => ([], Some (py "Request timed out."));
     native_execute := fun _ _ => inl (py "boom") |}.

(** A runtime whose YAML parser knows the frontmatter of [calc_md]. *)
Definition yaml_python : Python :=
  {| lower := ascii_lower;
     isalnum := fun _ => false;
     py_int := ascii_int;
     re_search := fun _ _ => None;
     py_eval := fun _ => inl (py "invalid syntax");
     py_str := fun v =>
       match v with
       | VInt z => inr (str_of_Z z)
       | VFloat _ => inr (py "nan")
       | VObject repr => inr repr
       end;
     float_is_integer := fun _ => false;
     int_of_float := fun _ => 0%Z;
     format_6f := fun _ => py "nan";
     content_none_error := py "1 validation error for SkillResult";
     yaml_metadata := fun text =>
       if decide (text = py "name: calc" ++ [nl] ++ py "description: math helper")
       then Some (sample_metadata "calc" "math helper")
       else None;
     import_skill_class := fun _ _ => None |}.

(** A directory named [arithmetic] whose [SKILL.md] is [calc_md]. *)
Definition arithmetic_dir : Node := Dir [ (py "SKILL.md", File (Some calc_md)) ].

(** The requests that a run sends to the model, in order. *)
Definition requests (evs : list Event) : list ModelRequest :=
  omap (fun e => match e with Requested r => Some r | _ => None end) evs.

(* ================================================================== *)
(** * Vocabulary for the order of registration *)
(* ================================================================== *)







(* ================================================================== *)
(** * Vocabulary for the reference documents *)
(* ================================================================== *)

(** The claim on the reference documents as the specification words it,
    with no condition on what the directory holds: [_load_references]
    returns a dictionary that holds, for every document below
    [references], its text under its relative path, and nothing else. *)
Definition stores_every_document (skill_dir references_dir : Node) : Prop :=
  exists refs,
    _load_references skill_dir = mret refs
    /\ forall key text,
         refs !! key = Some text
         <-> exists rel,
               key = path_str rel
               /\ rel <> []
               /\ endswith (py ".md") (basename rel) = true
               /\ node_at references_dir rel = Some (File (Some text)).

(* ================================================================== *)
(** * Facts: dictionaries *)
(* ================================================================== *)

Section DictFacts.
Context {K V : Type} `{EqDecision K}.
Implicit Types (d : dict K V) (k : K) (v : V).

Lemma dict_get_set d k v k' :
  dict_get (dict_set d k v) k' = if decide (k = k') then Some v else dict_get d k'.
Proof.
  induction d as [|[a b] d IH]; simpl.
  - destruct (decide (k = k')); reflexivity.
  - destruct (decide (a = k)) as [->|Hak]; simpl.
    + destruct (decide (k = k')); reflexivity.
    + destruct (decide (a = k')) as [->|Hak'].
      * destruct (decide (k = k')); [congruence|reflexivity].
      * exact IH.
Qed.

Lemma dict_keys_set d k v :
  dict_keys (dict_set d k v)
  = if decide (k ∈ dict_keys d) then dict_keys d else dict_keys d ++ [k].
Proof.
  unfold dict_keys. induction d as [|[a b] d IH]; simpl.
  - destruct (decide (k ∈ [])) as [Hin|_]; [inversion Hin|reflexivity].
  - destruct (decide (a = k)) as [->|Hak]; simpl.
    + destruct (decide (k ∈ k :: map fst d)) as [_|Hn]; [reflexivity|].
      exfalso. apply Hn. left.
    + rewrite IH. destruct (decide (k ∈ map fst d)) as [Hin|Hn].
      * destruct (decide (k ∈ a :: map fst d)) as [_|Hn']; [reflexivity|].
        exfalso. apply Hn'. now right.
      * destruct (decide (k ∈ a :: map fst d)) as [Hin'|_]; [|reflexivity].
        apply elem_of_cons in Hin' as [->|Hin']; [congruence|contradiction].
Qed.

Lemma dict_set_fresh d k v : k ∉ dict_keys d -> dict_set d k v = d ++ [(k, v)].
Proof.
  unfold dict_keys. induction d as [|[a b] d IH]; simpl; intros Hk; [reflexivity|].
  apply not_elem_of_cons in Hk as [Hne Hk].
  destruct (decide (a = k)); [congruence|]. now rewrite IH.
Qed.

Lemma dict_keys_set_NoDup d k v :
  NoDup (dict_keys d) -> NoDup (dict_keys (dict_set d k v)).
Proof.
  intros Hd. rewrite dict_keys_set.
  destruct (decide (k ∈ dict_keys d)); [assumption|].
  apply NoDup_app. split; [assumption|]. split.
  - intros x Hx Hx'. apply list_elem_of_singleton in Hx'. now subst.
  - apply NoDup_singleton.
Qed.

Lemma dict_get_elem_of d k v : dict_get d k = Some v -> (k, v) ∈ d.
Proof.
  induction d as [|[a b] d IH]; simpl; [discriminate|].
  destruct (decide (a = k)) as [->|Hak].
  - intros [= ->]. left.
  - intros Hg. right. auto.
Qed.

Lemma elem_of_dict_get d k v :
  NoDup (dict_keys d) -> (k, v) ∈ d -> dict_get d k = Some v.
Proof.
  unfold dict_keys. induction d as [|[a b] d IH]; simpl; intros Hd Hin.
  - inversion Hin.
  - apply NoDup_cons in Hd as [Ha Hd].
    apply elem_of_cons in Hin as [[= -> ->]|Hin].
    + destruct (decide (a = a)); [reflexivity|congruence].
    + destruct (decide (a = k)) as [->|Hak]; [|auto].
      exfalso. apply Ha. apply (list_elem_of_fmap_2 fst) in Hin. exact Hin.
Qed.

(** The dictionary built by a comprehension over a list of keys. *)
Lemma foldl_dict_set_get (f : K -> V) ks d k :
  dict_get (foldl (fun d k => dict_set d k (f k)) d ks) k
  = if decide (k ∈ ks) then Some (f k) else dict_get d k.
Proof.
  revert d. induction ks as [|a ks IH]; simpl; intros d.
  - destruct (decide (k ∈ [])) as [Hin|_]; [inversion Hin|reflexivity].
  - rewrite IH, dict_get_set.
    destruct (decide (k ∈ ks)) as [Hin|Hn].
    + destruct (decide (k ∈ a :: ks)) as [_|Hn']; [reflexivity|].
      exfalso. apply Hn'. now right.
    + destruct (decide (a = k)) as [->|Hak].
      * destruct (decide (k ∈ k :: ks)) as [_|Hn']; [reflexivity|].
        exfalso. apply Hn'. left.
      * destruct (decide (k ∈ a :: ks)) as [Hin'|_]; [|reflexivity].
        apply elem_of_cons in Hin' as [->|Hin']; [congruence|contradiction].
Qed.

Lemma foldl_dict_set_NoDup (f : K -> V) ks d :
  NoDup (dict_keys d) ->
  NoDup (dict_keys (foldl (fun d k => dict_set d k (f k)) d ks)).
Proof.
  revert d. induction ks as [|a ks IH]; simpl; intros d Hd; [assumption|].
  apply IH, dict_keys_set_NoDup, Hd.
Qed.

Lemma dict_get_comp (f : K -> V) ks k :
  dict_get (dict_comp ks f) k = if decide (k ∈ ks) then Some (f k) else None.
Proof. unfold dict_comp. now rewrite foldl_dict_set_get. Qed.

Lemma dict_comp_NoDup_keys (f : K -> V) ks : NoDup (dict_keys (dict_comp ks f)).
Proof. apply foldl_dict_set_NoDup. constructor. Qed.

Lemma elem_of_dict_comp (f : K -> V) ks k v :
  (k, v) ∈ dict_comp ks f <-> k ∈ ks /\ v = f k.
Proof.
  split.
  - intros Hin. apply elem_of_dict_get in Hin; [|apply dict_comp_NoDup_keys].
    rewrite dict_get_comp in Hin.
    destruct (decide (k ∈ ks)); [|discriminate]. now injection Hin as <-.
  - intros [Hin ->]. apply dict_get_elem_of. rewrite dict_get_comp.
    destruct (decide (k ∈ ks)); [reflexivity|contradiction].
Qed.

Lemma foldl_dict_set_fresh (f : K -> V) ks d :
  NoDup ks -> (forall k, k ∈ ks -> k ∉ dict_keys d) ->
  foldl (fun d k => dict_set d k (f k)) d ks = d ++ map (fun k => (k, f k)) ks.
Proof.
  revert d. induction ks as [|a ks IH]; simpl; intros d Hks Hd.
  - now rewrite app_nil_r.
  - apply NoDup_cons in Hks as [Ha Hks].
    rewrite dict_set_fresh by (apply Hd; left).
    rewrite IH; [now rewrite <- app_assoc|assumption|].
    intros k Hk. unfold dict_keys. rewrite map_app. simpl.
    intros Hin. apply elem_of_app in Hin as [Hin|Hin].
    + apply (Hd k); [now right|exact Hin].
    + apply list_elem_of_singleton in Hin. now subst.
Qed.

(** Over distinct keys the comprehension lists them in order. *)
Lemma dict_comp_NoDup (f : K -> V) ks :
  NoDup ks -> dict_comp ks f = map (fun k => (k, f k)) ks.
Proof.
  intros Hks. unfold dict_comp. rewrite foldl_dict_set_fresh; [reflexivity|assumption|].
  intros k _ Hin. inversion Hin.
Qed.
End DictFacts.

(* ================================================================== *)
(** * Facts: the order of binary64 values, and signs *)
(* ================================================================== *)

Local Open Scope float_scope.

Lemma Pos_compare_cont_Eq a b : Pos.compare_cont Eq a b = (a ?= b)%positive.
Proof. reflexivity. Qed.

Ltac cmp_cases :=
  repeat match goal with
  | |- context [(?a ?= ?b)%Z] => destruct (Z.compare_spec a b); subst
  | |- context [Pos.compare_cont Eq ?a ?b] => rewrite (Pos_compare_cont_Eq a b)
  | |- context [(?a ?= ?b)%positive] => destruct (Pos.compare_spec a b); subst
  | H : context [(?a ?= ?b)%Z] |- _ => destruct (Z.compare_spec a b); subst
  | H : context [Pos.compare_cont Eq ?a ?b] |- _ => rewrite (Pos_compare_cont_Eq a b) in H
  | H : context [(?a ?= ?b)%positive] |- _ => destruct (Pos.compare_spec a b); subst
  end; simpl in *; try discriminate; try reflexivity; try lia.

Lemma SFcompare_trans x y z c1 c2 c :
  SFcompare x y = Some c1 -> SFcompare y z = Some c2 -> cmp_then c1 c2 = Some c ->
  SFcompare x z = Some c.
Proof.
  destruct x as [[]|[]| |[] mx ex], y as [[]|[]| |[] my ey], z as [[]|[]| |[] mz ez];
    simpl; intros Hxy Hyz Hc; try discriminate;
    injection Hxy as <-; injection Hyz as <-; simpl in Hc; try discriminate;
    try (injection Hc as <-; reflexivity);
    revert Hc; cmp_cases; intros Hc; try discriminate; try (injection Hc as <-; reflexivity).
Qed.

Lemma SFcompare_total x y :
  x <> S754_nan -> y <> S754_nan -> exists c, SFcompare x y = Some c /\ SFcompare y x = Some (CompOpp c).
Proof.
  destruct x as [[]|[]| |[] mx ex], y as [[]|[]| |[] my ey]; simpl; intros Hx Hy;
    try congruence; try (eexists; split; reflexivity).
  all: eexists; split; [reflexivity|]; f_equal; try reflexivity.
  all: change (PosDef.Pos.compare_cont Eq mx my) with (mx ?= my)%positive;
    change (PosDef.Pos.compare_cont Eq my mx) with (my ?= mx)%positive;
    rewrite (Z.compare_antisym ey ex), (Pos.compare_antisym my mx);
    destruct (ey ?= ex)%Z; simpl; try reflexivity; destruct (my ?= mx)%positive; reflexivity.
Qed.

Lemma SFcompare_refl x : x <> S754_nan -> SFcompare x x = Some Eq.
Proof.
  destruct x as [[]|[]| |[] mx ex]; simpl; intros Hx; try congruence;
    change (PosDef.Pos.compare_cont Eq mx mx) with (mx ?= mx)%positive;
    rewrite Z.compare_refl, Pos.compare_refl; reflexivity.
Qed.



Lemma Prim2SF_is_nan x : is_nan x = true -> Prim2SF x = S754_nan.
Proof. intros Hx. unfold Prim2SF. now rewrite Hx. Qed.

Lemma Prim2SF_not_nan x : is_nan x = false -> Prim2SF x <> S754_nan.
Proof.
  intros Hx. unfold Prim2SF. rewrite Hx.
  destruct (is_zero x); [discriminate|].
  destruct (is_infinity x); [discriminate|].
  destruct (Z.frexp x) as [r e].
  destruct (shr_fexp _ _ _ _ _) as [mrs e'].
  destruct (shr_m mrs); discriminate.
Qed.

Lemma ltb_false_leb a b :
  is_nan a = false -> is_nan b = false -> (a <? b) = false -> (b <=? a) = true.
Proof.
  intros Ha%Prim2SF_not_nan Hb%Prim2SF_not_nan.
  rewrite ltb_spec, leb_spec. unfold SFltb, SFleb.
  destruct (SFcompare_total _ _ Ha Hb) as (c & -> & ->).
  destruct c; simpl; congruence.
Qed.

Lemma ltb_leb a b : (a <? b) = true -> (a <=? b) = true.
Proof.
  rewrite ltb_spec, leb_spec. unfold SFltb, SFleb.
  destruct (SFcompare _ _) as [[]|]; congruence.
Qed.

Lemma leb_ltb_trans a b c : (a <=? b) = true -> (b <? c) = true -> (a <? c) = true.
Proof.
  rewrite !ltb_spec, leb_spec. unfold SFltb, SFleb.
  destruct (SFcompare (Prim2SF a) (Prim2SF b)) as [c1|] eqn:H1; [|discriminate].
  destruct (SFcompare (Prim2SF b) (Prim2SF c)) as [c2|] eqn:H2; [|discriminate].
  destruct c1, c2; try discriminate; intros _ _;
    now rewrite (SFcompare_trans _ _ _ _ _ Lt H1 H2).
Qed.

Lemma ltb_leb_trans a b c : (a <? b) = true -> (b <=? c) = true -> (a <? c) = true.
Proof.
  rewrite !ltb_spec, leb_spec. unfold SFltb, SFleb.
  destruct (SFcompare (Prim2SF a) (Prim2SF b)) as [c1|] eqn:H1; [|discriminate].
  destruct (SFcompare (Prim2SF b) (Prim2SF c)) as [c2|] eqn:H2; [|discriminate].
  destruct c1, c2; try discriminate; intros _ _;
    now rewrite (SFcompare_trans _ _ _ _ _ Lt H1 H2).
Qed.

Lemma leb_trans a b c : (a <=? b) = true -> (b <=? c) = true -> (a <=? c) = true.
Proof.
  rewrite !leb_spec. unfold SFleb.
  destruct (SFcompare (Prim2SF a) (Prim2SF b)) as [c1|] eqn:H1; [|discriminate].
  destruct (SFcompare (Prim2SF b) (Prim2SF c)) as [c2|] eqn:H2; [|discriminate].
  destruct c1, c2; try discriminate; intros _ _.
  - now rewrite (SFcompare_trans _ _ _ _ _ Eq H1 H2).
  - now rewrite (SFcompare_trans _ _ _ _ _ Lt H1 H2).
  - now rewrite (SFcompare_trans _ _ _ _ _ Lt H1 H2).
  - now rewrite (SFcompare_trans _ _ _ _ _ Lt H1 H2).
Qed.

Lemma leb_refl a : is_nan a = false -> (a <=? a) = true.
Proof.
  intros Ha%Prim2SF_not_nan. rewrite leb_spec. unfold SFleb.
  now rewrite SFcompare_refl.
Qed.

Lemma ltb_irrefl a : (a <? a) = false.
Proof.
  rewrite ltb_spec. unfold SFltb.
  destruct (Prim2SF a) as [[]|[]| |[] m e]; simpl; try reflexivity;
    change (PosDef.Pos.compare_cont Eq m m) with (m ?= m)%positive;
    now rewrite Z.compare_refl, Pos.compare_refl.
Qed.

Lemma ltb_not_leb a b : (a <? b) = true -> (b <=? a) = false.
Proof.
  intros Hab. destruct (b <=? a) eqn:Hba; [|reflexivity].
  pose proof (ltb_leb_trans _ _ _ Hab Hba) as Haa.
  now rewrite ltb_irrefl in Haa.
Qed.

(** ** Signs: the scores are never negative and never NaN *)

Lemma iter_pos_inv {A : Type} (P : A -> Prop) (f : A -> A) :
  (forall x, P x -> P (f x)) -> forall n x, P x -> P (SpecFloat.iter_pos f n x).
Proof.
  intros Hf. induction n as [n IH|n IH|]; simpl; intros x Hx; auto.
Qed.

Lemma shr_1_nonneg mrs : (0 <= shr_m mrs)%Z -> (0 <= shr_m (shr_1 mrs))%Z.
Proof.
  destruct mrs as [m r s]; simpl.
  destruct m as [|[p|p|]|[p|p|]]; simpl; lia.
Qed.

Lemma shr_nonneg mrs e n : (0 <= shr_m mrs)%Z -> (0 <= shr_m (fst (shr mrs e n)))%Z.
Proof.
  intros Hm. unfold shr. destruct n; simpl; auto.
  apply (iter_pos_inv (fun r => (0 <= shr_m r)%Z)); auto using shr_1_nonneg.
Qed.

Lemma shr_fexp_nonneg m e l :
  (0 <= m)%Z -> (0 <= shr_m (fst (shr_fexp prec emax m e l)))%Z.
Proof.
  intros Hm. unfold shr_fexp. apply shr_nonneg.
  destruct l as [|[]]; simpl; assumption.
Qed.

Lemma round_nearest_even_nonneg m l : (0 <= m)%Z -> (0 <= round_nearest_even m l)%Z.
Proof.
  intros Hm. destruct l as [|[]]; simpl; try lia.
  destruct (Z.even m); lia.
Qed.

Lemma binary_round_aux_nonneg m e l :
  (0 <= m)%Z -> sf_nonneg (binary_round_aux prec emax false m e l).
Proof.
  intros Hm. unfold binary_round_aux.
  pose proof (shr_fexp_nonneg m e l Hm) as H1.
  destruct (shr_fexp prec emax m e l) as [mrs' e'] eqn:E1. simpl in H1.
  pose proof (shr_fexp_nonneg _ e' loc_Exact
                (round_nearest_even_nonneg _ (loc_of_shr_record mrs') H1)) as H2.
  destruct (shr_fexp prec emax _ e' loc_Exact) as [mrs'' e''] eqn:E2. simpl in H2.
  destruct (shr_m mrs''); simpl; [exact I| |lia].
  destruct (Z.leb _ _); exact I.
Qed.

Lemma binary_round_nonneg m e : sf_nonneg (binary_round prec emax false m e).
Proof.
  unfold binary_round. destruct (shl_align _ _ _) as [mz ez].
  apply binary_round_aux_nonneg. lia.
Qed.

Lemma binary_normalize_nonneg z e :
  (0 <= z)%Z -> sf_nonneg (binary_normalize prec emax z e false).
Proof.
  intros Hz. destruct z; simpl; [exact I|apply binary_round_nonneg|lia].
Qed.

Lemma nonneg_not_nan x : nonneg x -> is_nan x = false.
Proof.
  unfold nonneg. intros Hx. destruct (is_nan x) eqn:E; [|reflexivity].
  rewrite (Prim2SF_is_nan _ E) in Hx. destruct Hx.
Qed.

Lemma nonneg_mul x y m e :
  Prim2SF y = S754_finite false m e -> nonneg x -> nonneg (x * y).
Proof.
  unfold nonneg. intros Hy Hx. rewrite mul_spec, Hy. unfold SF64mul.
  destruct (Prim2SF x) as [[]|[]| |[] mx ex]; simpl in *; try tauto.
  apply binary_round_aux_nonneg. lia.
Qed.

Lemma nonneg_add x y : nonneg x -> nonneg y -> nonneg (x + y).
Proof.
  unfold nonneg. intros Hx Hy. rewrite add_spec. unfold SF64add.
  destruct (Prim2SF x) as [[]|[]| |[] mx ex], (Prim2SF y) as [[]|[]| |[] my ey];
    simpl in *; try tauto.
  apply binary_round_nonneg.
Qed.

Lemma nonneg_py_min a b : nonneg a -> nonneg b -> nonneg (py_min a b).
Proof. unfold py_min. intros Ha Hb. destruct (b <? a); assumption. Qed.

Lemma add_zero_r x : nonneg x -> x + 0 = x.
Proof.
  unfold nonneg. intros Hx. apply Prim2SF_inj. rewrite add_spec. unfold SF64add.
  change (Prim2SF 0) with (S754_zero false).
  destruct (Prim2SF x) as [[]|[]| |[] mx ex]; simpl in *; try tauto.
Qed.

Lemma nonneg_of_uint63 n : nonneg (of_uint63 n).
Proof.
  unfold nonneg. rewrite of_uint63_spec. apply binary_normalize_nonneg.
  apply Uint63.to_Z_bounded.
Qed.

Lemma nonneg_SF2Prim x : sf_nonneg x -> nonneg (SF2Prim x).
Proof.
  destruct x as [[]|[]| |[] m e]; simpl; try tauto; intros _;
    try (vm_compute; exact I).
  unfold nonneg. rewrite Z_ldexp_spec.
  {
    pose proof (nonneg_of_uint63 (Uint63.of_Z (Z.pos m))) as Hn. unfold nonneg in Hn.
    destruct (Prim2SF _) as [[]|[]| |[] m' e']; simpl in *; try tauto.
    apply binary_round_nonneg. }
Qed.

Lemma nonneg_float_of_int z : (0 <= z)%Z -> nonneg (float_of_int z).
Proof.
  intros Hz. apply nonneg_SF2Prim, binary_normalize_nonneg, Hz.
Qed.

(* ================================================================== *)
(** * Facts: the scan of max *)
(* ================================================================== *)

Section MaxFacts.
Context {K : Type}.
Implicit Types (best x : K * float) (items pre rest : list (K * float)).

Lemma max_from_best_at pre best rest i :
  (forall x, x ∈ pre ++ rest -> is_nan (snd x) = false) ->
  best_at pre i best ->
  exists i', best_at (pre ++ rest) i' (max_from best rest).
Proof.
  revert pre best i. induction rest as [|y rest IH]; intros pre best i Hnan [Hi Hall].
  - exists i. rewrite app_nil_r. split; assumption.
  - simpl.
    assert (Hy : is_nan (snd y) = false).
    { apply Hnan. apply elem_of_app. right. left. }
    assert (Hb : is_nan (snd best) = false).
    { apply Hnan. apply elem_of_app. left. eapply list_elem_of_lookup_2, Hi. }
    assert (Hlen : (i < length pre)%nat) by (eapply lookup_lt_Some, Hi).
    replace (pre ++ y :: rest) with ((pre ++ [y]) ++ rest) in *
      by (now rewrite <- app_assoc).
    destruct (snd best <? snd y) eqn:Hlt.
    + apply (IH (pre ++ [y]) y (length pre)); [assumption|]. split.
      * rewrite lookup_app_r by lia. now rewrite Nat.sub_diag.
      * intros j x Hj.
        destruct (decide (j < length pre)%nat) as [Hjl|Hjl].
        -- rewrite lookup_app_l in Hj by assumption.
           destruct (Hall j x Hj) as [Hle _].
           pose proof (leb_ltb_trans _ _ _ Hle Hlt) as Hxy.
           split; [now apply ltb_leb|intros _; exact Hxy].
        -- rewrite lookup_app_r in Hj by lia.
           destruct (j - length pre)%nat eqn:E; simpl in Hj; [|discriminate].
           injection Hj as <-. split; [now apply leb_refl|lia].
    + apply (IH (pre ++ [y]) best i); [assumption|]. split.
      * now rewrite lookup_app_l.
      * intros j x Hj.
        destruct (decide (j < length pre)%nat) as [Hjl|Hjl].
        -- rewrite lookup_app_l in Hj by assumption. now apply Hall.
        -- rewrite lookup_app_r in Hj by lia.
           destruct (j - length pre)%nat eqn:E; simpl in Hj; [|discriminate].
           injection Hj as <-. split; [now apply ltb_false_leb|lia].
Qed.

Lemma max_from_spec first rest :
  (forall x, x ∈ first :: rest -> is_nan (snd x) = false) ->
  exists i, best_at (first :: rest) i (max_from first rest).
Proof.
  intros Hnan. apply (max_from_best_at [first] first rest 0%nat); [exact Hnan|].
  split; [reflexivity|].
  intros [|j] x Hj; simpl in Hj; [|discriminate].
  injection Hj as <-. split; [|lia]. apply leb_refl, Hnan. left.
Qed.
End MaxFacts.

(* ================================================================== *)
(** * Facts: the runs of the two scorers *)
(* ================================================================== *)

Section MatcherFacts.
Context `{Python}.

Lemma Run_bind_value {A B : Type} (f : A -> Run B) (l : list Event) (a : A) :
  mbind f ((l, inr a) : Run A) = (l ++ fst (f a), snd (f a)).
Proof. unfold mbind, Run_bind. now destruct (f a). Qed.

Lemma Run_bind_raise {A B : Type} (f : A -> Run B) (l : list Event) (e : str) :
  mbind f ((l, inl e) : Run A) = (l, inl e).
Proof. reflexivity. Qed.

(** ** The lexical scorer *)

Lemma _match_by_keywords_run user_message skills :
  _match_by_keywords user_message skills
  = (map Scored skills,
     inr (dict_comp skills (keyword_score (lower user_message)))).
Proof.
  unfold _match_by_keywords, dict_comp.
  change (mret []) with (([], inr []) : Run (dict Skill float)).
  change (map Scored skills) with ([] ++ map Scored skills).
  generalize (@nil Event) as l. generalize (@nil (Skill * float)) as d.
  induction skills as [|s skills IH]; intros d l; cbn [foldl map].
  - now rewrite app_nil_r.
  - rewrite Run_bind_value. cbn [fst snd]. 
    replace (l ++ Scored s :: map Scored skills) with ((l ++ [Scored s]) ++ map Scored skills)
      by (now rewrite <- app_assoc).
    rewrite <- IH. reflexivity.
Qed.

Lemma Prim2SF_0_2 : Prim2SF 0.2 = S754_finite false 7205759403792794 (-55).
Proof. reflexivity. Qed.
Lemma Prim2SF_0_4 : Prim2SF 0.4 = S754_finite false 7205759403792794 (-54).
Proof. reflexivity. Qed.
Lemma Prim2SF_0_6 : Prim2SF 0.6 = S754_finite false 5404319552844595 (-53).
Proof. reflexivity. Qed.

Lemma nonneg_0 : nonneg 0.   Proof. exact I. Qed.
Lemma nonneg_0_1 : nonneg 0.1. Proof. exact I. Qed.
Lemma nonneg_0_5 : nonneg 0.5. Proof. exact I. Qed.
Lemma nonneg_0_9 : nonneg 0.9. Proof. exact I. Qed.
Lemma nonneg_1 : nonneg 1.   Proof. exact I. Qed.

Lemma keyword_score_nonneg user_message_lower skill :
  nonneg (keyword_score user_message_lower skill).
Proof.
  unfold keyword_score.
  apply nonneg_py_min; [|exact nonneg_1].
  assert (Hbase : nonneg (if contains (lower (name (metadata skill))) user_message_lower
                          then 0 + 0.5 else 0)).
  { destruct (contains _ _); exact I. }
  destruct (0 <? _)%nat; [|exact Hbase].
  apply nonneg_add; [exact Hbase|].
  apply nonneg_py_min; [|exact nonneg_0_5].
  eapply nonneg_mul; [exact Prim2SF_0_2|].
  apply nonneg_float_of_int. lia.
Qed.

(** ** The model-assisted scorer *)

Lemma semantic_scores_value reply skills s v :
  dict_get (semantic_scores reply skills) s = Some v -> v = 0 \/ v = 0.1 \/ v = 0.9.
Proof.
  unfold semantic_scores.
  assert (Hz : dict_get (dict_comp skills (fun _ => 0)) s = Some v -> v = 0 \/ v = 0.1 \/ v = 0.9).
  { rewrite dict_get_comp. destruct (decide (s ∈ skills)); [|discriminate].
    intros [= <-]. now left. }
  destruct reply as [e|[text|]]; try exact Hz.
  destruct (py_int (strip text)) as [k|]; try exact Hz.
  destruct (k =? 0)%Z; try exact Hz.
  destruct (_ && _); try exact Hz.
  destruct (skills !! _) as [m|]; try exact Hz.
  rewrite dict_get_comp. destruct (decide (s ∈ skills)); [|discriminate].
  intros [= <-]. destruct (decide (s = m)); auto.
Qed.

Lemma semantic_scores_defined reply skills s :
  s ∈ skills -> exists v, dict_get (semantic_scores reply skills) s = Some v.
Proof.
  intros Hs. unfold semantic_scores.
  assert (Hz : exists v, dict_get (dict_comp skills (fun _ => 0)) s = Some v).
  { rewrite dict_get_comp. destruct (decide (s ∈ skills)); [eauto|contradiction]. }
  destruct reply as [e|[text|]]; try exact Hz.
  destruct (py_int (strip text)) as [k|]; try exact Hz.
  destruct (k =? 0)%Z; try exact Hz.
  destruct (_ && _); try exact Hz.
  destruct (skills !! _) as [m|]; try exact Hz.
  rewrite dict_get_comp. destruct (decide (s ∈ skills)); [eauto|contradiction].
Qed.

Lemma semantic_scores_degraded reply skills :
  degraded reply skills ->
  semantic_scores reply skills = dict_comp skills (fun _ => 0).
Proof.
  unfold degraded, semantic_scores.
  destruct reply as [e|[text|]]; try reflexivity.
  destruct (py_int (strip text)) as [k|]; try reflexivity.
  intros Hk. destruct (k =? 0)%Z; [reflexivity|].
  replace ((1 <=? k)%Z && (k <=? Z.of_nat (length skills))%Z) with false; [reflexivity|].
  symmetry. apply andb_false_iff. destruct Hk; [left|right]; lia.
Qed.

Lemma _match_by_semantic_run w user_message skills history :
  _match_by_semantic w user_message skills history
  = ([Requested (SelectSkill user_message skills)],
     inr (semantic_scores (complete w (SelectSkill user_message skills)) skills)).
Proof. reflexivity. Qed.

(** ** Combination and selection *)

Lemma combined_scores_comp skills kw sem :
  combined_scores skills kw sem = dict_comp skills (score_of kw sem).
Proof. reflexivity. Qed.

Lemma score_of_nonneg kw sem s :
  nonneg (dict_get_or kw s 0) -> nonneg (dict_get_or sem s 0) ->
  nonneg (score_of kw sem s).
Proof.
  intros Hk Hs. unfold score_of. apply nonneg_add.
  - eapply nonneg_mul; [exact Prim2SF_0_4|exact Hk].
  - eapply nonneg_mul; [exact Prim2SF_0_6|exact Hs].
Qed.

End MatcherFacts.

(* ================================================================== *)
(** * The matcher: combination, threshold, empty table *)
(* ================================================================== *)

Section Selection.
Context `{Python}.

Lemma best_match_items skills kw sem :
  skills <> [] ->
  (forall s, s ∈ skills -> is_nan (score_of kw sem s) = false) ->
  exists i best,
    best_at (dict_items (combined_scores skills kw sem)) i (best, score_of kw sem best)
    /\ best ∈ skills
    /\ best_match skills kw sem
       = mret (if score_of kw sem best <? 0.3 then None
               else Some (best, score_of kw sem best)).
Proof.
  intros Hne Hnan. unfold best_match.
  rewrite combined_scores_comp. unfold dict_items.
  destruct (dict_comp skills (score_of kw sem)) as [|first rest] eqn:E.
  { destruct skills as [|s0 skills]; [congruence|].
    assert (Hin : (s0, score_of kw sem s0) ∈ dict_comp (s0 :: skills) (score_of kw sem)).
    { apply elem_of_dict_comp. split; [left|reflexivity]. }
    rewrite E in Hin. inversion Hin. }
  assert (Hitems : forall x, x ∈ first :: rest -> fst x ∈ skills /\ snd x = score_of kw sem (fst x)).
  { intros [k v] Hx. rewrite <- E in Hx. now apply elem_of_dict_comp in Hx. }
  destruct (max_from_spec first rest) as [i Hbest].
  { intros x Hx. destruct (Hitems x Hx) as [Hk ->]. now apply Hnan. }
  destruct (max_from first rest) as [best v] eqn:Em.
  assert (Hb : (best, v) ∈ first :: rest).
  { destruct Hbest as [Hi _]. eapply list_elem_of_lookup_2, Hi. }
  destruct (Hitems _ Hb) as [Hbs Hv]. simpl in Hbs, Hv. subst v.
  exists i, best. split; [exact Hbest|]. split; [exact Hbs|].
  simpl. destruct (_ <? 0.3); reflexivity.
Qed.

Lemma best_match_maximum skills kw sem :
  skills <> [] ->
  (forall s, s ∈ skills -> is_nan (score_of kw sem s) = false) ->
  exists best,
    best ∈ skills
    /\ (forall s, s ∈ skills -> (score_of kw sem s <=? score_of kw sem best) = true)
    /\ best_match skills kw sem
       = mret (if score_of kw sem best <? 0.3 then None
               else Some (best, score_of kw sem best)).
Proof.
  intros Hne Hnan.
  destruct (best_match_items skills kw sem Hne Hnan) as (i & best & [Hi Hall] & Hbs & Hres).
  exists best. split; [exact Hbs|]. split; [|exact Hres].
  intros s Hs.
  assert (Hin : (s, score_of kw sem s) ∈ dict_items (combined_scores skills kw sem)).
  { rewrite combined_scores_comp. apply elem_of_dict_comp. now split. }
  apply list_elem_of_lookup_1 in Hin as [j Hj].
  exact (proj1 (Hall j _ Hj)).
Qed.

Lemma match_skill_run w _skills user_message history :
  dict_values _skills <> [] ->
  let skills := dict_values _skills in
  let kw := dict_comp skills (keyword_score (lower user_message)) in
  let sem := semantic_scores (complete w (SelectSkill user_message skills)) skills in
  match_skill w _skills user_message history
  = (map Scored skills ++ [Requested (SelectSkill user_message skills)]
       ++ fst (best_match skills kw sem),
     snd (best_match skills kw sem)).
Proof.
  intros Hne. cbv zeta. unfold match_skill, get_all_skills.
  destruct (dict_values _skills) as [|s0 rest]; [congruence|].
  rewrite _match_by_keywords_run, Run_bind_value. cbn [fst snd].
  rewrite _match_by_semantic_run, Run_bind_value. cbn [fst snd].
  reflexivity.
Qed.

Lemma best_match_raises_nothing skills kw sem : fst (best_match skills kw sem) = [].
Proof.
  unfold best_match. destruct (dict_items _) as [|first rest]; [reflexivity|].
  destruct (_ <? _); reflexivity.
Qed.


(** C10. With no skill in the table, [match_skill] answers no match at
    once: it scores nothing and sends no request to the model. Only a
    table that holds skills makes it score each of them and send its
    one request. *)
Theorem match_skill_empty_table
    (w : World) (user_message : str) (history : list (str * str)) :
  match_skill w [] user_message history = ([], inr None)
  /\ forall entry rest,
       events (match_skill w (entry :: rest) user_message history)
       = map Scored (dict_values (entry :: rest))
         ++ [Requested (SelectSkill user_message (dict_values (entry :: rest)))].
Proof.
  split; [reflexivity|].
  intros entry rest. unfold events.
  rewrite match_skill_run by discriminate. cbn [fst].
  now rewrite best_match_raises_nothing, app_nil_r.
Qed.

Lemma pipeline_scores_nonneg w user_message skills s :
  s ∈ skills ->
  nonneg (score_of (dict_comp skills (keyword_score (lower user_message)))
                   (semantic_scores (complete w (SelectSkill user_message skills)) skills) s).
Proof.
  intros Hs. apply score_of_nonneg; unfold dict_get_or.
  - rewrite dict_get_comp. destruct (decide (s ∈ skills)); [|contradiction].
    apply keyword_score_nonneg.
  - destruct (semantic_scores_defined (complete w (SelectSkill user_message skills)) skills s Hs)
      as [v Hv].
    rewrite Hv. simpl.
    destruct (semantic_scores_value _ _ _ _ Hv) as [->|[->| ->]]; exact I.
Qed.
End Selection.

(* ================================================================== *)
(** * The matcher: ties and the silent failure of the model *)
(* ================================================================== *)


Section TiesAndFailures.
Context `{Python}.

Lemma match_skill_returns w _skills user_message history :
  exists result, snd (match_skill w _skills user_message history) = inr result.
Proof.
  destruct (dict_values _skills) as [|s0 rest] eqn:E.
  - exists None. unfold match_skill, get_all_skills. now rewrite E.
  - rewrite match_skill_run by (rewrite E; discriminate). cbn [snd].
    edestruct (best_match_items (dict_values _skills)) as (i & best & _ & _ & ->).
    + rewrite E. discriminate.
    + intros s Hs. apply nonneg_not_nan, pipeline_scores_nonneg, Hs.
    + eexists. reflexivity.
Qed.

(** On the scores that the two scorers compute, no hypothesis on the
    numbers is needed: [match_skill] on a table with at least one skill
    returns a skill of the greatest combined score, or no match when
    that score is below [0.3]. *)
Lemma match_skill_selects_maximum w _skills user_message history :
  dict_values _skills <> [] ->
  exists kw sem best,
    snd (_match_by_keywords user_message (dict_values _skills)) = inr kw
    /\ snd (_match_by_semantic w user_message (dict_values _skills) history) = inr sem
    /\ best ∈ dict_values _skills
    /\ (forall s, s ∈ dict_values _skills ->
          (score_of kw sem s <=? score_of kw sem best) = true)
    /\ snd (match_skill w _skills user_message history)
       = inr (if score_of kw sem best <? 0.3 then None
              else Some (best, score_of kw sem best)).
Proof.
  intros Hne. set (skills := dict_values _skills) in *.
  exists (dict_comp skills (keyword_score (lower user_message))),
         (semantic_scores (complete w (SelectSkill user_message skills)) skills).
  destruct (best_match_maximum skills
              (dict_comp skills (keyword_score (lower user_message)))
              (semantic_scores (complete w (SelectSkill user_message skills)) skills) Hne)
    as (best & Hbest & Hmax & Hres).
  { intros s Hs. apply nonneg_not_nan, pipeline_scores_nonneg, Hs. }
  exists best. split; [now rewrite _match_by_keywords_run|].
  split; [now rewrite _match_by_semantic_run|].
  split; [exact Hbest|]. split; [exact Hmax|].
  rewrite match_skill_run by exact Hne. cbn [snd]. fold skills. rewrite Hres.
  destruct (_ <? 0.3); reflexivity.
Qed.


(** C3. When the request of the model-assisted scorer raises, or its
    reply has no text, or the text is not an integer or is an integer
    that is no ordinal of the list, the scorer returns the score [0] for
    every skill instead of raising, [match_skill] returns a value, and
    the combined score of every skill is its lexical score times
    [0.4]. *)
Theorem semantic_failure_degrades_to_lexical
    (w : World) (_skills : dict str Skill) (user_message : str)
    (history : list (str * str)) :
  degraded (complete w (SelectSkill user_message (dict_values _skills)))
           (dict_values _skills) ->
  exists kw sem result,
    snd (_match_by_keywords user_message (dict_values _skills)) = inr kw
    /\ snd (_match_by_semantic w user_message (dict_values _skills) history) = inr sem
    /\ snd (match_skill w _skills user_message history) = inr result
    /\ forall s, s ∈ dict_values _skills ->
         dict_get sem s = Some 0
         /\ dict_get (combined_scores (dict_values _skills) kw sem) s
            = Some (dict_get_or kw s 0 * 0.4).
Proof.
  intros Hdeg. set (skills := dict_values _skills) in *.
  destruct (match_skill_returns w _skills user_message history) as [result Hres].
  exists (dict_comp skills (keyword_score (lower user_message))),
         (dict_comp skills (fun _ => 0)), result.
  split; [now rewrite _match_by_keywords_run|].
  split; [now rewrite _match_by_semantic_run, semantic_scores_degraded|].
  split; [exact Hres|].
  intros s Hs.
  assert (Hz : dict_get (dict_comp skills (fun _ : Skill => 0)) s = Some 0).
  { rewrite dict_get_comp. destruct (decide (s ∈ skills)); [reflexivity|contradiction]. }
  split; [exact Hz|].
  rewrite combined_scores_comp, dict_get_comp.
  destruct (decide (s ∈ skills)); [|contradiction].
  f_equal. unfold score_of at 1. unfold dict_get_or at 2. rewrite Hz.
  change (default 0 (Some 0) * 0.6) with 0.
  apply add_zero_r. eapply nonneg_mul; [exact Prim2SF_0_4|].
  unfold dict_get_or. rewrite dict_get_comp.
  destruct (decide (s ∈ skills)); [|contradiction]. apply keyword_score_nonneg.
Qed.
End TiesAndFailures.

(* ================================================================== *)
(** * The lexical score *)
(* ================================================================== *)

Lemma filter_length_Permutation {A : Type} (p : A -> bool) (l k : list A) :
  l ≡ₚ k -> length (List.filter p l) = length (List.filter p k).
Proof.
  induction 1 as [|x l k _ IH|x y l|l k m _ IH1 _ IH2]; simpl.
  - reflexivity.
  - destruct (p x); simpl; congruence.
  - destruct (p x), (p y); reflexivity.
  - congruence.
Qed.

Section LexicalFacts.
Context `{Python}.

Lemma _extract_keywords_NoDup text : NoDup (_extract_keywords text).
Proof. apply NoDup_remove_dups. Qed.

(** The matched count of the code: the hits among the keywords of the
    description plus the hits among the keywords of the full text. *)
Lemma matched_keywords_split user_message_lower skill :
  length (List.filter (fun kw => contains kw user_message_lower)
            (_extract_keywords (description (metadata skill))
             ++ _extract_keywords (get_full_content skill)))
  = (keyword_hits (description (metadata skill)) user_message_lower
     + keyword_hits (get_full_content skill) user_message_lower)%nat.
Proof. unfold keyword_hits. now rewrite List.filter_app, length_app. Qed.

(** The lexical score of the code, as one formula. *)
Lemma keyword_score_formula user_message_lower skill :
  keyword_score user_message_lower skill
  = py_min
      ((if contains (lower (name (metadata skill))) user_message_lower
        then 0.5 else 0)
       + py_min
           (float_of_int
              (Z.of_nat
                 (keyword_hits (description (metadata skill)) user_message_lower
                  + keyword_hits (get_full_content skill) user_message_lower))
            * 0.2) 0.5)
      1.
Proof.
  unfold keyword_score. rewrite matched_keywords_split.
  destruct (_ + _)%nat as [|n]; [|destruct (contains _ _); reflexivity].
  destruct (contains _ _); reflexivity.
Qed.

(** A name match and no keyword in the message: [0.5]. *)
Lemma keyword_score_name_alone user_message_lower skill :
  contains (lower (name (metadata skill))) user_message_lower = true ->
  keyword_hits (description (metadata skill)) user_message_lower = 0%nat ->
  keyword_hits (get_full_content skill) user_message_lower = 0%nat ->
  keyword_score user_message_lower skill = 0.5.
Proof. intros Hn H1 H2. rewrite keyword_score_formula, Hn, H1, H2. reflexivity. Qed.

(** A name match and three keyword hits: [1.0]. *)
Lemma keyword_score_name_and_three user_message_lower skill :
  contains (lower (name (metadata skill))) user_message_lower = true ->
  (keyword_hits (description (metadata skill)) user_message_lower
   + keyword_hits (get_full_content skill) user_message_lower = 3)%nat ->
  keyword_score user_message_lower skill = 1.
Proof. intros Hn H3. rewrite keyword_score_formula, Hn, H3. reflexivity. Qed.

(** The code and the wording of the specification agree when the
    description and the full text share no keyword. *)
Lemma keyword_score_agrees_without_shared_keyword user_message_lower skill :
  (forall kw, kw ∈ _extract_keywords (description (metadata skill)) ->
              kw ∈ _extract_keywords (get_full_content skill) -> False) ->
  keyword_score user_message_lower skill
  = spec_lexical_score user_message_lower skill.
Proof.
  intros Hdisj. rewrite keyword_score_formula. unfold spec_lexical_score.
  rewrite <- matched_keywords_split.
  rewrite (filter_length_Permutation _
             (remove_dups (_extract_keywords (description (metadata skill))
                           ++ _extract_keywords (get_full_content skill)))
             (_extract_keywords (description (metadata skill))
              ++ _extract_keywords (get_full_content skill))).
  - reflexivity.
  - apply NoDup_Permutation.
    + apply NoDup_remove_dups.
    + apply NoDup_app. split; [apply _extract_keywords_NoDup|].
      split; [|apply _extract_keywords_NoDup].
      intros kw H1 H2. exact (Hdisj kw H1 H2).
    + intros kw. apply elem_of_remove_dups.
Qed.
End LexicalFacts.

(** From three hits up to a few thousand, the keyword part is [0.5]. *)
Lemma keyword_part_saturates (n : nat) :
  (3 <= n <= 4096)%nat ->
  py_min (float_of_int (Z.of_nat n) * 0.2) 0.5 = 0.5.
Proof.
  intros Hn.
  assert (Hall : forallb (fun k => Leibniz.eqb
                            (py_min (float_of_int (Z.of_nat k) * 0.2) 0.5) 0.5)
                         (seq 3 4094) = true) by (vm_compute; reflexivity).
  rewrite forallb_forall in Hall.
  apply Leibniz.eqb_spec, Hall, in_seq. lia.
Qed.

(** C2. The keywords of the description and those of the full text are
    counted one list after the other, so a keyword found in both counts
    twice. For the skill [calc], whose description [math helper] is also
    in its [SKILL.md], and the message [math]: the one keyword [math] of
    the message gives the score [0.4], where counting distinct keywords
    gives [0.2]. *)
Theorem keyword_score_counts_shared_keyword_twice :
  @keyword_hits ascii_python (description (metadata calc_skill)) (py "math") = 1%nat
  /\ @keyword_hits ascii_python (get_full_content calc_skill) (py "math") = 1%nat
  /\ @keyword_score ascii_python (@lower ascii_python (py "math")) calc_skill = 0.4
  /\ @spec_lexical_score ascii_python (@lower ascii_python (py "math")) calc_skill = 0.2.
Proof. repeat split; vm_compute; reflexivity. Qed.

(* ================================================================== *)
(** * The matcher on sample inputs *)
(* ================================================================== *)


(** A best score of exactly [0.3] is a match; a best score just below is
    not. *)
Example best_match_on_the_threshold :
  best_match [twin_skill "alpha"; twin_skill "beta"]
    threshold_keyword_matches threshold_semantic_matches
  = mret (Some (twin_skill "alpha", 0.3)).
Proof. vm_compute. reflexivity. Qed.

Example best_match_below_the_threshold :
  best_match [twin_skill "alpha"]
    [(twin_skill "alpha", 0.74)] [(twin_skill "alpha", 0)]
  = mret None
  /\ score_of [(twin_skill "alpha", 0.74)] [(twin_skill "alpha", 0)] (twin_skill "alpha")
     = 0.296.
Proof. split; vm_compute; reflexivity. Qed.

(** A lexical score of [0.5] and a model-assisted score of [0.9] combine
    to [0.74]. *)
Example combine_name_match_and_model_choice : combine 0.5 0.9 = 0.74.
Proof. vm_compute. reflexivity. Qed.

(** The two skills tie, and the first of the table is returned. *)
Example twins_tie :
  score_of (dict_comp (dict_values twin_table)
              (@keyword_score ascii_python (@lower ascii_python twin_message)))
           (dict_comp (dict_values twin_table) (fun _ => 0))
           (twin_skill "beta")
  = 0.36000000000000004
  /\ snd (@match_skill ascii_python silent_world twin_table twin_message [])
     = inr (Some (twin_skill "alpha", 0.36000000000000004)).
Proof. split; vm_compute; reflexivity. Qed.

(** The theorem on a model whose reply is the empty text, which [int]
    rejects. *)
Lemma semantic_failure_degrades_to_lexical_witness :
  exists kw sem result,
    snd (@_match_by_keywords ascii_python twin_message (dict_values twin_table)) = inr kw
    /\ snd (@_match_by_semantic ascii_python silent_world twin_message
              (dict_values twin_table) []) = inr sem
    /\ snd (@match_skill ascii_python silent_world twin_table twin_message []) = inr result
    /\ forall s, s ∈ dict_values twin_table ->
         dict_get sem s = Some 0
         /\ dict_get (combined_scores (dict_values twin_table) kw sem) s
            = Some (dict_get_or kw s 0 * 0.4).
Proof.
  apply (@semantic_failure_degrades_to_lexical ascii_python silent_world twin_table).
  vm_compute. exact I.
Defined.

(** The reply [2] for two skills gives [0.9] to the second and [0.1] to
    the first; the reply [7] gives [0] to both. *)
Example semantic_scores_of_an_ordinal :
  @semantic_scores ascii_python (Reply (Some (py " 2 "))) (dict_values twin_table)
  = [(twin_skill "alpha", 0.1); (twin_skill "beta", 0.9)]
  /\ @semantic_scores ascii_python (Reply (Some (py "7"))) (dict_values twin_table)
     = [(twin_skill "alpha", 0); (twin_skill "beta", 0)].
Proof. split; vm_compute; reflexivity. Qed.

(* ================================================================== *)
(** * The ranking of the skills *)
(* ================================================================== *)

(** ** The descending sort *)

Section SortFacts.
Context {K : Type}.
Implicit Types (x y best : K * float) (l items sorted : list (K * float)).

Lemma insert_desc_Permutation x sorted : insert_desc x sorted ≡ₚ x :: sorted.
Proof.
  induction sorted as [|y t IH]; simpl; [reflexivity|].
  destruct (snd x <? snd y); [|reflexivity].
  rewrite IH. apply Permutation_swap.
Qed.

Lemma sort_desc_Permutation l : sort_desc l ≡ₚ l.
Proof.
  induction l as [|x l IH]; simpl; [reflexivity|].
  now rewrite insert_desc_Permutation, IH.
Qed.

Lemma descending_cons x l :
  (forall y, y ∈ l -> (snd y <=? snd x) = true) -> descending l -> descending (x :: l).
Proof.
  intros Hx Hl [|i] [|j] a b Hij Ha Hb; simpl in *; try lia.
  - injection Ha as <-. apply Hx. eapply list_elem_of_lookup_2, Hb.
  - apply (Hl i j); [lia|assumption|assumption].
Qed.

Lemma descending_inv x l :
  descending (x :: l) ->
  (forall y, y ∈ l -> (snd y <=? snd x) = true) /\ descending l.
Proof.
  intros H. split.
  - intros y Hy. apply list_elem_of_lookup_1 in Hy as [j Hj].
    apply (H 0%nat (S j)); [lia|reflexivity|exact Hj].
  - intros i j a b Hij Ha Hb. apply (H (S i) (S j)); [lia|assumption|assumption].
Qed.

Lemma insert_desc_descending x sorted :
  is_nan (snd x) = false ->
  (forall y, y ∈ sorted -> is_nan (snd y) = false) ->
  descending sorted -> descending (insert_desc x sorted).
Proof.
  intros Hx. induction sorted as [|y t IH]; intros Hnan Hs; simpl.
  - apply descending_cons; [|exact Hs]. intros y Hy. inversion Hy.
  - apply descending_inv in Hs as [Hy Ht].
    destruct (snd x <? snd y) eqn:E.
    + apply descending_cons.
      * intros z Hz. rewrite insert_desc_Permutation in Hz.
        apply elem_of_cons in Hz as [->|Hz]; [now apply ltb_leb|now apply Hy].
      * apply IH; [|exact Ht]. intros z Hz. apply Hnan. now right.
    + assert (Hyx : (snd y <=? snd x) = true).
      { apply ltb_false_leb; [exact Hx| |exact E]. apply Hnan. left. }
      apply descending_cons.
      * intros z Hz. apply elem_of_cons in Hz as [->|Hz]; [exact Hyx|].
        eapply leb_trans; [apply Hy, Hz|exact Hyx].
      * apply descending_cons; assumption.
Qed.

Lemma sort_desc_descending l :
  (forall y, y ∈ l -> is_nan (snd y) = false) -> descending (sort_desc l).
Proof.
  induction l as [|x l IH]; intros Hnan; simpl.
  - intros i j a b _ Ha. destruct i; discriminate Ha.
  - apply insert_desc_descending.
    + apply Hnan. left.
    + intros y Hy. rewrite sort_desc_Permutation in Hy. apply Hnan. now right.
    + apply IH. intros y Hy. apply Hnan. now right.
Qed.

(** The sort puts first what the scan of [max] finds: the first of the
    items that no other exceeds. *)
Lemma sort_desc_head items i best :
  best_at items i best -> head (sort_desc items) = Some best.
Proof.
  revert i. induction items as [|x t IH]; intros i [Hi Hall].
  - destruct i; discriminate Hi.
  - cbn [sort_desc foldr]. fold (sort_desc t). destruct i as [|i].
    + injection Hi as ->.
      destruct (sort_desc t) as [|y s] eqn:Es; [reflexivity|]. simpl.
      assert (Hy : y ∈ t).
      { rewrite <- (sort_desc_Permutation t), Es. left. }
      apply list_elem_of_lookup_1 in Hy as [j Hj].
      destruct (Hall (S j) y Hj) as [Hle _].
      destruct (snd best <? snd y) eqn:E; [|reflexivity].
      apply ltb_not_leb in E. congruence.
    + assert (Hbest : best_at t i best).
      { split; [exact Hi|]. intros j y Hj.
        destruct (Hall (S j) y Hj) as [Hle Hlt]. split; [exact Hle|].
        intros Hji. apply Hlt. lia. }
      specialize (IH i Hbest).
      destruct (sort_desc t) as [|y s]; [discriminate|].
      injection IH as ->. simpl.
      destruct (Hall 0%nat x eq_refl) as [_ Hlt].
      rewrite Hlt by lia. reflexivity.
Qed.
End SortFacts.

Lemma slice_to_nil {A : Type} (stop : Z) : slice_to (@nil A) stop = [].
Proof. unfold slice_to. destruct (stop <? 0)%Z; apply take_nil. Qed.

Lemma slice_to_length {A : Type} (l : list A) (stop : Z) :
  (0 <= stop)%Z -> length (slice_to l stop) = Nat.min (Z.to_nat stop) (length l).
Proof.
  intros Hs. unfold slice_to.
  destruct (stop <? 0)%Z eqn:E; [lia|]. apply length_take.
Qed.

Section MatcherRuns.
Context `{Python}.

(** ** Ranking *)

Lemma rank_loop_run (kw sem : dict Skill float) (l : list Skill) (evs : list Event)
    (acc : list (Skill * float)) :
  (forall s, s ∈ l -> is_Some (dict_get kw s) /\ is_Some (dict_get sem s)) ->
  foldl (fun (acc : Run (list (Skill * float))) skill =>
           ranked ← acc;
           keyword_score ← dict_index kw skill;
           semantic_score ← dict_index sem skill;
           mret (ranked ++ [(skill, combine keyword_score semantic_score)]))
        (evs, inr acc) l
  = (evs, inr (acc ++ map (fun s => (s, score_of kw sem s)) l)).
Proof.
  revert acc. induction l as [|s l IH]; intros acc Hl; cbn [foldl map].
  - now rewrite app_nil_r.
  - destruct (Hl s) as [[a Ha] [b Hb]]; [left|].
    assert (Hstep :
      (ranked ← ((evs, inr acc) : Run (list (Skill * float)));
       keyword_score ← dict_index kw s;
       semantic_score ← dict_index sem s;
       mret (ranked ++ [(s, combine keyword_score semantic_score)]))
      = ((evs, inr (acc ++ [(s, score_of kw sem s)])) : Run (list (Skill * float)))).
    { unfold dict_index, score_of, dict_get_or, combine. rewrite Ha, Hb.
      unfold mbind, Run_bind, mret, Run_ret. simpl. now rewrite !app_nil_r. }
    rewrite Hstep, IH by (intros x Hx; apply Hl; now right).
    now rewrite <- app_assoc.
Qed.

Lemma rank_skills_run w _skills user_message top_n :
  dict_values _skills <> [] ->
  let skills := dict_values _skills in
  let kw := dict_comp skills (keyword_score (lower user_message)) in
  let sem := semantic_scores (complete w (SelectSkill user_message skills)) skills in
  rank_skills w _skills user_message top_n
  = (map Scored skills ++ [Requested (SelectSkill user_message skills)],
     inr (slice_to (sort_desc (map (fun s => (s, score_of kw sem s)) skills)) top_n)).
Proof.
  intros Hne. cbv zeta. unfold rank_skills, get_all_skills.
  destruct (dict_values _skills) as [|s0 rest] eqn:E; [congruence|].
  rewrite _match_by_keywords_run, Run_bind_value. cbn [fst snd].
  rewrite _match_by_semantic_run, Run_bind_value. cbn [fst snd].
  change (mret [] : Run (list (Skill * float))) with (([], inr []) : Run (list (Skill * float))).
  rewrite rank_loop_run.
  - rewrite Run_bind_value. cbn [fst snd]. now rewrite !app_nil_r.
  - intros s Hs. split.
    + rewrite dict_get_comp. destruct (decide (s ∈ s0 :: rest)); [eauto|contradiction].
    + destruct (semantic_scores_defined
                  (complete w (SelectSkill user_message (s0 :: rest))) _ s Hs) as [v Hv].
      eauto.
Qed.

(** X6. Whenever its two scorers return, [rank_skills] returns too:
    the two dictionaries hold a score for every skill, so no lookup
    fails. Its result is the first items of the list of all skills of
    the table, each with its combined score, in descending order of
    the scores; no threshold applies, so for a count that is not
    negative it returns that many items, or all of them when the table
    holds fewer. *)
Theorem rank_skills_lists_the_best_in_descending_order
    (w : World) (_skills : dict str Skill) (user_message : str) (top_n : Z)
    (kw sem : dict Skill float) :
  snd (_match_by_keywords user_message (dict_values _skills)) = inr kw ->
  snd (_match_by_semantic w user_message (dict_values _skills) []) = inr sem ->
  exists ranked,
    snd (rank_skills w _skills user_message top_n) = inr (slice_to ranked top_n)
    /\ ranked ≡ₚ map (fun s => (s, score_of kw sem s)) (dict_values _skills)
    /\ descending ranked
    /\ ((0 <= top_n)%Z ->
        length (slice_to ranked top_n)
        = Nat.min (Z.to_nat top_n) (length (dict_values _skills))).
Proof.
  intros Hkw Hsem.
  destruct (dict_values _skills) as [|s0 rest] eqn:E.
  { exists []. split.
    - unfold rank_skills, get_all_skills. rewrite E. now rewrite slice_to_nil.
    - split; [reflexivity|]. split.
      + intros i j a b _ Ha. destruct i; discriminate Ha.
      + intros _. rewrite slice_to_nil. simpl. now rewrite Nat.min_0_r. }
  rewrite <- E in *.
  assert (Hne : dict_values _skills <> []) by (rewrite E; discriminate).
  clear E s0 rest.
  set (skills := dict_values _skills) in *.
  rewrite _match_by_keywords_run in Hkw. rewrite _match_by_semantic_run in Hsem.
  cbn [snd] in Hkw, Hsem. injection Hkw as <-. injection Hsem as <-.
  set (kw := dict_comp skills (keyword_score (lower user_message))).
  set (sem := semantic_scores (complete w (SelectSkill user_message skills)) skills).
  exists (sort_desc (map (fun s => (s, score_of kw sem s)) skills)).
  split; [now rewrite rank_skills_run by exact Hne|].
  split; [apply sort_desc_Permutation|].
  split.
  { apply sort_desc_descending. intros [s v] Hy.
    apply list_elem_of_fmap in Hy as (s' & [= -> ->] & Hs).
    apply nonneg_not_nan, pipeline_scores_nonneg, Hs. }
  intros Htop. rewrite slice_to_length by exact Htop.
  now rewrite (Permutation_length (sort_desc_Permutation _)), length_map.
Qed.

(** X7. [rank_skills] and [match_skill] agree on the best skill when
    they get the same scores. Each of the two sends a request of its
    own to the model; when the request of [rank_skills] gets the reply
    that the request of [match_skill] got, the lexical scores being
    the same, and [match_skill] returns a skill and its score, on a
    table of distinct skills, then whatever [rank_skills] returns for
    the same message and a count of at least one starts with that
    skill and that score, also when another skill has the same
    score. *)
Theorem rank_skills_starts_with_the_matched_skill
    (w w' : World) (_skills : dict str Skill) (user_message : str)
    (history : list (str * str)) (top_n : Z) (skill : Skill) (confidence : float)
    (ranking : list (Skill * float)) :
  NoDup (dict_values _skills) ->
  (1 <= top_n)%Z ->
  complete w' (SelectSkill user_message (dict_values _skills))
  = complete w (SelectSkill user_message (dict_values _skills)) ->
  snd (match_skill w _skills user_message history) = inr (Some (skill, confidence)) ->
  snd (rank_skills w' _skills user_message top_n) = inr ranking ->
  exists rest, ranking = (skill, confidence) :: rest.
Proof.
  intros Hnd Htop Hreply Hres Hrank.
  set (skills := dict_values _skills) in *.
  assert (Hne : skills <> []).
  { intros E. unfold match_skill, get_all_skills in Hres. fold skills in Hres.
    rewrite E in Hres. discriminate. }
  rewrite match_skill_run in Hres by exact Hne. cbn [snd] in Hres. fold skills in Hres.
  rewrite rank_skills_run in Hrank by exact Hne. cbn [snd] in Hrank.
  fold skills in Hrank. rewrite Hreply in Hrank.
  set (kw := dict_comp skills (keyword_score (lower user_message))) in *.
  set (sem := semantic_scores (complete w (SelectSkill user_message skills)) skills) in *.
  destruct (best_match_items skills kw sem Hne) as (i & best & Hat & Hbs & Hbm).
  { intros s Hs. apply nonneg_not_nan, pipeline_scores_nonneg, Hs. }
  rewrite Hbm in Hres. unfold mret, Run_ret in Hres. cbn [snd] in Hres.
  destruct (score_of kw sem best <? 0.3); [discriminate|].
  injection Hres as Hb Hc. subst best confidence.
  rewrite combined_scores_comp, dict_comp_NoDup in Hat by exact Hnd.
  unfold dict_items in Hat. apply sort_desc_head in Hat.
  destruct (sort_desc _) as [|first sorted]; [discriminate|].
  injection Hat as ->. injection Hrank as <-.
  unfold slice_to. replace (top_n <? 0)%Z with false by (symmetry; apply Z.ltb_ge; lia).
  destruct (Z.to_nat top_n) as [|n] eqn:En; [lia|]. simpl. eauto.
Qed.
End MatcherRuns.

(** The theorem on the twins and a model that gives no text: both
    skills have the score [0.36], and a count of one keeps the first. *)
Lemma rank_skills_lists_the_best_in_descending_order_witness :
  exists ranked,
    snd (@rank_skills ascii_python silent_world twin_table twin_message 1)
    = inr (slice_to ranked 1)
    /\ ranked
       ≡ₚ map (fun s => (s, score_of [(twin_skill "alpha", 0.9); (twin_skill "beta", 0.9)]
                              [(twin_skill "alpha", 0); (twin_skill "beta", 0)] s))
             (dict_values twin_table)
    /\ descending ranked
    /\ ((0 <= 1)%Z ->
        length (slice_to ranked 1)
        = Nat.min (Z.to_nat 1) (length (dict_values twin_table))).
Proof.
  apply (@rank_skills_lists_the_best_in_descending_order ascii_python silent_world
           twin_table twin_message 1%Z).
  - vm_compute. reflexivity.
  - vm_compute. reflexivity.
Defined.

(** The theorem on the twins, two models that reply [1] to the request
    that picks a skill, and a count of three: [alpha] comes first in the
    ranking, with the score with which [match_skill] returns it. *)
Lemma rank_skills_starts_with_the_matched_skill_witness :
  exists rest,
    [(twin_skill "alpha", 0.90000000000000013); (twin_skill "beta", 0.42000000000000004)]
    = (twin_skill "alpha", 0.90000000000000013) :: rest.
Proof.
  apply (@rank_skills_starts_with_the_matched_skill ascii_python
           first_choice_world picking_world
           twin_table twin_message [] 3%Z).
  - apply (bool_decide_unpack _). vm_compute. reflexivity.
  - lia.
  - reflexivity.
  - vm_compute. reflexivity.
  - vm_compute. reflexivity.
Defined.

(** With another reply the two disagree: [match_skill] returns [alpha]
    when the model replies [1], and the ranking starts with [beta] when
    the model replies [2] to its request. *)
Example rank_skills_on_another_reply :
  snd (@match_skill ascii_python first_choice_world twin_table twin_message [])
  = inr (Some (twin_skill "alpha", 0.90000000000000013))
  /\ snd (@rank_skills ascii_python second_choice_world twin_table twin_message 3)
     = inr [(twin_skill "beta", 0.90000000000000013);
            (twin_skill "alpha", 0.42000000000000004)].
Proof. split; vm_compute; reflexivity. Qed.

Local Close Scope float_scope.

(* ================================================================== *)
(** * Facts: rounding to binary64 *)
(* ================================================================== *)

(** ** Rounding to binary64 *)

Lemma digits2_pos_bounds (p : positive) :
  (2 ^ (Z.pos (digits2_pos p) - 1) <= Z.pos p < 2 ^ Z.pos (digits2_pos p))%Z.
Proof.
  induction p as [p IH|p IH|]; cbn [digits2_pos].
  - rewrite Pos2Z.inj_succ. change (Z.pos p~1) with (2 * Z.pos p + 1)%Z.
    replace (Z.succ (Z.pos (digits2_pos p)) - 1)%Z with (Z.succ (Z.pos (digits2_pos p) - 1))%Z by lia.
    rewrite !Z.pow_succ_r by lia. revert IH.
    generalize (2 ^ (Z.pos (digits2_pos p) - 1))%Z, (2 ^ Z.pos (digits2_pos p))%Z.
    intros a b IH. lia.
  - rewrite Pos2Z.inj_succ. change (Z.pos p~0) with (2 * Z.pos p)%Z.
    replace (Z.succ (Z.pos (digits2_pos p)) - 1)%Z with (Z.succ (Z.pos (digits2_pos p) - 1))%Z by lia.
    rewrite !Z.pow_succ_r by lia. revert IH.
    generalize (2 ^ (Z.pos (digits2_pos p) - 1))%Z, (2 ^ Z.pos (digits2_pos p))%Z.
    intros a b IH. lia.
  - simpl. lia.
Qed.

Lemma digits2_pos_unique (p : positive) (d : Z) :
  (2 ^ (d - 1) <= Z.pos p < 2 ^ d)%Z -> Z.pos (digits2_pos p) = d.
Proof.
  intros [Hlo Hhi]. pose proof (digits2_pos_bounds p) as [Hlo' Hhi'].
  assert (Hd : (0 < d)%Z).
  { destruct (Z_lt_le_dec 0%Z d) as [|Hd]; [assumption|].
    assert (2 ^ d <= 1)%Z; [|lia].
    destruct (Z.eq_dec d 0%Z) as [->|]; [simpl; lia|].
    rewrite Z.pow_neg_r by lia. lia. }
  destruct (Z.lt_trichotomy (Z.pos (digits2_pos p)) d) as [Hlt|[Heq|Hgt]]; [|exact Heq|].
  - assert (2 ^ Z.pos (digits2_pos p) <= 2 ^ (d - 1))%Z by (apply Z.pow_le_mono_r; lia). lia.
  - assert (2 ^ d <= 2 ^ (Z.pos (digits2_pos p) - 1))%Z by (apply Z.pow_le_mono_r; lia). lia.
Qed.

Lemma shr_1_m (mrs : shr_record) :
  (0 <= shr_m mrs)%Z -> shr_m (shr_1 mrs) = (shr_m mrs / 2)%Z.
Proof.
  destruct mrs as [m r s]. cbn [shr_m shr_1]. intros Hm.
  destruct m as [|[p|p|]|p]; cbn [shr_m]; try lia.
  - reflexivity.
  - change (Z.pos p~1) with (2 * Z.pos p + 1)%Z. apply Z.div_unique with 1%Z; lia.
  - change (Z.pos p~0) with (2 * Z.pos p)%Z. apply Z.div_unique with 0%Z; lia.
  - reflexivity.
Qed.

Lemma iter_shr_1_m (p : positive) (mrs : shr_record) :
  (0 <= shr_m mrs)%Z ->
  shr_m (SpecFloat.iter_pos shr_1 p mrs) = (shr_m mrs / 2 ^ Z.pos p)%Z.
Proof.
  revert mrs. induction p as [p IH|p IH|]; intros mrs Hm; cbn [SpecFloat.iter_pos].
  - assert (H1 : (0 <= shr_m (shr_1 mrs))%Z).
    { rewrite shr_1_m by exact Hm. apply Z.div_pos; lia. }
    assert (H2 : (0 <= shr_m (SpecFloat.iter_pos shr_1 p (shr_1 mrs)))%Z).
    { rewrite IH by exact H1. apply Z.div_pos; [exact H1|]. apply Z.pow_pos_nonneg; lia. }
    rewrite IH by exact H2. rewrite IH by exact H1. rewrite shr_1_m by exact Hm.
    rewrite !Z.div_div by (try apply Z.pow_pos_nonneg; lia).
    f_equal. change (Z.pos p~1) with (2 * Z.pos p + 1)%Z.
    replace (2 * Z.pos p + 1)%Z with (1 + Z.pos p + Z.pos p)%Z by lia.
    rewrite !Z.pow_add_r by lia. simpl (2 ^ 1)%Z. lia.
  - assert (H2 : (0 <= shr_m (SpecFloat.iter_pos shr_1 p mrs))%Z).
    { rewrite IH by exact Hm. apply Z.div_pos; [exact Hm|]. apply Z.pow_pos_nonneg; lia. }
    rewrite IH by exact H2. rewrite IH by exact Hm.
    rewrite !Z.div_div by (try apply Z.pow_pos_nonneg; lia).
    f_equal. change (Z.pos p~0) with (2 * Z.pos p)%Z.
    replace (2 * Z.pos p)%Z with (Z.pos p + Z.pos p)%Z by lia.
    rewrite !Z.pow_add_r by lia. lia.
  - now rewrite shr_1_m.
Qed.

Lemma round_nearest_even_bounds (m : Z) (l : location) :
  (m <= round_nearest_even m l <= m + 1)%Z.
Proof.
  destruct l as [|[]]; cbn [round_nearest_even]; try lia.
  destruct (Z.even m); lia.
Qed.

Lemma fexp_normal (x : Z) : (-1074 <= x - 53)%Z -> fexp prec emax x = (x - 53)%Z.
Proof. intros Hx. unfold fexp, emin, prec, emax. lia. Qed.

(** The shift of a positive mantissa down to a given exponent. *)
Lemma shr_fexp_shift (m : positive) (e k : Z) (l : location) :
  (fexp prec emax (Zdigits2 (Z.pos m) + e) - e = k)%Z -> (0 <= k)%Z ->
  exists mrs,
    shr_fexp prec emax (Z.pos m) e l = (mrs, (e + k)%Z)
    /\ shr_m mrs = (Z.pos m / 2 ^ k)%Z.
Proof.
  intros Hk Hpos. unfold shr_fexp. rewrite Hk. unfold shr.
  assert (Hm : shr_m (shr_record_of_loc (Z.pos m) l) = Z.pos m).
  { destruct l as [|[]]; reflexivity. }
  destruct k as [|p|p]; [| |lia].
  - eexists. split; [now rewrite Z.add_0_r|]. rewrite Hm. simpl (2 ^ 0)%Z.
    now rewrite Z.div_1_r.
  - eexists. split; [reflexivity|]. rewrite iter_shr_1_m by (rewrite Hm; lia).
    now rewrite Hm.
Qed.

(** Rounding a mantissa of at least 53 digits, above the subnormal range:
    the result is infinite, or has a mantissa of exactly 53 digits, an
    exponent that is at least the one of the truncation, and at that
    exponent a mantissa that is at least the truncated one. *)
Lemma binary_round_aux_normal (M : positive) (E d : Z) :
  Z.pos (digits2_pos M) = d -> (53 <= d)%Z -> (-1074 <= E + d - 53)%Z ->
  binary_round_aux prec emax false (Z.pos M) E loc_Exact = S754_infinity false
  \/ exists m e,
       binary_round_aux prec emax false (Z.pos M) E loc_Exact = S754_finite false m e
       /\ (2 ^ 52 <= Z.pos m < 2 ^ 53)%Z
       /\ (E + d - 53 <= e <= 971)%Z
       /\ (e = (E + d - 53)%Z -> (Z.pos M / 2 ^ (d - 53) <= Z.pos m)%Z).
Proof.
  intros Hd Hd53 Hmin.
  pose proof (digits2_pos_bounds M) as HM. rewrite Hd in HM.
  set (k := (d - 53)%Z) in *.
  assert (Hk : (0 <= k)%Z) by lia.
  assert (Hpk : (0 < 2 ^ k)%Z) by (apply Z.pow_pos_nonneg; lia).
  assert (Hlo : (2 ^ (d - 1) = 2 ^ 52 * 2 ^ k)%Z).
  { rewrite <- Z.pow_add_r by lia. f_equal. lia. }
  assert (Hhi : (2 ^ d = 2 ^ 53 * 2 ^ k)%Z).
  { rewrite <- Z.pow_add_r by lia. f_equal. lia. }
  destruct (shr_fexp_shift M E k loc_Exact) as (mrs1 & Hs1 & Hm1); [|exact Hk|].
  { cbn [Zdigits2]. rewrite Hd, fexp_normal by lia. lia. }
  assert (Hb1 : (2 ^ 52 <= shr_m mrs1 < 2 ^ 53)%Z).
  { rewrite Hm1. split.
    - apply Z.div_le_lower_bound; lia.
    - apply Z.div_lt_upper_bound; lia. }
  unfold binary_round_aux. rewrite Hs1.
  pose proof (round_nearest_even_bounds (shr_m mrs1) (loc_of_shr_record mrs1)) as Hr.
  destruct (round_nearest_even (shr_m mrs1) (loc_of_shr_record mrs1)) as [|m2|m2] eqn:Em2;
    [lia| |lia].
  destruct (Z_lt_le_dec (Z.pos m2) (2 ^ 53)%Z) as [Hlt|Hge].
  - (* the rounded mantissa still has 53 digits *)
    assert (Hd2 : Z.pos (digits2_pos m2) = 53%Z).
    { apply digits2_pos_unique. change (53 - 1)%Z with 52%Z. lia. }
    destruct (shr_fexp_shift m2 (E + k)%Z 0%Z loc_Exact) as (mrs2 & Hs2 & Hm2); [|lia|].
    { cbn [Zdigits2]. rewrite Hd2, fexp_normal by lia. lia. }
    rewrite Hs2, Hm2. simpl (2 ^ 0)%Z. rewrite Z.div_1_r.
    destruct (E + k + 0 <=? emax - prec)%Z eqn:Ee; [|now left].
    right. exists m2, (E + k + 0)%Z. split; [reflexivity|].
    apply Z.leb_le in Ee. unfold emax, prec in Ee.
    split; [lia|]. split; [lia|]. intros _. fold k. rewrite <- Hm1. lia.
  - (* the rounding carried into a 54th digit *)
    assert (Hm2 : Z.pos m2 = (2 ^ 53)%Z) by lia.
    assert (Hd2 : Z.pos (digits2_pos m2) = 54%Z).
    { apply digits2_pos_unique. rewrite Hm2. change (54 - 1)%Z with 53%Z.
      split; [lia|]. apply Z.pow_lt_mono_r; lia. }
    destruct (shr_fexp_shift m2 (E + k)%Z 1%Z loc_Exact) as (mrs2 & Hs2 & Hm2'); [|lia|].
    { cbn [Zdigits2]. rewrite Hd2, fexp_normal by lia. lia. }
    rewrite Hs2, Hm2', Hm2.
    change (2 ^ 53 / 2 ^ 1)%Z with (Z.pos 4503599627370496).
    destruct (E + k + 1 <=? emax - prec)%Z eqn:Ee; [|now left].
    right. exists 4503599627370496%positive, (E + k + 1)%Z. split; [reflexivity|].
    apply Z.leb_le in Ee. unfold emax, prec in Ee.
    split; [split; [reflexivity|reflexivity]|]. split; [lia|]. lia.
Qed.

Lemma valid_binary_normal (m : positive) (e : Z) :
  (2 ^ 52 <= Z.pos m < 2 ^ 53)%Z -> (-1074 <= e <= 971)%Z ->
  valid_binary (S754_finite false m e) = true.
Proof.
  intros Hm He. unfold valid_binary, bounded, canonical_mantissa.
  rewrite (digits2_pos_unique m 53) by (change (53 - 1)%Z with 52%Z; exact Hm).
  rewrite fexp_normal by lia. apply andb_true_iff. split.
  - apply Z.eqb_eq. lia.
  - apply Z.leb_le. unfold emax, prec. lia.
Qed.

Lemma digits2_pos_iter_xO (p s : positive) :
  Z.pos (digits2_pos (Pos.iter xO p s)) = (Z.pos (digits2_pos p) + Z.pos s)%Z.
Proof.
  induction s as [|s IH] using Pos.peano_ind.
  - cbn [Pos.iter digits2_pos]. lia.
  - rewrite Pos.iter_succ. cbn [digits2_pos]. lia.
Qed.

(** The conversion of an integer from [3] on: infinite, or a normal
    number with the exponent of a number that is at least [3]. *)
Lemma float_of_int_from_3 (p : positive) :
  (3 <= Z.pos p)%Z ->
  Prim2SF (float_of_int (Z.pos p)) = S754_infinity false
  \/ exists m e,
       Prim2SF (float_of_int (Z.pos p)) = S754_finite false m e
       /\ (2 ^ 52 <= Z.pos m < 2 ^ 53)%Z
       /\ (e <= 971)%Z
       /\ ((-50 <= e)%Z \/ (e = (-51)%Z /\ (3 * 2 ^ 51 <= Z.pos m)%Z)).
Proof.
  intros Hp. pose proof (digits2_pos_bounds p) as Hd.
  set (d := Z.pos (digits2_pos p)) in *.
  assert (Hd2 : (2 <= d)%Z).
  { destruct (Z_lt_le_dec d 2%Z) as [Hlt|]; [|assumption].
    assert (2 ^ d <= 2 ^ 1)%Z by (apply Z.pow_le_mono_r; lia).
    change (2 ^ 1)%Z with 2%Z in *. lia. }
  destruct (Z.eq_dec d 2%Z) as [E2|Hne].
  { rewrite E2 in Hd. change (2 ^ 2)%Z with 4%Z in Hd.
    assert (p = 3%positive) as -> by lia.
    right. exists 6755399441055744%positive, (-51)%Z.
    split; [vm_compute; reflexivity|]. split; [split; vm_compute; congruence|].
    split; [lia|]. right. split; [reflexivity|]. vm_compute. congruence. }
  assert (Hround : binary_normalize prec emax (Z.pos p) 0 false = S754_infinity false
                   \/ exists m e,
                        binary_normalize prec emax (Z.pos p) 0 false = S754_finite false m e
                        /\ (2 ^ 52 <= Z.pos m < 2 ^ 53)%Z
                        /\ (d - 53 <= e <= 971)%Z).
  { cbn [binary_normalize]. unfold binary_round, shl_align.
    fold d. rewrite fexp_normal by lia.
    destruct (d + 0 - 53 - 0)%Z as [|s|s] eqn:Es.
    - destruct (binary_round_aux_normal p 0 d eq_refl) as [Hinf|(m & e & Hr & Hm & He & _)];
        [lia|lia|now left|].
      right. exists m, e. split; [exact Hr|]. split; [exact Hm|]. lia.
    - destruct (binary_round_aux_normal p 0 d eq_refl) as [Hinf|(m & e & Hr & Hm & He & _)];
        [lia|lia|now left|].
      right. exists m, e. split; [exact Hr|]. split; [exact Hm|]. lia.
    - destruct (binary_round_aux_normal (Pos.iter xO p s) (d + 0 - 53) 53)
        as [Hinf|(m & e & Hr & Hm & He & _)].
      + rewrite digits2_pos_iter_xO. fold d. lia.
      + lia.
      + lia.
      + now left.
      + right. exists m, e. split; [exact Hr|]. split; [exact Hm|]. lia. }
  unfold float_of_int.
  destruct Hround as [->|(m & e & -> & Hm & He)].
  - left. now rewrite Prim2SF_SF2Prim.
  - right. exists m, e. split; [|split; [exact Hm|split; [lia|left; lia]]].
    apply Prim2SF_SF2Prim, valid_binary_normal; [exact Hm|lia].
Qed.

(** The product of a normal number that is at least [3] by [0.2] exceeds
    [0.5]. *)
Lemma product_exceeds_half (mx : positive) (ex : Z) :
  (2 ^ 52 <= Z.pos mx < 2 ^ 53)%Z ->
  ((-50 <= ex)%Z \/ (ex = (-51)%Z /\ (3 * 2 ^ 51 <= Z.pos mx)%Z)) ->
  SFltb (Prim2SF 0.5%float)
        (SFmul prec emax (S754_finite false mx ex) (Prim2SF 0.2%float)) = true.
Proof.
  intros Hmx Hex. rewrite Prim2SF_0_2.
  change (Prim2SF 0.5%float) with (S754_finite false 4503599627370496 (-53)).
  cbn [SFmul xorb].
  set (M := (mx * 7205759403792794)%positive).
  assert (HM : Z.pos M = (Z.pos mx * 7205759403792794)%Z) by reflexivity.
  pose proof (digits2_pos_bounds M) as Hd.
  set (d := Z.pos (digits2_pos M)) in *.
  change (2 ^ 52)%Z with 4503599627370496%Z in Hmx.
  change (2 ^ 53)%Z with 9007199254740992%Z in Hmx.
  change (3 * 2 ^ 51)%Z with 6755399441055744%Z in Hex.
  assert (Hd105 : (105 <= d <= 106)%Z).
  { split.
    - destruct (Z_lt_le_dec d 105%Z) as [Hlt|]; [|assumption].
      assert (2 ^ d <= 2 ^ 104)%Z by (apply Z.pow_le_mono_r; lia).
      change (2 ^ 104)%Z with 20282409603651670423947251286016%Z in *. lia.
    - destruct (Z_lt_le_dec 106%Z d) as [Hlt|]; [|assumption].
      assert (2 ^ 106 <= 2 ^ (d - 1))%Z by (apply Z.pow_le_mono_r; lia).
      change (2 ^ 106)%Z with 81129638414606681695789005144064%Z in *. lia. }
  assert (Hd106 : (6755399441055744 <= Z.pos mx)%Z -> d = 106%Z).
  { intros H3. destruct (Z.eq_dec d 106%Z) as [|Hne]; [assumption|].
    assert (d = 105%Z) as E by lia. rewrite E in Hd.
    change (2 ^ 105)%Z with 40564819207303340847894502572032%Z in Hd. lia. }
  destruct (binary_round_aux_normal M (ex + -55) d eq_refl)
    as [->|(m & e & -> & Hm & He & Hlow)]; [lia|lia|reflexivity|].
  change (2 ^ 52)%Z with 4503599627370496%Z in Hm.
  unfold SFltb, SFcompare.
  destruct (Z.compare_spec (-53) e) as [Ee|Hlt|Hgt]; [|reflexivity|].
  - (* the exponent of one half: the mantissa decides *)
    subst e.
    change (PosDef.Pos.compare_cont Eq 4503599627370496 m)
      with (4503599627370496 ?= m)%positive.
    assert (Hgt : (4503599627370496 < Z.pos m)%Z); [|now rewrite (proj2 (Pos.compare_lt_iff _ _) Hgt)].
    assert (He' : (-53)%Z = (ex + -55 + d - 53)%Z).
    { destruct Hex as [Hex|[-> H3]]; [lia|]. rewrite (Hd106 H3). reflexivity. }
    specialize (Hlow He').
    eapply Z.lt_le_trans; [|exact Hlow].
    destruct Hex as [Hex|[-> H3]].
    + assert (d = 105%Z) as Ed by lia. rewrite Ed.
      change (2 ^ (105 - 53))%Z with 4503599627370496%Z.
      apply Z.lt_le_trans with 7205759403792794%Z; [lia|].
      apply Z.div_le_lower_bound; lia.
    + rewrite (Hd106 H3).
      change (2 ^ (106 - 53))%Z with 9007199254740992%Z.
      apply Z.lt_le_trans with 5404319552844595%Z; [lia|].
      apply Z.div_le_lower_bound; lia.
  - destruct Hex as [Hex|[-> H3]]; [lia|]. rewrite (Hd106 H3) in He. lia.
Qed.

(** From three matched keywords on, the keyword part of the lexical score
    is [0.5], however many keywords match. *)
Lemma keyword_part_saturates_from_3 (n : nat) :
  (3 <= n)%nat -> py_min (float_of_int (Z.of_nat n) * 0.2)%float 0.5%float = 0.5%float.
Proof.
  intros Hn. unfold py_min.
  replace (0.5 <? float_of_int (Z.of_nat n) * 0.2)%float with true; [reflexivity|].
  symmetry. rewrite FloatAxioms.ltb_spec, mul_spec.
  destruct (Z.of_nat n) as [|p|p] eqn:Ep; [lia| |lia].
  destruct (float_of_int_from_3 p) as [->|(m & e & -> & Hm & He & Hbig)]; [lia|reflexivity|].
  apply product_exceeds_half; assumption.
Qed.

(* ================================================================== *)
(** * More on the matcher: the table of the lexical score, and who wins *)
(* ================================================================== *)

Local Open Scope float_scope.

Section ScoreTables.
Context `{Python}.

Lemma keyword_score_table user_message_lower skill :
  keyword_score user_message_lower skill
  = lexical_table (contains (lower (name (metadata skill))) user_message_lower)
                  (matched_keywords user_message_lower skill).
Proof.
  rewrite keyword_score_formula. fold (matched_keywords user_message_lower skill).
  destruct (matched_keywords user_message_lower skill) as [|[|[|n]]].
  1-3: destruct (contains _ _); vm_compute; reflexivity.
  rewrite keyword_part_saturates_from_3 by lia.
  destruct (contains _ _); vm_compute; reflexivity.
Qed.

Lemma lexical_table_values named hits : In (lexical_table named hits) lexical_values.
Proof.
  destruct named, hits as [|[|[|n]]]; cbn; tauto.
Qed.

(** X1. Whenever [_match_by_keywords] returns, it has scored every
    skill it was given, once and in order, and the score of a skill is
    given by a table of eight entries, for every message and every
    number of matched keywords: [0], [0.2], [0.4] and from three
    matched keywords on [0.5] when the name of the skill is not in the
    message, and [0.5], [0.7], [0.9] and from three matched keywords on
    [1] when it is. The matched keywords are counted as the code counts
    them: those of the description and those of the full text that
    [get_full_content] returns, a word that is a keyword of both being
    counted twice. Every score is thus a number between [0] and [1]. *)
Theorem _match_by_keywords_scores_by_the_table
    (user_message : str) (skills : list Skill) (scores : dict Skill float) :
  snd (_match_by_keywords user_message skills) = inr scores ->
  events (_match_by_keywords user_message skills) = map Scored skills
  /\ forall skill,
       dict_get scores skill
       = if decide (skill ∈ skills)
         then Some
                match contains (lower (name (metadata skill))) (lower user_message),
                      matched_keywords (lower user_message) skill with
                | false, 0%nat => 0
                | false, 1%nat => 0.2
                | false, 2%nat => 0.4
                | false, _ => 0.5
                | true, 0%nat => 0.5
                | true, 1%nat => 0.7
                | true, 2%nat => 0.9
                | true, _ => 1
                end
         else None.
Proof.
  rewrite _match_by_keywords_run. cbn [snd]. intros [= <-].
  split; [reflexivity|].
  intros skill. rewrite dict_get_comp.
  destruct (decide (skill ∈ skills)); [|reflexivity]. f_equal.
  rewrite keyword_score_formula.
  fold (matched_keywords (lower user_message) skill).
  destruct (matched_keywords (lower user_message) skill) as [|[|[|n]]].
  - destruct (contains _ _); vm_compute; reflexivity.
  - destruct (contains _ _); vm_compute; reflexivity.
  - destruct (contains _ _); vm_compute; reflexivity.
  - rewrite keyword_part_saturates_from_3 by lia.
    destruct (contains _ _); vm_compute; reflexivity.
Qed.

(** ** The combined scores *)

Lemma pipeline_score w user_message skills s :
  s ∈ skills ->
  exists v,
    dict_get (semantic_scores (complete w (SelectSkill user_message skills)) skills) s
    = Some v
    /\ (v = 0 \/ v = 0.1 \/ v = 0.9)
    /\ score_of (dict_comp skills (keyword_score (lower user_message)))
                (semantic_scores (complete w (SelectSkill user_message skills)) skills) s
       = combine (lexical_table
                    (contains (lower (name (metadata s))) (lower user_message))
                    (matched_keywords (lower user_message) s)) v.
Proof.
  intros Hs.
  destruct (semantic_scores_defined (complete w (SelectSkill user_message skills)) skills s Hs)
    as [v Hv].
  exists v. split; [exact Hv|]. split; [exact (semantic_scores_value _ _ _ _ Hv)|].
  unfold score_of, dict_get_or, combine. rewrite Hv, dict_get_comp.
  destruct (decide (s ∈ skills)); [|contradiction].
  cbn [default]. now rewrite keyword_score_table.
Qed.

Lemma semantic_scores_chosen text k skills chosen :
  py_int (strip text) = Some k ->
  (1 <= k)%Z ->
  skills !! Z.to_nat (k - 1) = Some chosen ->
  semantic_scores (Reply (Some text)) skills
  = dict_comp skills (fun s => if decide (s = chosen) then 0.9 else 0.1).
Proof.
  intros Hint Hk Hchosen. unfold semantic_scores. rewrite Hint.
  apply lookup_lt_Some in Hchosen as Hlen.
  replace (k =? 0)%Z with false by (symmetry; apply Z.eqb_neq; lia).
  replace ((1 <=? k)%Z && (k <=? Z.of_nat (length skills))%Z) with true
    by (symmetry; apply andb_true_iff; lia).
  now rewrite Hchosen.
Qed.

Lemma semantic_scores_names_no_skill reply skills :
  names_no_skill reply skills ->
  semantic_scores reply skills = dict_comp skills (fun _ => 0).
Proof.
  intros [Hdeg|(text & -> & Hint)]; [now apply semantic_scores_degraded|].
  unfold semantic_scores. now rewrite Hint.
Qed.

Lemma chosen_beats_every_other a b :
  In a lexical_values -> In b lexical_values ->
  (combine a 0.1 <? combine b 0.9) = true
  /\ (combine b 0.9 <? 0.3) = false
  /\ (0.54 <=? combine b 0.9) = true.
Proof.
  intros Ha Hb.
  assert (Hall : forallb (fun a => forallb (fun b =>
                    (combine a 0.1 <? combine b 0.9)
                    && negb (combine b 0.9 <? 0.3)
                    && (0.54 <=? combine b 0.9)) lexical_values) lexical_values = true)
    by (vm_compute; reflexivity).
  rewrite forallb_forall in Hall. specialize (Hall a Ha).
  rewrite forallb_forall in Hall. specialize (Hall b Hb).
  apply andb_true_iff in Hall as [[H1 H2]%andb_true_iff H3].
  apply negb_true_iff in H2. now repeat split.
Qed.

Lemma combined_score_bounds a v :
  In a lexical_values -> v = 0 \/ v = 0.1 \/ v = 0.9 ->
  (combine a v <=? combine 1 0.9) = true /\ (combine a v <? 0.95) = true.
Proof.
  intros Ha Hv.
  assert (Hall : forallb (fun a => forallb (fun v =>
                    (combine a v <=? combine 1 0.9) && (combine a v <? 0.95))
                    [0; 0.1; 0.9]) lexical_values = true)
    by (vm_compute; reflexivity).
  rewrite forallb_forall in Hall. specialize (Hall a Ha).
  rewrite forallb_forall in Hall. apply andb_true_iff, Hall.
  destruct Hv as [->|[->| ->]]; cbn; tauto.
Qed.

Lemma lexical_score_alone_passes named hits :
  (combine (lexical_table named hits) 0 <? 0.3) = negb (named && (2 <=? hits)%nat).
Proof. destruct named, hits as [|[|[|n]]]; vm_compute; reflexivity. Qed.

(** X4. When the model replies with the ordinal of a skill of the
    table, [match_skill] returns that skill, whatever the lexical scores
    are: its combined score is at least [0.54], and no other skill
    reaches it. *)
Theorem match_skill_returns_the_skill_the_model_names
    (w : World) (_skills : dict str Skill) (user_message : str)
    (history : list (str * str)) (text : str) (k : Z) (chosen : Skill) :
  complete w (SelectSkill user_message (dict_values _skills)) = Reply (Some text) ->
  py_int (strip text) = Some k ->
  (1 <= k)%Z ->
  dict_values _skills !! Z.to_nat (k - 1) = Some chosen ->
  exists confidence,
    snd (match_skill w _skills user_message history) = inr (Some (chosen, confidence))
    /\ (0.54 <=? confidence) = true.
Proof.
  intros Hreply Hint Hk Hchosen.
  set (skills := dict_values _skills) in *.
  assert (Hin : chosen ∈ skills) by (eapply list_elem_of_lookup_2, Hchosen).
  assert (Hne : skills <> []) by (intros E; rewrite E in Hin; inversion Hin).
  destruct (match_skill_selects_maximum w _skills user_message history Hne)
    as (kw & sem & best & Hkw & Hsem & Hbest & Hmax & Hres).
  fold skills in Hkw, Hsem, Hbest, Hmax.
  rewrite _match_by_keywords_run in Hkw. rewrite _match_by_semantic_run in Hsem.
  cbn [snd] in Hkw, Hsem. injection Hkw as <-. injection Hsem as <-.
  rewrite Hreply, (semantic_scores_chosen _ _ _ _ Hint Hk Hchosen) in Hmax, Hres.
  assert (Hscore : forall s, s ∈ skills ->
            score_of (dict_comp skills (keyword_score (lower user_message)))
                     (dict_comp skills (fun s => if decide (s = chosen) then 0.9 else 0.1)) s
            = combine (lexical_table
                         (contains (lower (name (metadata s))) (lower user_message))
                         (matched_keywords (lower user_message) s))
                      (if decide (s = chosen) then 0.9 else 0.1)).
  { intros s Hs. unfold score_of, dict_get_or, combine. rewrite !dict_get_comp.
    destruct (decide (s ∈ skills)); [|contradiction].
    cbn [default]. now rewrite keyword_score_table. }
  assert (Hb : best = chosen).
  { destruct (decide (best = chosen)) as [E|Hneq]; [exact E|]. exfalso.
    specialize (Hmax chosen Hin). rewrite (Hscore best Hbest), (Hscore chosen Hin) in Hmax.
    destruct (decide (best = chosen)); [contradiction|].
    destruct (decide (chosen = chosen)); [|congruence].
    destruct (chosen_beats_every_other
                (lexical_table (contains (lower (name (metadata best))) (lower user_message))
                               (matched_keywords (lower user_message) best))
                (lexical_table (contains (lower (name (metadata chosen))) (lower user_message))
                               (matched_keywords (lower user_message) chosen)))
      as [Hlt _]; try apply lexical_table_values.
    apply ltb_not_leb in Hlt. congruence. }
  subst best. rewrite (Hscore chosen Hin) in Hres.
  destruct (decide (chosen = chosen)); [|congruence].
  destruct (chosen_beats_every_other 0
              (lexical_table (contains (lower (name (metadata chosen))) (lower user_message))
                             (matched_keywords (lower user_message) chosen)))
    as (_ & Hpass & Hhigh); [cbn; tauto|apply lexical_table_values|].
  rewrite Hpass in Hres. eexists. split; [exact Hres|exact Hhigh].
Qed.

(** X5. When the model names no skill - its request fails, or its
    reply is empty, is no integer, is no ordinal of the table, or is
    [0] - [match_skill] returns a skill exactly when the message holds
    the name of a skill of the table for which the count of matched
    keywords is at least two. This count, [matched_keywords], is the
    one of [_match_by_keywords]: the keywords of the description found
    in the message plus those of the full text found there, so that
    one word that is a keyword of both already counts as two. The
    skill returned is such a skill, and its confidence is its lexical
    score times [0.4]. A name with a count of one, or any count
    without the name, never match. *)
Theorem match_skill_without_the_model_needs_the_name_and_two_keywords
    (w : World) (_skills : dict str Skill) (user_message : str)
    (history : list (str * str)) :
  names_no_skill (complete w (SelectSkill user_message (dict_values _skills)))
                 (dict_values _skills) ->
  (forall skill confidence,
     snd (match_skill w _skills user_message history) = inr (Some (skill, confidence)) ->
     skill ∈ dict_values _skills
     /\ contains (lower (name (metadata skill))) (lower user_message) = true
     /\ (2 <= matched_keywords (lower user_message) skill)%nat
     /\ confidence = combine (keyword_score (lower user_message) skill) 0)
  /\ ((exists skill,
         skill ∈ dict_values _skills
         /\ contains (lower (name (metadata skill))) (lower user_message) = true
         /\ (2 <= matched_keywords (lower user_message) skill)%nat) ->
      exists skill confidence,
        snd (match_skill w _skills user_message history) = inr (Some (skill, confidence))).
Proof.
  intros Hno. set (skills := dict_values _skills) in *.
  destruct skills as [|s0 rest] eqn:E.
  { split.
    - intros skill confidence Hres. unfold match_skill, get_all_skills in Hres.
      fold skills in Hres. rewrite E in Hres. discriminate Hres.
    - intros (skill & Hin & _). inversion Hin. }
  rewrite <- E in *. assert (Hne : skills <> []) by (rewrite E; discriminate).
  clear E s0 rest.
  destruct (match_skill_selects_maximum w _skills user_message history Hne)
    as (kw & sem & best & Hkw & Hsem & Hbest & Hmax & Hres).
  fold skills in Hkw, Hsem, Hbest, Hmax.
  rewrite _match_by_keywords_run in Hkw. rewrite _match_by_semantic_run in Hsem.
  cbn [snd] in Hkw, Hsem. injection Hkw as <-. injection Hsem as <-.
  rewrite (semantic_scores_names_no_skill _ _ Hno) in Hmax, Hres.
  assert (Hscore : forall s, s ∈ skills ->
            score_of (dict_comp skills (keyword_score (lower user_message)))
                     (dict_comp skills (fun _ => 0)) s
            = combine (lexical_table
                         (contains (lower (name (metadata s))) (lower user_message))
                         (matched_keywords (lower user_message) s)) 0).
  { intros s Hs. unfold score_of, dict_get_or, combine. rewrite !dict_get_comp.
    destruct (decide (s ∈ skills)); [|contradiction].
    cbn [default]. now rewrite keyword_score_table. }
  rewrite (Hscore best Hbest), lexical_score_alone_passes in Hres.
  split.
  - intros skill confidence Hsome. rewrite Hres in Hsome.
    destruct (contains (lower (name (metadata best))) (lower user_message)) eqn:Enamed;
      [|discriminate Hsome].
    destruct (2 <=? matched_keywords (lower user_message) best)%nat eqn:Ehits;
      [|discriminate Hsome].
    cbn [andb negb] in Hsome. injection Hsome as <- <-.
    split; [exact Hbest|]. split; [exact Enamed|].
    split; [now apply Nat.leb_le|]. now rewrite keyword_score_table, Enamed.
  - intros (skill & Hin & Hnamed & Hhits).
    specialize (Hmax skill Hin). rewrite (Hscore skill Hin), (Hscore best Hbest) in Hmax.
    destruct (negb (contains (lower (name (metadata best))) (lower user_message)
                    && (2 <=? matched_keywords (lower user_message) best)%nat)) eqn:Ebest.
    + exfalso. rewrite <- lexical_score_alone_passes in Ebest.
      pose proof (leb_ltb_trans _ _ _ Hmax Ebest) as Hlow.
      rewrite lexical_score_alone_passes, Hnamed in Hlow.
      apply Nat.leb_le in Hhits. rewrite Hhits in Hlow. discriminate Hlow.
    + eauto.
Qed.

(** X3. Whenever the two scorers and [match_skill] return, the result
    is either a skill of the table together with its combined score,
    and then this score is a number from [0.3] up to the score of a
    skill that the model names and whose name and three matched
    keywords are in the message, which is below [0.95]; or it is no
    match, and then the combined score of every skill of the table is
    below [0.3]. *)
Theorem match_skill_returns_a_skill_at_or_above_threshold_or_none
    (w : World) (_skills : dict str Skill) (user_message : str)
    (history : list (str * str)) (kw sem : dict Skill float)
    (result : option (Skill * float)) :
  snd (_match_by_keywords user_message (dict_values _skills)) = inr kw ->
  snd (_match_by_semantic w user_message (dict_values _skills) history) = inr sem ->
  snd (match_skill w _skills user_message history) = inr result ->
  match result with
  | Some (skill, confidence) =>
      skill ∈ dict_values _skills
      /\ confidence = score_of kw sem skill
      /\ (0.3 <=? confidence) = true
      /\ (confidence <=? combine 1 0.9) = true
      /\ (confidence <? 0.95) = true
  | None =>
      forall s, s ∈ dict_values _skills -> (score_of kw sem s <? 0.3) = true
  end.
Proof.
  intros Hkw Hsem Hresult.
  destruct (dict_values _skills) as [|s0 rest] eqn:E.
  { unfold match_skill, get_all_skills in Hresult. rewrite E in Hresult.
    injection Hresult as <-. intros s Hs. inversion Hs. }
  rewrite <- E in *.
  destruct (match_skill_selects_maximum w _skills user_message history)
    as (kw' & sem' & best & Hkw' & Hsem' & Hbest & Hmax & Hres).
  { rewrite E. discriminate. }
  rewrite Hkw in Hkw'. rewrite Hsem in Hsem'.
  injection Hkw' as <-. injection Hsem' as <-.
  rewrite Hresult in Hres. injection Hres as ->.
  rewrite _match_by_keywords_run in Hkw. rewrite _match_by_semantic_run in Hsem.
  cbn [snd] in Hkw, Hsem. injection Hkw as <-. injection Hsem as <-.
  destruct (_ <? 0.3) eqn:Elt.
  - intros s Hs. eapply leb_ltb_trans; [apply Hmax, Hs|exact Elt].
  - split; [exact Hbest|]. split; [reflexivity|]. split.
    + apply ltb_false_leb; [|reflexivity|exact Elt].
      apply nonneg_not_nan, pipeline_scores_nonneg, Hbest.
    + destruct (pipeline_score w user_message (dict_values _skills) best Hbest)
        as (v & _ & Hv & ->).
      apply combined_score_bounds; [apply lexical_table_values|exact Hv].
Qed.
End ScoreTables.

(** The theorem on the twins and a model that replies [2]: [beta] is
    returned, though the message names [alpha] first. *)
Lemma match_skill_returns_the_skill_the_model_names_witness :
  exists confidence,
    snd (@match_skill ascii_python second_choice_world twin_table twin_message [])
    = inr (Some (twin_skill "beta", confidence))
    /\ (0.54 <=? confidence) = true.
Proof.
  apply (@match_skill_returns_the_skill_the_model_names ascii_python second_choice_world
           twin_table twin_message [] (py "2") 2%Z).
  - reflexivity.
  - vm_compute. reflexivity.
  - lia.
  - vm_compute. reflexivity.
Defined.

(** The theorem on the twins and a model that replies with the empty
    text. *)
Lemma match_skill_without_the_model_needs_the_name_and_two_keywords_witness :
  (forall skill confidence,
     snd (@match_skill ascii_python silent_world twin_table twin_message [])
     = inr (Some (skill, confidence)) ->
     skill ∈ dict_values twin_table
     /\ contains (@lower ascii_python (name (metadata skill)))
                 (@lower ascii_python twin_message) = true
     /\ (2 <= @matched_keywords ascii_python (@lower ascii_python twin_message) skill)%nat
     /\ confidence
        = combine (@keyword_score ascii_python (@lower ascii_python twin_message) skill) 0)
  /\ ((exists skill,
         skill ∈ dict_values twin_table
         /\ contains (@lower ascii_python (name (metadata skill)))
                     (@lower ascii_python twin_message) = true
         /\ (2 <= @matched_keywords ascii_python (@lower ascii_python twin_message) skill)%nat) ->
      exists skill confidence,
        snd (@match_skill ascii_python silent_world twin_table twin_message [])
        = inr (Some (skill, confidence))).
Proof.
  apply (@match_skill_without_the_model_needs_the_name_and_two_keywords ascii_python
           silent_world twin_table twin_message []).
  left. vm_compute. exact I.
Defined.

(** The theorem on the twins: both names and the keyword [math], which
    is a keyword of the description and of the full text of each, are in
    the message, and each skill gets the score [0.9]. *)
Lemma _match_by_keywords_scores_by_the_table_witness :
  events (@_match_by_keywords ascii_python twin_message (dict_values twin_table))
  = map Scored (dict_values twin_table)
  /\ forall skill,
       dict_get [(twin_skill "alpha", 0.9); (twin_skill "beta", 0.9)] skill
       = if decide (skill ∈ dict_values twin_table)
         then Some
                match contains (@lower ascii_python (name (metadata skill)))
                               (@lower ascii_python twin_message),
                      @matched_keywords ascii_python (@lower ascii_python twin_message) skill
                with
                | false, 0%nat => 0
                | false, 1%nat => 0.2
                | false, 2%nat => 0.4
                | false, _ => 0.5
                | true, 0%nat => 0.5
                | true, 1%nat => 0.7
                | true, 2%nat => 0.9
                | true, _ => 1
                end
         else None.
Proof.
  apply (@_match_by_keywords_scores_by_the_table ascii_python twin_message
           (dict_values twin_table)).
  vm_compute. reflexivity.
Defined.

(** The theorem on the twins and a model that gives no text: [alpha] is
    returned with the score [0.36]. *)
Lemma match_skill_returns_a_skill_at_or_above_threshold_or_none_witness :
  twin_skill "alpha" ∈ dict_values twin_table
  /\ 0.36000000000000004
     = score_of [(twin_skill "alpha", 0.9); (twin_skill "beta", 0.9)]
                [(twin_skill "alpha", 0); (twin_skill "beta", 0)] (twin_skill "alpha")
  /\ (0.3 <=? 0.36000000000000004) = true
  /\ (0.36000000000000004 <=? combine 1 0.9) = true
  /\ (0.36000000000000004 <? 0.95) = true.
Proof.
  apply (@match_skill_returns_a_skill_at_or_above_threshold_or_none ascii_python
           silent_world twin_table twin_message []
           [(twin_skill "alpha", 0.9); (twin_skill "beta", 0.9)]
           [(twin_skill "alpha", 0); (twin_skill "beta", 0)]
           (Some (twin_skill "alpha", 0.36000000000000004))).
  - vm_compute. reflexivity.
  - vm_compute. reflexivity.
  - vm_compute. reflexivity.
Defined.

Local Close Scope float_scope.

(* ================================================================== *)
(** * Reloading the table *)
(* ================================================================== *)

Section ReloadFacts.
Context `{Python}.

Lemma reload_events skills_dir :
  events (reload skills_dir) = Cleared :: events (_load_all skills_dir).
Proof.
  unfold reload, emit, events. rewrite Run_bind_value. reflexivity.
Qed.

Lemma reload_outcome skills_dir :
  snd (reload skills_dir) = snd (_load_all skills_dir).
Proof. unfold reload, emit. rewrite Run_bind_value. reflexivity. Qed.

(** C8, as the code has it. [reload] empties the table in place and then
    stores the skills it finds one by one, as the constructor does on
    an empty table: while it runs the table is first empty and then
    holds the new entries stored so far, and when it ends the table is
    the one a new loader builds from the tree, whatever it held
    before. *)
Theorem reload_clears_then_refills_in_place
    (_skills : dict str Skill) (skills_dir : option Node) :
  events (reload skills_dir) = Cleared :: events (_load_all skills_dir)
  /\ tables_during _skills (events (reload skills_dir))
     = [] :: tables_during [] (events (SkillLoader_init skills_dir))
  /\ table_after _skills (events (reload skills_dir))
     = table_after [] (events (SkillLoader_init skills_dir)).
Proof.
  rewrite reload_events. unfold SkillLoader_init. repeat split; reflexivity.
Qed.
End ReloadFacts.

(** C8, as the claim states it, fails: on a table that holds [calc],
    reloading a tree with two skills passes through the empty table,
    which is neither the table of before nor the table of after. *)
Lemma reload_is_not_a_swap :
  ~ swaps_atomically sample_table (events (@reload ascii_python (Some sample_tree))).
Proof.
  intros Hswap. destruct (Hswap []) as [E|E].
  - vm_compute. left.
  - discriminate E.
  - vm_compute in E. discriminate E.
Qed.

(* ================================================================== *)
(** * Facts: trees and paths *)
(* ================================================================== *)

(** ** Trees *)

Lemma Node_ind' (P : Node -> Prop) :
  (forall text, P (File text)) ->
  (forall entries, Forall (fun e => P (snd e)) entries -> P (Dir entries)) ->
  forall n, P n.
Proof.
  intros Hfile Hdir. fix IH 1. intros [text|entries]; [apply Hfile|].
  apply Hdir. induction entries as [|[nm c] entries IHentries]; constructor.
  - apply IH.
  - exact IHentries.
Qed.

Lemma well_formed_Dir entries :
  well_formed (Dir entries) = true ->
  NoDup (map fst entries)
  /\ forall e, e ∈ entries ->
       existsb (N.eqb 47) (fst e) = false /\ well_formed (snd e) = true.
Proof.
  simpl. intros [Hnd Hall]%andb_true_iff. split.
  - now apply bool_decide_eq_true in Hnd.
  - intros e He. rewrite forallb_forall in Hall.
    apply list_elem_of_In, Hall in He. apply andb_true_iff in He as [Hs Hw].
    split; [now apply negb_true_iff in Hs|exact Hw].
Qed.

Lemma child_Dir_iff entries nm c :
  NoDup (map fst entries) ->
  child (Dir entries) nm = Some c <-> (nm, c) ∈ entries.
Proof.
  intros Hnd. unfold child. simpl. split.
  - apply dict_get_elem_of.
  - now apply elem_of_dict_get.
Qed.

(** The walk lists exactly what [node_at] finds at the non-empty relative
    paths. *)
Lemma walk_spec n :
  well_formed n = true ->
  forall pre rel m,
    (rel, m) ∈ walk pre n
    <-> exists suffix, suffix <> [] /\ rel = pre ++ suffix /\ node_at n suffix = Some m.
Proof.
  induction n as [text|entries IH] using Node_ind'; intros Hwf pre rel m.
  - simpl. split.
    + intros Hin. inversion Hin.
    + intros ([|c s] & Hne & _ & Hat); [congruence|]. simpl in Hat. discriminate.
  - destruct (well_formed_Dir _ Hwf) as [Hnd Hall].
    rewrite Forall_forall in IH.
    cbn [walk]. rewrite list_elem_of_In, in_flat_map. split.
    + intros ([nm c] & He%list_elem_of_In & Hin%list_elem_of_In). cbn [fst snd] in Hin.
      apply elem_of_cons in Hin as [[= -> ->]|Hin].
      * exists [nm]. split; [discriminate|]. split; [reflexivity|].
        cbn [node_at]. now rewrite (proj2 (child_Dir_iff _ _ _ Hnd) He).
      * apply (IH _ He) in Hin; [|apply (Hall _ He)].
        destruct Hin as (s & Hs & -> & Hat).
        exists (nm :: s). split; [discriminate|].
        split; [now rewrite <- app_assoc|].
        cbn [node_at]. now rewrite (proj2 (child_Dir_iff _ _ _ Hnd) He).
    + intros ([|nm s] & Hne & -> & Hat); [congruence|].
      cbn [node_at] in Hat.
      destruct (child (Dir entries) nm) as [c|] eqn:Ec; [|discriminate].
      apply (child_Dir_iff _ _ _ Hnd) in Ec.
      exists (nm, c). split; [now apply list_elem_of_In|].
      apply list_elem_of_In. cbn [fst snd].
      destruct s as [|c' s'].
      * injection Hat as ->. left.
      * right. apply (IH _ Ec); [apply (Hall _ Ec)|].
        exists (c' :: s'). split; [discriminate|].
        split; [now rewrite <- app_assoc|exact Hat].
Qed.

(** The components of a path of the walk hold no separator. *)
Lemma node_at_names n :
  well_formed n = true ->
  forall rel m, node_at n rel = Some m ->
    Forall (fun c => existsb (N.eqb 47) c = false) rel.
Proof.
  induction n as [text|entries IH] using Node_ind'; intros Hwf rel m Hat.
  - destruct rel; [constructor|]. simpl in Hat. discriminate.
  - destruct rel as [|nm s]; [constructor|].
    destruct (well_formed_Dir _ Hwf) as [Hnd Hall].
    cbn [node_at] in Hat.
    destruct (child (Dir entries) nm) as [c|] eqn:Ec; [|discriminate].
    apply (child_Dir_iff _ _ _ Hnd) in Ec.
    rewrite Forall_forall in IH.
    constructor; [apply (Hall _ Ec)|].
    apply (IH _ Ec) with m; [apply (Hall _ Ec)|exact Hat].
Qed.

(** ** Paths as strings *)

Lemma no_slash_not_in (c : str) : existsb (N.eqb 47) c = false -> 47%N ∉ c.
Proof.
  intros Hc Hin. apply list_elem_of_In in Hin.
  assert (existsb (N.eqb 47) c = true); [|congruence].
  apply existsb_exists. exists 47%N. split; [exact Hin|apply N.eqb_refl].
Qed.

Lemma path_str_cons p ps :
  path_str (p :: ps) = p ++ concat (map (fun q => 47%N :: q) ps).
Proof.
  unfold path_str. revert p. induction ps as [|q ps IH]; intros p; simpl.
  - now rewrite app_nil_r.
  - rewrite IH. rewrite <- app_assoc. reflexivity.
Qed.

Lemma slash_free_prefix (p q r1 r2 : str) :
  47%N ∉ p -> 47%N ∉ q ->
  (r1 = [] \/ head r1 = Some 47%N) -> (r2 = [] \/ head r2 = Some 47%N) ->
  p ++ r1 = q ++ r2 -> p = q /\ r1 = r2.
Proof.
  revert q. induction p as [|a p IH]; intros [|b q] Hp Hq H1 H2 E; simpl in E.
  - now split.
  - subst r1. destruct H1 as [H1|H1]; [discriminate|]. simpl in H1.
    injection H1 as ->. exfalso. apply Hq. left.
  - subst r2. destruct H2 as [H2|H2]; [discriminate|]. simpl in H2.
    injection H2 as ->. exfalso. apply Hp. left.
  - injection E as -> E.
    apply not_elem_of_cons in Hp as [_ Hp]. apply not_elem_of_cons in Hq as [_ Hq].
    destruct (IH q Hp Hq H1 H2 E) as [-> ->]. now split.
Qed.

Lemma tail_starts_with_slash (ps : list str) :
  concat (map (fun q => 47%N :: q) ps) = []
  \/ head (concat (map (fun q => 47%N :: q) ps)) = Some 47%N.
Proof. destruct ps; [now left|now right]. Qed.

Lemma path_tail_inj (ps qs : list str) :
  Forall (fun c => 47%N ∉ c) ps -> Forall (fun c => 47%N ∉ c) qs ->
  concat (map (fun q => 47%N :: q) ps) = concat (map (fun q => 47%N :: q) qs) ->
  ps = qs.
Proof.
  revert qs. induction ps as [|p ps IH]; intros [|q qs] Hps Hqs E; simpl in E;
    try reflexivity; try discriminate.
  injection E as E.
  apply Forall_cons in Hps as [Hp Hps]. apply Forall_cons in Hqs as [Hq Hqs].
  destruct (slash_free_prefix p q _ _ Hp Hq (tail_starts_with_slash ps)
              (tail_starts_with_slash qs) E) as [-> E'].
  f_equal. now apply IH.
Qed.

(** Two relative paths with the same text are the same path. *)
Lemma path_str_inj (rel1 rel2 : list str) :
  rel1 <> [] -> rel2 <> [] ->
  Forall (fun c => existsb (N.eqb 47) c = false) rel1 ->
  Forall (fun c => existsb (N.eqb 47) c = false) rel2 ->
  path_str rel1 = path_str rel2 -> rel1 = rel2.
Proof.
  destruct rel1 as [|p ps]; [congruence|]. destruct rel2 as [|q qs]; [congruence|].
  intros _ _ H1 H2. rewrite !path_str_cons. intros E.
  apply Forall_cons in H1 as [Hp Hps]. apply Forall_cons in H2 as [Hq Hqs].
  destruct (slash_free_prefix p q _ _ (no_slash_not_in _ Hp) (no_slash_not_in _ Hq)
              (tail_starts_with_slash ps) (tail_starts_with_slash qs) E) as [-> E'].
  f_equal. apply path_tail_inj; [| |exact E'].
  - eapply Forall_impl; [exact Hps|]. intros c. apply no_slash_not_in.
  - eapply Forall_impl; [exact Hqs|]. intros c. apply no_slash_not_in.
Qed.

(** ** Filling the dictionary of references *)

Lemma load_references_fold (l : list (list str * Node)) (evs : list Event)
    (refs : gmap str str) :
  (forall x, x ∈ l -> exists text, snd x = File (Some text)) ->
  foldl (fun (acc : Run (gmap str str)) ref_file =>
           refs ← acc;
           text ← read_text (snd ref_file);
           mret (<[path_str (fst ref_file) := text]> refs))
        (evs, inr refs) l
  = (evs, inr (foldl store_reference refs l)).
Proof.
  revert refs. induction l as [|x l IH]; intros refs Hl; [reflexivity|].
  cbn [foldl]. destruct (Hl x) as [text Hx]; [left|].
  assert (Hstep :
    (refs0 ← ((evs, inr refs) : Run (gmap str str));
     text ← read_text (snd x);
     mret (<[path_str (fst x) := text]> refs0))
    = ((evs, inr (store_reference refs x)) : Run (gmap str str))).
  { unfold store_reference. rewrite Hx.
    unfold mbind, Run_bind, mret, Run_ret. simpl. now rewrite !app_nil_r. }
  rewrite Hstep. apply IH. intros y Hy. apply Hl. now right.
Qed.

Lemma store_reference_lookup (l : list (list str * Node)) (refs : gmap str str)
    (key text : str) :
  (forall x, x ∈ l -> exists t, snd x = File (Some t)) ->
  (forall x y, x ∈ l -> y ∈ l -> path_str (fst x) = path_str (fst y) -> snd x = snd y) ->
  foldl store_reference refs l !! key = Some text
  <-> (exists x, x ∈ l /\ path_str (fst x) = key /\ snd x = File (Some text))
      \/ ((forall x, x ∈ l -> path_str (fst x) <> key) /\ refs !! key = Some text).
Proof.
  revert refs. induction l as [|a l IH]; intros refs Hread Hfun.
  - simpl. split.
    + intros Hk. right. split; [|exact Hk]. intros x Hx. inversion Hx.
    + intros [(x & Hx & _)|[_ Hk]]; [inversion Hx|exact Hk].
  - cbn [foldl]. rewrite IH.
    2: { intros x Hx. apply Hread. now right. }
    2: { intros x y Hx Hy. apply Hfun; now right. }
    destruct (Hread a) as [t Ha]; [left|].
    unfold store_reference. rewrite Ha. split.
    + intros [(x & Hx & Hk & Hv)|[Hno Hk]].
      * left. exists x. split; [now right|]. now split.
      * destruct (decide (path_str (fst a) = key)) as [E|E].
        -- rewrite E, lookup_insert_eq in Hk. injection Hk as <-.
           left. exists a. split; [left|]. now split.
        -- rewrite lookup_insert_ne in Hk by exact E.
           right. split; [|exact Hk].
           intros x Hx. apply elem_of_cons in Hx as [->|Hx]; [exact E|now apply Hno].
    + intros [(x & Hx & Hk & Hv)|[Hno Hk]].
      * destruct (decide (Exists (fun y => path_str (fst y) = key) l)) as [Hex|Hex].
        -- apply Exists_exists in Hex as (y & Hy & Hyk).
           left. exists y. split; [exact Hy|]. split; [exact Hyk|].
           rewrite <- Hv. apply Hfun; [now right|exact Hx|congruence].
        -- apply elem_of_cons in Hx as [->|Hx].
           ++ right. split.
              ** intros y Hy Hyk. apply Hex, Exists_exists. eauto.
              ** rewrite Hk, lookup_insert_eq. congruence.
           ++ left. exists x. now split.
      * right. split; [intros x Hx; apply Hno; now right|].
        rewrite lookup_insert_ne; [exact Hk|]. apply Hno. left.
Qed.

(* ================================================================== *)
(** * Reference documents *)
(* ================================================================== *)

Lemma elem_of_glob_md references_dir rel n :
  well_formed references_dir = true ->
  (rel, n) ∈ glob_md references_dir
  <-> rel <> [] /\ endswith (py ".md") (basename rel) = true
      /\ node_at references_dir rel = Some n.
Proof.
  intros Hwf. unfold glob_md. rewrite list_elem_of_In, filter_In, <- list_elem_of_In.
  rewrite (walk_spec _ Hwf). cbn [fst]. split.
  - intros [(s & Hs & -> & Hat) Hmd]. now repeat split.
  - intros (Hne & Hmd & Hat). split; [|exact Hmd]. exists rel. now repeat split.
Qed.

(** C7, as the code has it. For a skill directory with a [references]
    directory in which every path that the pattern [**/*.md] matches is
    a file that can be read, [_load_references] returns a dictionary
    that holds, for every document at any depth below [references], the
    text of the document under its path relative to [references], and
    nothing else. *)
Theorem load_references_stores_every_document
    (skill_dir references_dir : Node) :
  child skill_dir (py "references") = Some references_dir ->
  well_formed references_dir = true ->
  forallb (fun p => readable (snd p)) (glob_md references_dir) = true ->
  exists refs,
    _load_references skill_dir = mret refs
    /\ forall key text,
         refs !! key = Some text
         <-> exists rel,
               key = path_str rel
               /\ rel <> []
               /\ endswith (py ".md") (basename rel) = true
               /\ node_at references_dir rel = Some (File (Some text)).
Proof.
  intros Hchild Hwf Hread.
  assert (Hread' : forall x, x ∈ glob_md references_dir ->
                             exists text, snd x = File (Some text)).
  { intros x Hx. rewrite forallb_forall in Hread.
    apply list_elem_of_In, Hread in Hx.
    destruct (snd x) as [[text|]|]; try discriminate. eauto. }
  exists (foldl store_reference ∅ (glob_md references_dir)). split.
  - unfold _load_references. rewrite Hchild.
    exact (load_references_fold _ [] ∅ Hread').
  - intros key text. rewrite store_reference_lookup; [|exact Hread'|].
    + split.
      * intros [([rel n] & Hx & Hk & Hv)|[_ Hk]]; [|now rewrite lookup_empty in Hk].
        cbn [fst snd] in Hk, Hv. subst n.
        apply (elem_of_glob_md _ _ _ Hwf) in Hx as (Hne & Hmd & Hat).
        exists rel. now repeat split.
      * intros (rel & -> & Hne & Hmd & Hat). left.
        exists (rel, File (Some text)). split; [|now split].
        apply (elem_of_glob_md _ _ _ Hwf). now repeat split.
    + intros [rel1 n1] [rel2 n2] H1 H2 E. cbn [fst snd] in *.
      apply (elem_of_glob_md _ _ _ Hwf) in H1 as (Hne1 & _ & Hat1).
      apply (elem_of_glob_md _ _ _ Hwf) in H2 as (Hne2 & _ & Hat2).
      assert (rel1 = rel2) as ->.
      { apply path_str_inj; try assumption.
        - eapply node_at_names; eassumption.
        - eapply node_at_names; eassumption. }
      congruence.
Qed.

(** The theorem on the sample directory. *)
Lemma load_references_stores_every_document_witness :
  exists refs,
    _load_references notes_dir = mret refs
    /\ forall key text,
         refs !! key = Some text
         <-> exists rel,
               key = path_str rel
               /\ rel <> []
               /\ endswith (py ".md") (basename rel) = true
               /\ node_at sample_references rel = Some (File (Some text)).
Proof.
  apply (load_references_stores_every_document notes_dir sample_references);
    vm_compute; reflexivity.
Defined.

(** The documents of the sample: the two Markdown files are stored under
    their relative paths, the other file is not. *)
Example load_references_sample :
  exists refs,
    _load_references notes_dir = mret refs
    /\ refs !! py "howto.md" = Some (py "How to.")
    /\ refs !! py "deep/more.md" = Some (py "More.")
    /\ refs !! py "data.json" = None.
Proof. eexists. split; [reflexivity|]. repeat split; vm_compute; reflexivity. Qed.

(** A directory whose name ends in [.md] is matched too, and reading it
    raises: nothing is returned. *)
Example load_references_directory_named_md :
  snd (_load_references
         (Dir [ (py "references",
                 Dir [ (py "a.md", File (Some (py "A")));
                       (py "old.md", Dir []) ]) ]))
  = inl (py "[Errno 21] Is a directory").
Proof. vm_compute. reflexivity. Qed.

(** C7, as the claim states it, fails: below this [references] directory
    there is one document, [a.md], and a directory named [old.md]. The
    pattern matches both, reading the directory raises, and the call
    returns no dictionary at all: the document [a.md] is not stored. *)
Lemma load_references_stores_nothing_beside_an_unreadable_match :
  child stale_references_dir (py "references")
  = Some (Dir [ (py "a.md", File (Some (py "A"))); (py "old.md", Dir []) ])
  /\ well_formed (Dir [ (py "a.md", File (Some (py "A"))); (py "old.md", Dir []) ]) = true
  /\ node_at (Dir [ (py "a.md", File (Some (py "A"))); (py "old.md", Dir []) ]) [py "a.md"]
     = Some (File (Some (py "A")))
  /\ _load_references stale_references_dir = ([], inl (py "[Errno 21] Is a directory"))
  /\ ~ stores_every_document stale_references_dir
         (Dir [ (py "a.md", File (Some (py "A"))); (py "old.md", Dir []) ]).
Proof.
  split; [vm_compute; reflexivity|].
  split; [vm_compute; reflexivity|].
  split; [vm_compute; reflexivity|].
  split; [vm_compute; reflexivity|].
  intros (refs & Hrun & _).
  assert (Hraise : snd (_load_references stale_references_dir)
                   = inl (py "[Errno 21] Is a directory")) by (vm_compute; reflexivity).
  rewrite Hrun in Hraise. discriminate Hraise.
Qed.

(* ================================================================== *)
(** * The results of the handlers *)
(* ================================================================== *)

Section ExecuteFacts.
Context `{Python}.

(** The generic skill never raises: its result is a success that carries
    the reply of the model as it is, or a failure. *)
Lemma dynamic_execute_result w self context :
  exists r,
    snd (dynamic_execute w self context) = inr r
    /\ ((success r = true /\ error r = None
         /\ complete w (ExecuteSkill self context) = Reply (Some (content r)))
        \/ (success r = false /\ content r = [] /\ exists e, error r = Some e)).
Proof.
  unfold dynamic_execute, try_except, emit.
  rewrite Run_bind_value. cbn [fst snd].
  destruct (complete w (ExecuteSkill self context)) as [e|[text|]]; cbn.
  - eexists. split; [reflexivity|]. right. repeat split. eauto.
  - eexists. split; [reflexivity|]. left. now repeat split.
  - eexists. split; [reflexivity|]. right. repeat split. eauto.
Qed.

(** The calculator never raises: its result is a success whose content
    shows the expression and its value, or a failure. *)
Lemma calculator_execute_result context :
  exists r,
    snd (calculator_execute context) = inr r
    /\ ((success r = true /\ error r = None /\ content r <> [])
        \/ (success r = false /\ content r = [] /\ exists e, error r = Some e)).
Proof.
  unfold calculator_execute, try_except.
  set (expression := _extract_expression (strip (user_message context))).
  destruct (truthy expression) eqn:Et; cbn [negb].
  2: { eexists. split; [reflexivity|]. right. repeat split. eauto. }
  destruct (_is_valid_expression expression); cbn [negb].
  2: { eexists. split; [reflexivity|]. right. repeat split. eauto. }
  destruct (py_eval expression) as [e|result].
  { eexists. split; [reflexivity|]. right. repeat split. eauto. }
  destruct (format_result result) as [l [e|result_str]] eqn:Ef.
  - rewrite Run_bind_raise. cbn.
    eexists. split; [reflexivity|]. right. repeat split. eauto.
  - rewrite Run_bind_value. cbn.
    eexists. split; [reflexivity|]. left. repeat split. cbn.
    destruct expression; [discriminate|discriminate].
Qed.

(** C9, as the code has it. The generic skill and the calculator return
    a result and never raise. A success has no error; its content is
    not empty for the calculator, and is the reply of the model, empty
    or not, for the generic skill. A failure has an empty content and an
    error. *)
Theorem execute_result_success_or_error
    (w : World) (skill : Skill) (context : SkillContext) :
  skill_class skill = CalculatorSkill \/ skill_class skill = DynamicPythonSkill ->
  exists r,
    snd (execute w skill context) = inr r
    /\ ((success r = true
         /\ error r = None
         /\ (skill_class skill = CalculatorSkill -> content r <> [])
         /\ (skill_class skill = DynamicPythonSkill ->
             complete w (ExecuteSkill skill context) = Reply (Some (content r))))
        \/ (success r = false /\ content r = [] /\ exists e, error r = Some e)).
Proof.
  unfold execute. intros [Hc|Hc]; rewrite Hc.
  - destruct (calculator_execute_result context) as (r & Hr & [(Hs & He & Hn)|Hf]).
    + exists r. split; [exact Hr|]. left.
      split; [exact Hs|]. split; [exact He|]. split; [intros _; exact Hn|].
      intros Hd. discriminate Hd.
    + exists r. split; [exact Hr|]. now right.
  - destruct (dynamic_execute_result w skill context) as (r & Hr & [(Hs & He & Hn)|Hf]).
    + exists r. split; [exact Hr|]. left.
      split; [exact Hs|]. split; [exact He|]. split; [|intros _; exact Hn].
      intros Hd. discriminate Hd.
    + exists r. split; [exact Hr|]. now right.
Qed.
End ExecuteFacts.

(** The theorem on the calculator and the message [what is 2+2]. *)
Lemma execute_result_success_or_error_witness :
  exists r,
    snd (@execute calculator_python silent_world calculator_skill
           (context_of [(py "user", py "what is 2+2")])) = inr r
    /\ ((success r = true
         /\ error r = None
         /\ (skill_class calculator_skill = CalculatorSkill -> content r <> [])
         /\ (skill_class calculator_skill = DynamicPythonSkill ->
             complete silent_world
               (ExecuteSkill calculator_skill
                  (context_of [(py "user", py "what is 2+2")]))
             = Reply (Some (content r))))
        \/ (success r = false /\ content r = [] /\ exists e, error r = Some e)).
Proof.
  apply (@execute_result_success_or_error calculator_python).
  left. reflexivity.
Defined.

(** C9, as the claim states it, fails: when the model replies with the
    empty text, the generic skill returns a success whose content is
    empty. *)
Lemma empty_reply_is_a_success_without_content :
  exists r,
    snd (@execute ascii_python silent_world calc_skill
           (context_of [(py "user", py "math")])) = inr r
    /\ success r = true /\ content r = [] /\ error r = None
    /\ ~ content_xor_error r.
Proof.
  eexists. split; [reflexivity|]. repeat split.
  intros [(_ & Hc & _)|(Hs & _)]; [now apply Hc|discriminate Hs].
Qed.

(* ================================================================== *)
(** * The chat endpoint without matching *)
(* ================================================================== *)

(** ** White space *)

Lemma lstrip_spaces (s : str) : Forall (fun c => isspace c = true) s -> lstrip s = [].
Proof. induction 1 as [|c s Hc _ IH]; simpl; [reflexivity|]. now rewrite Hc. Qed.

Lemma lstrip_nil_spaces (s : str) : lstrip s = [] -> Forall (fun c => isspace c = true) s.
Proof.
  induction s as [|c s IH]; simpl; [constructor|].
  destruct (isspace c) eqn:Ec; [|discriminate]. intros Hs. constructor; auto.
Qed.

Lemma lstrip_head (s : str) :
  lstrip s = [] \/ exists c t, lstrip s = c :: t /\ isspace c = false.
Proof.
  induction s as [|c s IH]; simpl; [now left|].
  destruct (isspace c) eqn:Ec; [exact IH|]. right. eauto.
Qed.

(** [s.strip()] is empty exactly when [s] is empty or all white space. *)
Lemma strip_empty_iff (s : str) :
  truthy (strip s) = false <-> Forall (fun c => isspace c = true) s.
Proof.
  unfold strip, rstrip. split.
  - intros Ht.
    assert (Hs : rev (lstrip (rev (lstrip s))) = []) by (now destruct (rev _)).
    apply (f_equal (@rev N)) in Hs. rewrite rev_involutive in Hs. simpl in Hs.
    apply lstrip_nil_spaces in Hs.
    destruct (lstrip_head s) as [E|(c & t & E & Hc)]; [now apply lstrip_nil_spaces|].
    rewrite E in Hs. exfalso.
    rewrite Forall_forall in Hs. specialize (Hs c).
    rewrite Hs in Hc; [discriminate|].
    apply list_elem_of_In, in_rev. rewrite rev_involutive. now left.
  - intros Hs. now rewrite (lstrip_spaces _ Hs).
Qed.

Section ChatFacts.
Context `{Python}.

Lemma for_each_forward_chunk (chunks : list (option str)) :
  for_each forward_chunk chunks
  = (map (fun text => Yielded (Chunk text)) (forwarded chunks), inr tt).
Proof.
  induction chunks as [|delta chunks IH]; [reflexivity|].
  cbn [for_each]. destruct delta as [text|]; cbn [forward_chunk].
  - destruct (truthy text) eqn:Et.
    + replace (forwarded (Some text :: chunks)) with (text :: forwarded chunks)
        by (unfold forwarded; simpl; now rewrite Et).
      unfold emit. rewrite Run_bind_value, IH. reflexivity.
    + replace (forwarded (Some text :: chunks)) with (forwarded chunks)
        by (unfold forwarded; simpl; now rewrite Et).
      unfold mret, Run_ret. rewrite Run_bind_value, IH. reflexivity.
  - change (forwarded (None :: chunks)) with (forwarded chunks).
    unfold mret, Run_ret. rewrite Run_bind_value, IH. reflexivity.
Qed.

Lemma generic_chat_run w messages :
  generic_chat w messages
  = (Yielded Thinking :: Requested (ChatStream messages)
       :: map (fun text => Yielded (Chunk text))
              (forwarded (fst (chat_stream w messages))),
     match snd (chat_stream w messages) with
     | Some e => inl e
     | None => inr tt
     end).
Proof.
  unfold generic_chat, emit. rewrite !Run_bind_value. cbn [fst snd].
  rewrite for_each_forward_chunk, Run_bind_value. cbn [fst snd].
  destruct (snd (chat_stream w messages)); cbn; now rewrite app_nil_r.
Qed.

Lemma fragments_of_app evs1 evs2 :
  fragments_of (evs1 ++ evs2) = fragments_of evs1 ++ fragments_of evs2.
Proof. unfold fragments_of. apply omap_app. Qed.

Lemma fragments_of_chunks texts :
  fragments_of (map (fun text => Yielded (Chunk text)) texts) = map Chunk texts.
Proof. induction texts as [|t texts IH]; [reflexivity|]. cbn. now f_equal. Qed.

(** C6. When skill routing is switched off, or the last message is empty
    or all white space, [generate] does not call the matcher: it yields
    the thinking fragment, asks the model for the chat stream and
    forwards its texts, and nothing else - no analyzing fragment, no
    skill scored, no request to pick a skill. The run ends with the
    stream, by the exception of the stream when there is one. *)
Theorem generate_without_matching
    (w : World) (_skills : dict str Skill) (messages : list (str * str))
    (enable_skills : bool) :
  enable_skills = false
  \/ Forall (fun c => isspace c = true) (last_content messages) ->
  events (generate w _skills messages enable_skills)
  = Yielded Thinking :: Requested (ChatStream messages)
      :: map (fun text => Yielded (Chunk text))
             (forwarded (fst (chat_stream w messages)))
  /\ fragments (generate w _skills messages enable_skills)
     = Thinking :: map Chunk (forwarded (fst (chat_stream w messages)))
  /\ snd (generate w _skills messages enable_skills)
     = match snd (chat_stream w messages) with
       | Some e => inl e
       | None => inr messages
       end.
Proof.
  intros Hskip.
  assert (Hgate : enable_skills && truthy (strip (last_content messages)) = false).
  { destruct Hskip as [->|Hs]; [reflexivity|].
    apply strip_empty_iff in Hs. rewrite Hs. apply andb_false_r. }
  unfold fragments, events, generate. rewrite Hgate, generic_chat_run.
  assert (Hev : forall (r : str + unit),
            fst (mbind (fun _ : unit => (mret messages : Run (list (str * str))))
                   ((Yielded Thinking :: Requested (ChatStream messages)
                     :: map (fun text => Yielded (Chunk text))
                            (forwarded (fst (chat_stream w messages))), r) : Run unit))
            = Yielded Thinking :: Requested (ChatStream messages)
                :: map (fun text => Yielded (Chunk text))
                       (forwarded (fst (chat_stream w messages)))).
  { intros [e|[]]; [reflexivity|]. rewrite Run_bind_value. cbn. now rewrite app_nil_r. }
  rewrite Hev. split; [reflexivity|]. split.
  - cbn. f_equal. apply fragments_of_chunks.
  - destruct (snd (chat_stream w messages)); [reflexivity|].
    rewrite Run_bind_value. reflexivity.
Qed.

(** Otherwise the run starts with the analyzing fragment. *)
Lemma generate_with_matching_starts_analyzing w _skills messages :
  truthy (strip (last_content messages)) = true ->
  exists evs, events (generate w _skills messages true) = Yielded Analyzing :: evs.
Proof.
  intros Hgate. unfold events, generate. rewrite Hgate. cbn [andb].
  unfold emit. rewrite Run_bind_value. cbn [fst]. eauto.
Qed.
End ChatFacts.

(** The theorem on a message made of a space, an ideographic space and a
    line break, with routing switched on. *)
Lemma generate_without_matching_witness :
  events (@generate ascii_python silent_world boom_table
            [(py "user", [32%N; 12288%N; 10%N])] true)
  = Yielded Thinking :: Requested (ChatStream [(py "user", [32%N; 12288%N; 10%N])])
      :: map (fun text => Yielded (Chunk text))
             (forwarded (fst (chat_stream silent_world
                                [(py "user", [32%N; 12288%N; 10%N])])))
  /\ fragments (@generate ascii_python silent_world boom_table
                  [(py "user", [32%N; 12288%N; 10%N])] true)
     = Thinking :: map Chunk
         (forwarded (fst (chat_stream silent_world
                            [(py "user", [32%N; 12288%N; 10%N])])))
  /\ snd (@generate ascii_python silent_world boom_table
            [(py "user", [32%N; 12288%N; 10%N])] true)
     = match snd (chat_stream silent_world [(py "user", [32%N; 12288%N; 10%N])]) with
       | Some e => inl e
       | None => inr [(py "user", [32%N; 12288%N; 10%N])]
       end.
Proof.
  apply (@generate_without_matching ascii_python).
  right. repeat constructor.
Defined.

(* ================================================================== *)
(** * The chat endpoint with a matched skill *)
(* ================================================================== *)

Section OrchestratorFacts.
Context `{Python}.

Lemma fragments_of_scored skills : fragments_of (map Scored skills) = [].
Proof. induction skills as [|s skills IH]; [reflexivity|exact IH]. Qed.

(** The matcher yields no fragment. *)
Lemma match_skill_no_fragments w _skills user_message history :
  fragments_of (fst (match_skill w _skills user_message history)) = [].
Proof.
  destruct (dict_values _skills) as [|s0 rest] eqn:E.
  - unfold match_skill, get_all_skills. now rewrite E.
  - rewrite match_skill_run by (rewrite E; discriminate). cbn [fst].
    rewrite best_match_raises_nothing, app_nil_r, fragments_of_app, fragments_of_scored.
    reflexivity.
Qed.

Lemma calculator_execute_no_events context : fst (calculator_execute context) = [].
Proof.
  unfold calculator_execute, try_except.
  destruct (negb (truthy _)); [reflexivity|].
  destruct (negb (_is_valid_expression _)); [reflexivity|].
  destruct (py_eval _) as [e|result]; [reflexivity|].
  assert (Hf : fst (format_result result) = []).
  { unfold format_result. destruct result as [z|f|repr]; try reflexivity.
    destruct (float_is_integer f); reflexivity. }
  destruct (format_result result) as [l [e|result_str]]; cbn [fst] in Hf; subst l.
  - rewrite Run_bind_raise. reflexivity.
  - rewrite Run_bind_value. reflexivity.
Qed.

(** Executing a skill yields no fragment. *)
Lemma execute_no_fragments w skill context :
  fragments_of (fst (execute w skill context)) = [].
Proof.
  unfold execute. destruct (skill_class skill).
  - unfold dynamic_execute, try_except, emit. rewrite Run_bind_value. cbn [fst snd].
    destruct (complete w _) as [e|[text|]]; reflexivity.
  - now rewrite calculator_execute_no_events.
  - reflexivity.
Qed.

(** The run of [generate] once a skill is matched. *)
Lemma generate_matched_run w _skills messages skill confidence :
  truthy (strip (last_content messages)) = true ->
  snd (match_skill w _skills (last_content messages) (removelast messages))
  = inr (Some (skill, confidence)) ->
  generate w _skills messages true
  = (Yielded Analyzing
       :: fst (match_skill w _skills (last_content messages) (removelast messages))
       ++ [ Yielded (Matched (name (metadata skill)) confidence);
            Yielded (Executing (name (metadata skill)));
            Executed skill ]
       ++ fst (execute w skill (context_of messages))
       ++ match snd (execute w skill (context_of messages)) with
          | inl _ => []
          | inr result =>
              [ Yielded (if success result then Succeeded (content result)
                         else Failed (error result)) ]
          end,
     match snd (execute w skill (context_of messages)) with
     | inl e => inl e
     | inr _ =>
         inr (messages
              ++ [(py "assistant",
                   py "使用了 " ++ name (metadata skill) ++ py " Skill")])
     end).
Proof.
  intros Hgate Hmatch. unfold generate. rewrite Hgate. cbn [andb].
  destruct (match_skill w _skills (last_content messages) (removelast messages))
    as [evs_m r] eqn:Em.
  cbn [snd] in Hmatch. subst r. cbn [fst].
  unfold emit. rewrite !Run_bind_value. cbn [fst snd].
  change {| user_message := last_content messages; conversation_history := messages |}
    with (context_of messages).
  destruct (execute w skill (context_of messages)) as [evs_x [e|result]].
  - rewrite Run_bind_raise. cbn [fst snd]. now rewrite app_nil_r.
  - rewrite Run_bind_value. cbn [fst snd].
    destruct (success result); rewrite Run_bind_value; cbn; rewrite ?app_nil_r; reflexivity.
Qed.

(** C5, as the code has it. Once a skill is matched, [generate] calls
    its [execute] with nothing around the call to catch an exception.
    When [execute] returns a result, the run ends by returning and the
    last fragment tells the success, or the failure with its error.
    When [execute] raises, the exception ends the run after the
    executing fragment, and no failed fragment is yielded. The generic
    skill and the calculator catch every exception themselves and
    return a failure, so with them the run always ends by returning. *)
Theorem generate_reports_result_and_lets_exception_through
    (w : World) (_skills : dict str Skill) (messages : list (str * str))
    (skill : Skill) (confidence : float) :
  truthy (strip (last_content messages)) = true ->
  snd (match_skill w _skills (last_content messages) (removelast messages))
  = inr (Some (skill, confidence)) ->
  (skill_class skill = CalculatorSkill \/ skill_class skill = DynamicPythonSkill ->
   ends_normally (execute w skill (context_of messages)))
  /\ match snd (execute w skill (context_of messages)) with
     | inr result =>
         ends_normally (generate w _skills messages true)
         /\ fragments (generate w _skills messages true)
            = [ Analyzing;
                Matched (name (metadata skill)) confidence;
                Executing (name (metadata skill));
                if success result then Succeeded (content result)
                else Failed (error result) ]
     | inl e =>
         snd (generate w _skills messages true) = inl e
         /\ fragments (generate w _skills messages true)
            = [ Analyzing;
                Matched (name (metadata skill)) confidence;
                Executing (name (metadata skill)) ]
     end.
Proof.
  intros Hgate Hmatch. split.
  { intros [Hc|Hc]; unfold execute; rewrite Hc.
    - destruct (calculator_execute_result (context_of messages)) as (r & Hr & _).
      now exists r.
    - destruct (dynamic_execute_result w skill (context_of messages)) as (r & Hr & _).
      now exists r. }
  pose proof (generate_matched_run w _skills messages skill confidence Hgate Hmatch) as Hrun.
  unfold fragments, events, ends_normally. rewrite Hrun. cbn [fst snd].
  assert (Hfr : forall tail,
    fragments_of
      (Yielded Analyzing
         :: fst (match_skill w _skills (last_content messages) (removelast messages))
         ++ [ Yielded (Matched (name (metadata skill)) confidence);
              Yielded (Executing (name (metadata skill)));
              Executed skill ]
         ++ fst (execute w skill (context_of messages)) ++ tail)
    = Analyzing :: Matched (name (metadata skill)) confidence
        :: Executing (name (metadata skill)) :: fragments_of tail).
  { intros tail.
    change (Yielded Analyzing :: ?l) with ([Yielded Analyzing] ++ l).
    rewrite !fragments_of_app, match_skill_no_fragments, execute_no_fragments.
    reflexivity. }
  rewrite Hfr.
  destruct (snd (execute w skill (context_of messages))) as [e|result].
  - split; reflexivity.
  - split; [eexists; reflexivity|reflexivity].
Qed.
End OrchestratorFacts.

(** The theorem on the skill [boom], whose class raises in [execute]. *)
Lemma generate_reports_result_and_lets_exception_through_witness :
  (skill_class boom_skill = CalculatorSkill \/ skill_class boom_skill = DynamicPythonSkill ->
   ends_normally (@execute ascii_python first_choice_world boom_skill
                    (context_of boom_messages)))
  /\ match snd (@execute ascii_python first_choice_world boom_skill
                  (context_of boom_messages)) with
     | inr result =>
         ends_normally (@generate ascii_python first_choice_world boom_table
                          boom_messages true)
         /\ fragments (@generate ascii_python first_choice_world boom_table
                         boom_messages true)
            = [ Analyzing;
                Matched (name (metadata boom_skill)) (0.5 * 0.4 + 0.9 * 0.6)%float;
                Executing (name (metadata boom_skill));
                if success result then Succeeded (content result)
                else Failed (error result) ]
     | inl e =>
         snd (@generate ascii_python first_choice_world boom_table boom_messages true)
         = inl e
         /\ fragments (@generate ascii_python first_choice_world boom_table
                         boom_messages true)
            = [ Analyzing;
                Matched (name (metadata boom_skill)) (0.5 * 0.4 + 0.9 * 0.6)%float;
                Executing (name (metadata boom_skill)) ]
     end.
Proof.
  apply (@generate_reports_result_and_lets_exception_through ascii_python);
    vm_compute; reflexivity.
Defined.

(** The calculator on [calculator 2+2], chosen by the model: analyzing,
    matched, executing, succeeded with the content [2+2 = 4], and no
    fragment of the plain chat. *)
Example generate_calculator_end_to_end :
  fragments (@generate calculator_python first_choice_world
               [(py "calculator", calculator_skill)]
               [(py "user", py "calculator 2+2")] true)
  = [ Analyzing;
      Matched (py "calculator") 0.74%float;
      Executing (py "calculator");
      Succeeded (py "2+2 = 4") ].
Proof. vm_compute. reflexivity. Qed.

(** C5, as the claim states it, fails: the class of the skill [boom]
    raises in [execute]; the run of [generate] ends by that exception
    after the executing fragment and yields no failed fragment. *)
Lemma handler_exception_ends_the_stream :
  ~ @handler_exception_is_caught ascii_python first_choice_world boom_table boom_messages.
Proof.
  intros Hcaught.
  edestruct Hcaught as [[a Ha] _].
  - vm_compute. reflexivity.
  - vm_compute. reflexivity.
  - vm_compute in Ha. discriminate Ha.
Qed.

(* ================================================================== *)
(** * The table that the loader builds *)
(* ================================================================== *)

(** ** Runs without events *)

Lemma quiet_bind {A B : Type} (m : Run A) (f : A -> Run B) :
  quiet m -> (forall a, quiet (f a)) -> quiet (mbind f m).
Proof.
  unfold quiet. destruct m as [l [e|a]]; cbn [fst]; intros -> Hf; [reflexivity|].
  rewrite Run_bind_value. cbn [fst]. apply Hf.
Qed.

Lemma quiet_try_except {A : Type} (m : Run A) (h : str -> Run A) :
  quiet m -> (forall e, quiet (h e)) -> quiet (try_except m h).
Proof.
  unfold quiet, try_except. destruct m as [l [e|a]]; cbn [fst]; intros -> Hh; [|reflexivity].
  specialize (Hh e). destruct (h e) as [l' r]. exact Hh.
Qed.

Lemma quiet_read_text p : quiet (read_text p).
Proof. destruct p as [[text|]|entries]; reflexivity. Qed.

Section LoaderFacts.
Context `{Python}.

Lemma quiet__load_metadata dir_name skill_dir : quiet (_load_metadata dir_name skill_dir).
Proof.
  unfold _load_metadata. destruct (child _ _); [|reflexivity].
  apply quiet_bind; [apply quiet_read_text|]. intros content.
  destruct (frontmatter_match content); [|reflexivity].
  destruct (yaml_metadata _); reflexivity.
Qed.

Lemma quiet__load_references skill_dir : quiet (_load_references skill_dir).
Proof.
  unfold _load_references. destruct (child _ _) as [references_dir|]; [|reflexivity].
  assert (Hq : quiet (mret ∅ : Run (gmap str str))) by reflexivity.
  revert Hq. generalize (mret ∅ : Run (gmap str str)) as acc.
  induction (glob_md references_dir) as [|x l IH]; intros acc Hq; [exact Hq|].
  cbn [foldl]. apply IH. apply quiet_bind; [exact Hq|]. intros refs.
  apply quiet_bind; [apply quiet_read_text|]. reflexivity.
Qed.

Lemma quiet_new_skill cls dir_name dir : quiet (new_skill cls dir_name dir).
Proof.
  unfold new_skill. apply quiet_bind; [apply quiet__load_metadata|]. intros m.
  apply quiet_bind; [apply quiet__load_references|]. reflexivity.
Qed.

Lemma quiet__load_python_skill dir_name skill_dir py_file :
  quiet (_load_python_skill dir_name skill_dir py_file).
Proof.
  unfold _load_python_skill. apply quiet_try_except; [|reflexivity].
  destruct py_file as [[source|]|entries]; try reflexivity.
  destruct (import_skill_class _ _); [|reflexivity].
  apply quiet_bind; [apply quiet_new_skill|]. reflexivity.
Qed.

(** One turn of the loop stores at most one skill, under its name. *)
Lemma load_entry_events e : Forall stores_by_name (events (load_entry e)).
Proof.
  destruct e as [dir_name skill_dir]. unfold load_entry, events.
  destruct skill_dir as [text|children]; [constructor|].
  destruct (_ || _); [constructor|].
  destruct (child _ (py "SKILL.md")); [|constructor].
  set (m := match child _ (py "skill.py") with
            | Some py_file => _ | None => _ end).
  assert (Hm : quiet m).
  { subst m. destruct (child _ (py "skill.py")).
    - apply quiet__load_python_skill.
    - apply quiet_bind; [apply quiet_new_skill|]. reflexivity. }
  destruct m as [l [e|[skill|]]]; unfold quiet in Hm; cbn [fst] in Hm; subst l.
  - constructor.
  - rewrite Run_bind_value. cbn. repeat constructor. now exists skill.
  - rewrite Run_bind_value. cbn. constructor.
Qed.

Lemma for_each_events {A : Type} (P : Event -> Prop) (f : A -> Run unit) (l : list A) :
  (forall x, Forall P (events (f x))) -> Forall P (events (for_each f l)).
Proof.
  intros Hf. unfold events in *. induction l as [|x l IH]; [constructor|].
  cbn [for_each]. specialize (Hf x). destruct (f x) as [evs [e|[]]]; [exact Hf|].
  rewrite Run_bind_value. cbn [fst] in *. apply Forall_app. now split.
Qed.

Lemma _load_all_events skills_dir : Forall stores_by_name (events (_load_all skills_dir)).
Proof.
  destruct skills_dir as [[text|entries]|]; try constructor.
  apply for_each_events, load_entry_events.
Qed.

(** ** The table *)

Lemma elem_of_dict_set (d : dict str Skill) k v k' v' :
  (k', v') ∈ dict_set d k v -> (k' = k /\ v' = v) \/ (k', v') ∈ d.
Proof.
  induction d as [|[a b] d IH]; simpl.
  - intros Hin. apply list_elem_of_singleton in Hin. injection Hin as -> ->. now left.
  - destruct (decide (a = k)) as [->|Hak].
    + intros Hin. apply elem_of_cons in Hin as [[= -> ->]|Hin]; [now left|].
      right. now right.
    + intros Hin. apply elem_of_cons in Hin as [[= -> ->]|Hin]; [right; left|].
      destruct (IH Hin) as [?|?]; [now left|right; now right].
Qed.

Lemma keyed_by_name_store _skills s :
  keyed_by_name _skills -> keyed_by_name (dict_set _skills (name (metadata s)) s).
Proof.
  intros [Hnd Hkeys]. split; [now apply dict_keys_set_NoDup|].
  intros k' s' Hin. apply elem_of_dict_set in Hin as [[-> ->]|Hin]; [reflexivity|].
  now apply Hkeys.
Qed.

Lemma keyed_by_name_nil : keyed_by_name [].
Proof. split; [constructor|]. intros k s Hin. inversion Hin. Qed.

Lemma keyed_by_name_table_after _skills evs :
  Forall (fun e => e = Cleared \/ stores_by_name e) evs ->
  keyed_by_name _skills -> keyed_by_name (table_after _skills evs).
Proof.
  intros Hevs. revert _skills. induction Hevs as [|e evs He _ IH]; intros _skills Hk.
  - exact Hk.
  - cbn. apply IH. destruct He as [->|[s ->]]; cbn.
    + apply keyed_by_name_nil.
    + now apply keyed_by_name_store.
Qed.

Lemma keyed_by_name_values_NoDup _skills :
  keyed_by_name _skills -> NoDup (dict_values _skills).
Proof.
  intros [Hnd Hkeys]. unfold dict_values, dict_keys in *.
  apply (NoDup_fmap_1 (fun s => name (metadata s))).
  replace ((fun s => name (metadata s)) <$> map snd _skills) with (map fst _skills);
    [exact Hnd|].
  clear Hnd. induction _skills as [|[k s] t IH]; [reflexivity|].
  cbn. f_equal.
  - symmetry. apply Hkeys. left.
  - apply IH. intros k' s' Hin. apply Hkeys. now right.
Qed.

(** The table that the loader builds, at start-up or by a reload, holds
    each skill under its own name: its skills are distinct, and
    [match_skill] reads them in the order in which their names were
    first stored. *)
Lemma reload_table_keyed_by_name _skills skills_dir :
  keyed_by_name (table_after _skills (events (reload skills_dir)))
  /\ NoDup (dict_values (table_after _skills (events (reload skills_dir)))).
Proof.
  assert (Hk : keyed_by_name (table_after _skills (events (reload skills_dir)))).
  { rewrite reload_events. cbn. apply keyed_by_name_table_after; [|apply keyed_by_name_nil].
    eapply Forall_impl; [apply _load_all_events|]. intros e He. now right. }
  split; [exact Hk|now apply keyed_by_name_values_NoDup].
Qed.

(** A name stored for the first time goes to the end of the table; a
    name stored again keeps its place. *)
Lemma table_order_is_first_registration _skills s :
  dict_keys (apply_event _skills (Stored (name (metadata s)) s))
  = if decide (name (metadata s) ∈ dict_keys _skills)
    then dict_keys _skills
    else dict_keys _skills ++ [name (metadata s)].
Proof. cbn. apply dict_keys_set. Qed.
End LoaderFacts.

(* ================================================================== *)
(** * More on the loader: discovery, failures and name clashes *)
(* ================================================================== *)

(** ** Loops that may raise *)

Lemma for_each_cons_events {A : Type} (f : A -> Run unit) (x : A) (l : list A) :
  events (for_each f (x :: l))
  = events (f x) ++ match snd (f x) with
                    | inl _ => []
                    | inr _ => events (for_each f l)
                    end.
Proof.
  unfold events. cbn [for_each]. destruct (f x) as [evs [e|[]]]; cbn [fst snd].
  - now rewrite app_nil_r.
  - now rewrite Run_bind_value.
Qed.

Lemma for_each_elem_of {A : Type} (f : A -> Run unit) (l : list A) (ev : Event) :
  ev ∈ events (for_each f l) -> exists x, x ∈ l /\ ev ∈ events (f x).
Proof.
  induction l as [|x l IH]; [intros Hin; inversion Hin|].
  rewrite for_each_cons_events. intros Hin. apply elem_of_app in Hin as [Hin|Hin].
  - exists x. split; [left|exact Hin].
  - destruct (snd (f x)); [inversion Hin|].
    destruct (IH Hin) as (y & Hy & Hev). exists y. split; [now right|exact Hev].
Qed.

(** A loop stops at the first turn that raises. *)
Lemma for_each_stops {A : Type} (f : A -> Run unit) (pre post : list A) (x : A) (err : str) :
  ends_normally (for_each f pre) ->
  snd (f x) = inl err ->
  for_each f (pre ++ x :: post) = (events (for_each f pre) ++ events (f x), inl err).
Proof.
  intros [[] Hpre] Hx. unfold events. induction pre as [|y pre IH]; cbn [for_each app].
  - destruct (f x) as [evs r]. cbn [snd] in Hx. subst r. reflexivity.
  - cbn [for_each] in Hpre. destruct (f y) as [evs [e|[]]]; [discriminate Hpre|].
    rewrite Run_bind_value in Hpre |- *. cbn [fst snd] in Hpre |- *.
    rewrite (IH Hpre), Run_bind_value. cbn [fst snd]. now rewrite app_assoc.
Qed.

Section LoaderMore.
Context `{Python}.

Lemma new_skill_fields cls dir_name dir skill :
  snd (new_skill cls dir_name dir) = inr skill ->
  skill_dir skill = dir_name /\ skill_class skill = cls.
Proof.
  unfold new_skill.
  destruct (_load_metadata dir_name dir) as [l1 [e1|m]]; [discriminate|].
  rewrite Run_bind_value. cbn [fst snd].
  destruct (_load_references dir) as [l2 [e2|refs]]; [discriminate|].
  rewrite Run_bind_value. cbn [fst snd]. intros [= <-]. now split.
Qed.

Lemma _load_python_skill_returns dir_name skill_dir py_file :
  exists r, _load_python_skill dir_name skill_dir py_file = ([], inr r)
    /\ forall skill, r = Some skill ->
         exists source cls,
           py_file = File (Some source)
           /\ import_skill_class dir_name source = Some cls
           /\ new_skill cls dir_name skill_dir = ([], inr skill).
Proof.
  unfold _load_python_skill, try_except.
  destruct py_file as [[source|]|entries].
  2,3: (exists None; split; [reflexivity|discriminate]).
  destruct (import_skill_class dir_name source) as [cls|] eqn:Ei.
  2: (exists None; split; [reflexivity|discriminate]).
  pose proof (quiet_new_skill cls dir_name skill_dir) as Hq. unfold quiet in Hq.
  destruct (new_skill cls dir_name skill_dir) as [l [e|skill]] eqn:En;
    cbn [fst] in Hq; subst l.
  - exists None. split; [reflexivity|discriminate].
  - exists (Some skill). split; [reflexivity|].
    intros s [= <-]. exists source, cls. now repeat split.
Qed.

(** What one turn of the loop of [_load_all] does with a directory that
    passes the three checks. *)
Lemma load_entry_candidate dir_name children manifest :
  startswith (py "_") dir_name || startswith (py ".") dir_name = false ->
  child (Dir children) (py "SKILL.md") = Some manifest ->
  load_entry (dir_name, Dir children)
  = (skill ←
       match child (Dir children) (py "skill.py") with
       | Some py_file => _load_python_skill dir_name (Dir children) py_file
       | None =>
           skill ← new_skill DynamicPythonSkill dir_name (Dir children);
           mret (Some skill)
       end;
     match skill with
     | Some skill => emit (Stored (name (metadata skill)) skill)
     | None => mret tt
     end).
Proof. intros Hskip Hmd. unfold load_entry. now rewrite Hskip, Hmd. Qed.

Lemma load_entry_skipped dir_name node :
  match node with
  | File _ => True
  | Dir children =>
      startswith (py "_") dir_name || startswith (py ".") dir_name = true
      \/ child node (py "SKILL.md") = None
  end ->
  load_entry (dir_name, node) = ([], inr tt).
Proof.
  destruct node as [text|children]; [reflexivity|]. unfold load_entry.
  intros [->| ->]; [reflexivity|]. now destruct (_ || _).
Qed.

(** The outcome of one turn: nothing stored, or one skill stored under
    its name, or an exception with nothing stored. *)
Lemma load_entry_outcomes dir_name node :
  load_entry (dir_name, node) = ([], inr tt)
  \/ (exists err, load_entry (dir_name, node) = ([], inl err)
                  /\ exists children, node = Dir children
                     /\ child node (py "skill.py") = None)
  \/ (exists skill children,
        load_entry (dir_name, node) = ([Stored (name (metadata skill)) skill], inr tt)
        /\ node = Dir children
        /\ skill_dir skill = dir_name
        /\ startswith (py "_") dir_name = false
        /\ startswith (py ".") dir_name = false
        /\ is_Some (child node (py "SKILL.md"))).
Proof.
  destruct node as [text|children]; [left; reflexivity|].
  destruct (startswith (py "_") dir_name || startswith (py ".") dir_name) eqn:Eskip.
  { left. apply load_entry_skipped. now left. }
  destruct (child (Dir children) (py "SKILL.md")) as [manifest|] eqn:Emd.
  2: { left. apply load_entry_skipped. now right. }
  apply orb_false_iff in Eskip as Hs. destruct Hs as [Hs1 Hs2].
  rewrite (load_entry_candidate _ _ _ Eskip Emd).
  destruct (child (Dir children) (py "skill.py")) as [py_file|] eqn:Epy.
  - destruct (_load_python_skill_returns dir_name (Dir children) py_file)
      as ([skill|] & -> & Hsk).
    + right. right. exists skill, children.
      destruct (Hsk skill eq_refl) as (source & cls & _ & _ & Hnew).
      assert (Hf : skill_dir skill = dir_name).
      { eapply new_skill_fields. rewrite Hnew. reflexivity. }
      rewrite Run_bind_value. cbn. now repeat split; eauto.
    + left. rewrite Run_bind_value. reflexivity.
  - pose proof (quiet_new_skill DynamicPythonSkill dir_name (Dir children)) as Hq.
    unfold quiet in Hq.
    destruct (new_skill DynamicPythonSkill dir_name (Dir children)) as [l [e|skill]] eqn:En;
      cbn [fst] in Hq; subst l.
    + right. left. exists e. split; [reflexivity|]. eauto.
    + right. right. exists skill, children.
      assert (Hf : skill_dir skill = dir_name).
      { eapply new_skill_fields. rewrite En. reflexivity. }
      rewrite !Run_bind_value. cbn. now repeat split; eauto.
Qed.

(** X8. Every skill that [_load_all] stores comes from an entry of the
    skills directory that is a directory, whose name starts with
    neither [_] nor [.], and that holds a [SKILL.md]; the skill is
    stored under the name of its metadata and is built from that
    directory. Files, private and hidden directories, and directories
    without a [SKILL.md] never put a skill into the table. *)
Theorem _load_all_stores_only_manifest_directories
    (entries : list (str * Node)) (key : str) (skill : Skill) :
  Stored key skill ∈ events (_load_all (Some (Dir entries))) ->
  key = name (metadata skill)
  /\ exists children,
       (skill_dir skill, Dir children) ∈ entries
       /\ startswith (py "_") (skill_dir skill) = false
       /\ startswith (py ".") (skill_dir skill) = false
       /\ is_Some (child (Dir children) (py "SKILL.md")).
Proof.
  cbn [_load_all]. intros Hin.
  apply for_each_elem_of in Hin as ([dir_name node] & Hentry & Hev).
  unfold events in Hev.
  destruct (load_entry_outcomes dir_name node)
    as [E|[(err & E & _)|(s & children & E & -> & Hdir & H1 & H2 & Hmd)]];
    rewrite E in Hev; cbn [fst] in Hev.
  - inversion Hev.
  - inversion Hev.
  - apply list_elem_of_singleton in Hev. injection Hev as -> ->.
    split; [reflexivity|]. exists children. rewrite Hdir. now repeat split.
Qed.

Lemma load_entry_raise_quiet e err :
  snd (load_entry e) = inl err -> events (load_entry e) = [].
Proof.
  destruct e as [dir_name node]. unfold events.
  destruct (load_entry_outcomes dir_name node)
    as [E|[(err' & E & _)|(s & children & E & _)]]; rewrite E; cbn; congruence.
Qed.

(** X9. When loading one directory raises, [_load_all] and [reload] end
    by that exception at once: the entries after it are not looked at,
    and after the reload the table holds only the skills of the entries
    before the failing one. What the table held before the reload is
    gone. *)
Theorem reload_stops_at_the_first_failure
    (old : dict str Skill) (pre post : list (str * Node)) (e : str * Node)
    (err : str) :
  ends_normally (_load_all (Some (Dir pre))) ->
  snd (load_entry e) = inl err ->
  snd (reload (Some (Dir (pre ++ e :: post)))) = inl err
  /\ events (reload (Some (Dir (pre ++ e :: post))))
     = Cleared :: events (_load_all (Some (Dir pre)))
  /\ table_after old (events (reload (Some (Dir (pre ++ e :: post)))))
     = table_after [] (events (_load_all (Some (Dir pre)))).
Proof.
  intros Hpre He.
  assert (Hrun : _load_all (Some (Dir (pre ++ e :: post)))
                 = (events (_load_all (Some (Dir pre))), inl err)).
  { cbn [_load_all] in *. rewrite (for_each_stops _ _ _ _ _ Hpre He).
    now rewrite (load_entry_raise_quiet _ _ He), app_nil_r. }
  rewrite reload_outcome, reload_events, Hrun. now repeat split.
Qed.


(** X11. A [SKILL.md] without frontmatter, or with frontmatter that the
    YAML parser or the validation rejects, does not keep a skill out of
    the table: a directory without [skill.py] whose documents can be
    read is stored as a generic skill under the name of the directory,
    with the default description. *)
Theorem malformed_manifest_registers_under_directory_name
    (dir_name : str) (children : list (str * Node)) (text : str)
    (refs : gmap str str) :
  startswith (py "_") dir_name = false ->
  startswith (py ".") dir_name = false ->
  child (Dir children) (py "SKILL.md") = Some (File (Some text)) ->
  child (Dir children) (py "skill.py") = None ->
  (forall frontmatter_text,
     frontmatter_match text = Some frontmatter_text ->
     yaml_metadata frontmatter_text = None) ->
  snd (_load_references (Dir children)) = inr refs ->
  load_entry (dir_name, Dir children)
  = ([Stored dir_name
        {| skill_dir := dir_name;
           skill_class := DynamicPythonSkill;
           metadata :=
             {| name := dir_name;
                description := py "No description available";
                category := None;
                tags := Some [];
                author := None;
                version := Some (py "1.0.0") |};
           references := refs;
           skill_md := Some text |}],
     inr tt).
Proof.
  intros H1 H2 Hmd Hpy Hbad Hrefs.
  rewrite (load_entry_candidate dir_name children (File (Some text)))
    by (rewrite ?H1, ?H2; auto).
  rewrite Hpy.
  assert (Hmeta : _load_metadata dir_name (Dir children)
                  = ([], inr (default_metadata dir_name))).
  { unfold _load_metadata. rewrite Hmd. cbn [read_text].
    change (mret text : Run str) with (([], inr text) : Run str).
    rewrite Run_bind_value. cbn beta.
    destruct (frontmatter_match text) as [fm|] eqn:Ef; [|reflexivity].
    now rewrite (Hbad fm eq_refl). }
  pose proof (quiet__load_references (Dir children)) as Hq. unfold quiet in Hq.
  unfold new_skill. rewrite Hmeta, Hmd, Run_bind_value. cbn [fst snd].
  destruct (_load_references (Dir children)) as [l r].
  cbn [fst snd] in Hq, Hrefs. subst l r.
  rewrite !Run_bind_value. cbn [fst snd app name metadata emit]. reflexivity.
Qed.

(** ** The table as a function of the stores *)

Lemma stored_under_app key evs1 evs2 :
  stored_under key (evs1 ++ evs2) = stored_under key evs1 ++ stored_under key evs2.
Proof. unfold stored_under. apply omap_app. Qed.

Lemma stored_keys_app evs1 evs2 :
  stored_keys (evs1 ++ evs2) = stored_keys evs1 ++ stored_keys evs2.
Proof. unfold stored_keys. apply omap_app. Qed.

Lemma table_after_app _skills evs1 evs2 :
  table_after _skills (evs1 ++ evs2) = table_after (table_after _skills evs1) evs2.
Proof. unfold table_after. apply foldl_app. Qed.

Lemma stored_under_store key k s :
  stored_under key [Stored k s] = if decide (k = key) then [s] else [].
Proof. unfold stored_under. simpl. now destruct (decide (k = key)). Qed.

Lemma elem_of_rev_remove_dups (x : str) (l : list str) :
  x ∈ rev (remove_dups l) <-> x ∈ l.
Proof.
  rewrite list_elem_of_In, <- in_rev, <- list_elem_of_In. apply elem_of_remove_dups.
Qed.

(** X13. When several directories give the same skill name, the table
    built by the loader holds under that name the skill stored last,
    at the place where the name was stored first: [get_skill] returns
    the last skill stored under the name, [None] when there is none,
    and the names are listed in the order of their first stores. *)
Theorem loader_table_keeps_last_skill_at_first_place
    (skills_dir : option Node) (skill_name : str) :
  get_skill (table_after [] (events (SkillLoader_init skills_dir))) skill_name
  = last (stored_under skill_name (events (SkillLoader_init skills_dir)))
  /\ dict_keys (table_after [] (events (SkillLoader_init skills_dir)))
     = first_occurrences (stored_keys (events (SkillLoader_init skills_dir))).
Proof.
  unfold SkillLoader_init.
  pose proof (_load_all_events skills_dir) as Hevs.
  induction (events (_load_all skills_dir)) as [|e evs IH] using rev_ind;
    [split; reflexivity|].
  apply Forall_app in Hevs as [Hevs He]. apply Forall_cons in He as [[s ->] _].
  destruct (IH Hevs) as [IHget IHkeys].
  rewrite table_after_app, stored_under_app, stored_keys_app, stored_under_store.
  change (table_after (table_after [] evs) [Stored (name (metadata s)) s])
    with (dict_set (table_after [] evs) (name (metadata s)) s).
  change (stored_keys [Stored (name (metadata s)) s]) with [name (metadata s)].
  split.
  - unfold get_skill in *. rewrite dict_get_set.
    destruct (decide (name (metadata s) = skill_name)) as [E|E].
    + now rewrite last_snoc.
    + now rewrite app_nil_r.
  - rewrite dict_keys_set, IHkeys. unfold first_occurrences.
    rewrite rev_app_distr. cbn [rev app remove_dups].
    destruct (decide_rel elem_of (name (metadata s)) (rev (stored_keys evs)))
      as [Hin|Hn].
    + destruct (decide (name (metadata s) ∈ rev (remove_dups (rev (stored_keys evs)))))
        as [_|Hn']; [reflexivity|].
      exfalso. apply Hn'. apply elem_of_rev_remove_dups. exact Hin.
    + destruct (decide (name (metadata s) ∈ rev (remove_dups (rev (stored_keys evs)))))
        as [Hin'|_]; [|reflexivity].
      exfalso. apply Hn. apply elem_of_rev_remove_dups. exact Hin'.
Qed.
End LoaderMore.

(** The theorem on the sample tree and the skill of its directory
    [notes]. *)
Lemma _load_all_stores_only_manifest_directories_witness :
  py "notes" = name (metadata notes_skill)
  /\ exists children,
       (skill_dir notes_skill, Dir children) ∈ dir_entries sample_tree
       /\ startswith (py "_") (skill_dir notes_skill) = false
       /\ startswith (py ".") (skill_dir notes_skill) = false
       /\ is_Some (child (Dir children) (py "SKILL.md")).
Proof.
  apply (@_load_all_stores_only_manifest_directories ascii_python
           (dir_entries sample_tree) (py "notes") notes_skill).
  vm_compute. right. left.
Defined.

(** The theorem on a tree whose second directory has a [SKILL.md] that
    does not decode, reloaded over the sample table. *)
Lemma reload_stops_at_the_first_failure_witness :
  snd (@reload ascii_python (Some broken_tree)) = inl (py "'utf-8' codec can't decode")
  /\ events (@reload ascii_python (Some broken_tree))
     = Cleared
         :: events (@_load_all ascii_python
                      (Some (Dir [ (py "calc", Dir [ (py "SKILL.md", File (Some calc_md)) ]) ])))
  /\ table_after sample_table (events (@reload ascii_python (Some broken_tree)))
     = table_after []
         (events (@_load_all ascii_python
                    (Some (Dir [ (py "calc", Dir [ (py "SKILL.md", File (Some calc_md)) ]) ])))).
Proof.
  apply (@reload_stops_at_the_first_failure ascii_python sample_table
           [ (py "calc", Dir [ (py "SKILL.md", File (Some calc_md)) ]) ]
           [ (py "notes", notes_dir) ]
           (py "broken", broken_dir)).
  - exists tt. vm_compute. reflexivity.
  - vm_compute. reflexivity.
Defined.


(** The theorem on the directory [notes], whose [SKILL.md] has no
    frontmatter. *)
Lemma malformed_manifest_registers_under_directory_name_witness :
  @load_entry ascii_python (py "notes", notes_dir)
  = ([Stored (py "notes")
        {| skill_dir := py "notes";
           skill_class := DynamicPythonSkill;
           metadata :=
             {| name := py "notes";
                description := py "No description available";
                category := None;
                tags := Some [];
                author := None;
                version := Some (py "1.0.0") |};
           references := references notes_skill;
           skill_md := Some (py "Take notes.") |}],
     inr tt).
Proof.
  apply (@malformed_manifest_registers_under_directory_name ascii_python (py "notes")
           (dir_entries notes_dir) (py "Take notes.") (references notes_skill)).
  - vm_compute. reflexivity.
  - vm_compute. reflexivity.
  - vm_compute. reflexivity.
  - vm_compute. reflexivity.
  - intros frontmatter_text _. reflexivity.
  - vm_compute. reflexivity.
Defined.

(* ================================================================== *)
(** * The matcher on the table of the loader: ties and the order of registration *)
(* ================================================================== *)

Local Open Scope float_scope.

Section RegistrationOrder.
Context `{Python}.






End RegistrationOrder.



Local Close Scope float_scope.

(* ================================================================== *)
(** * More on building a skill: frontmatter and unreadable documents *)
(* ================================================================== *)

(** ** Prefixes and occurrences *)

Lemma startswith_inv (p s : str) : startswith p s = true -> exists rest, s = p ++ rest.
Proof.
  revert s. induction p as [|a p IH]; intros s; simpl; [eauto|].
  destruct s as [|b s]; [discriminate|].
  intros [Hab Hp]%andb_true_iff. apply N.eqb_eq in Hab as ->.
  destruct (IH s Hp) as [rest ->]. eauto.
Qed.

Lemma startswith_app (p s t : str) : startswith p s = true -> startswith p (s ++ t) = true.
Proof.
  revert s. induction p as [|a p IH]; intros s; simpl; [reflexivity|].
  destruct s as [|b s]; [discriminate|]. simpl.
  intros [Hab Hp]%andb_true_iff. rewrite Hab. simpl. now apply IH.
Qed.

Lemma startswith_prefix (p rest : str) : startswith p (p ++ rest) = true.
Proof. induction p as [|a p IH]; simpl; [reflexivity|]. now rewrite N.eqb_refl. Qed.

Lemma contains_cons (sub : str) (c : N) (s : str) :
  contains sub (c :: s) = startswith sub (c :: s) || contains sub s.
Proof. reflexivity. Qed.

(** ** The frontmatter *)

Lemma until_marker_eq (acc s : str) :
  until_marker acc s
  = if startswith (nl :: py "---") s then Some (rev acc)
    else match s with
         | [] => None
         | c :: t => until_marker (c :: acc) t
         end.
Proof. destruct s; reflexivity. Qed.

Lemma until_marker_sound (acc s r : str) :
  until_marker acc s = Some r ->
  exists body rest,
    r = rev acc ++ body
    /\ s = body ++ nl :: py "---" ++ rest
    /\ contains (nl :: py "---") body = false.
Proof.
  revert acc. induction s as [|c t IH]; intros acc; rewrite until_marker_eq.
  - cbn. discriminate.
  - destruct (startswith (nl :: py "---") (c :: t)) eqn:Es.
    + intros [= <-]. apply startswith_inv in Es as [rest ->].
      exists [], rest. rewrite app_nil_r. now repeat split.
    + intros Hr. destruct (IH _ Hr) as (body & rest & -> & -> & Hc).
      exists (c :: body), rest. split; [cbn; now rewrite <- app_assoc|].
      split; [reflexivity|].
      rewrite contains_cons, Hc, orb_false_r.
      destruct (startswith (nl :: py "---") (c :: body)) eqn:Eb; [|reflexivity].
      apply (startswith_app _ _ (nl :: py "---" ++ rest)) in Eb.
      cbn [app] in Eb, Es. congruence.
Qed.

(** The closing fence cannot start inside the text before it and end
    inside itself: after its line break come hyphens only. *)
Lemma marker_does_not_overlap (body rest : str) :
  body <> [] ->
  startswith (nl :: py "---") body = false ->
  startswith (nl :: py "---") (body ++ nl :: py "---" ++ rest) = false.
Proof.
  intros Hne Hb.
  change (py "---") with [45%N; 45%N; 45%N] in *. unfold nl in *.
  destruct body as [|c1 [|c2 [|c3 [|c4 body]]]]; [congruence| | | |].
  - cbn [startswith app]. destruct (10 =? c1)%N; reflexivity.
  - cbn [startswith app]. destruct (10 =? c1)%N; [|reflexivity].
    destruct (45 =? c2)%N; reflexivity.
  - cbn [startswith app]. destruct (10 =? c1)%N; [|reflexivity].
    destruct (45 =? c2)%N; [|reflexivity]. destruct (45 =? c3)%N; reflexivity.
  - exact Hb.
Qed.

Lemma until_marker_complete (acc body rest : str) :
  contains (nl :: py "---") body = false ->
  until_marker acc (body ++ nl :: py "---" ++ rest) = Some (rev acc ++ body).
Proof.
  revert acc. induction body as [|c body IH]; intros acc Hc; rewrite until_marker_eq.
  - change ([] ++ nl :: py "---" ++ rest) with ((nl :: py "---") ++ rest).
    rewrite startswith_prefix. now rewrite app_nil_r.
  - rewrite contains_cons in Hc. apply orb_false_iff in Hc as [Hs Hc].
    rewrite marker_does_not_overlap by (congruence || exact Hs).
    cbn [app]. rewrite IH by exact Hc. cbn. now rewrite <- app_assoc.
Qed.

(** X14. [_load_metadata] takes as frontmatter the text between the
    opening fence [---] on the first line and the first line break that
    is followed by [---]: a text has frontmatter [fm] exactly when it is
    the opening fence, [fm], the closing line break and fence, and
    anything after, where [fm] holds no line break followed by [---]. An
    empty frontmatter needs its own empty line. *)
Theorem frontmatter_match_takes_text_up_to_first_closing_fence
    (content frontmatter_text : str) :
  (frontmatter_match content = Some frontmatter_text
   <-> exists rest,
         content = py "---" ++ [nl] ++ frontmatter_text ++ nl :: py "---" ++ rest
         /\ contains (nl :: py "---") frontmatter_text = false)
  /\ frontmatter_match (py "---" ++ [nl] ++ py "---" ++ [nl]) = None
  /\ frontmatter_match (py "---" ++ [nl; nl] ++ py "---" ++ [nl]) = Some [].
Proof.
  split; [|split; reflexivity].
  unfold frontmatter_match. split.
  - destruct (startswith (py "---" ++ [nl]) content) eqn:Es; [|discriminate].
    apply startswith_inv in Es as [tail ->].
    change (drop 4 ((py "---" ++ [nl]) ++ tail)) with tail.
    intros Hm. apply until_marker_sound in Hm as (body & rest & -> & -> & Hc).
    exists rest. split; [reflexivity|exact Hc].
  - intros (rest & -> & Hc).
    change (py "---" ++ [nl] ++ frontmatter_text ++ nl :: py "---" ++ rest)
      with ((py "---" ++ [nl]) ++ frontmatter_text ++ nl :: py "---" ++ rest).
    rewrite startswith_prefix.
    change (drop 4 ((py "---" ++ [nl]) ++ frontmatter_text ++ nl :: py "---" ++ rest))
      with (frontmatter_text ++ nl :: py "---" ++ rest).
    now rewrite until_marker_complete.
Qed.

(** ** Reading the reference documents *)

Section ReferencesMore.
Context `{Python}.

Lemma load_references_loop_raised (l : list (list str * Node)) (evs : list Event) (e : str) :
  foldl (fun (acc : Run (gmap str str)) ref_file =>
           refs ← acc;
           text ← read_text (snd ref_file);
           mret (<[path_str (fst ref_file) := text]> refs))
        (evs, inl e) l
  = (evs, inl e).
Proof. induction l as [|x l IH]; [reflexivity|]. cbn [foldl]. exact IH. Qed.

Lemma load_references_step (refs : gmap str str) (x : list str * Node) :
  (refs0 ← (([], inr refs) : Run (gmap str str));
   text ← read_text (snd x);
   mret (<[path_str (fst x) := text]> refs0))
  = match snd x with
    | File (Some text) => ([], inr (<[path_str (fst x) := text]> refs))
    | File None => ([], inl (py "'utf-8' codec can't decode"))
    | Dir _ => ([], inl (py "[Errno 21] Is a directory"))
    end.
Proof. destruct (snd x) as [[text|]|entries]; reflexivity. Qed.

Lemma load_references_loop_fails (l : list (list str * Node)) (refs : gmap str str) :
  forallb (fun p => readable (snd p)) l = false ->
  exists e,
    foldl (fun (acc : Run (gmap str str)) ref_file =>
             refs ← acc;
             text ← read_text (snd ref_file);
             mret (<[path_str (fst ref_file) := text]> refs))
          ([], inr refs) l
    = ([], inl e).
Proof.
  revert refs. induction l as [|x l IH]; intros refs; [discriminate|].
  cbn [forallb foldl]. rewrite load_references_step.
  destruct (snd x) as [[text|]|entries]; cbn [readable andb].
  - intros Hl. apply IH, Hl.
  - intros _. eexists. apply load_references_loop_raised.
  - intros _. eexists. apply load_references_loop_raised.
Qed.

(** X15. When one of the paths that the pattern [**/*.md] matches below
    [references] cannot be read - a file that does not decode, or a
    directory whose name ends in [.md] - [_load_references] raises and
    returns no dictionary, not even of the documents it has read, and
    no skill can be built from the directory. *)
Theorem _load_references_fails_on_an_unreadable_match
    (skill_dir references_dir : Node) :
  child skill_dir (py "references") = Some references_dir ->
  forallb (fun p => readable (snd p)) (glob_md references_dir) = false ->
  (exists e, _load_references skill_dir = ([], inl e))
  /\ forall cls dir_name, ~ ends_normally (new_skill cls dir_name skill_dir).
Proof.
  intros Hchild Hread.
  assert (Hrefs : exists e, _load_references skill_dir = ([], inl e)).
  { unfold _load_references. rewrite Hchild.
    exact (load_references_loop_fails _ ∅ Hread). }
  split; [exact Hrefs|]. destruct Hrefs as [e Hrefs].
  intros cls dir_name [skill Hskill]. unfold new_skill in Hskill.
  destruct (_load_metadata dir_name skill_dir) as [l [e'|m]]; [discriminate Hskill|].
  rewrite Run_bind_value, Hrefs in Hskill. discriminate Hskill.
Qed.

(** X12. A directory is stored under the name that the frontmatter of
    its [SKILL.md] gives, not under its own name: for a directory
    without [skill.py] whose [SKILL.md] opens with a fenced frontmatter
    that the YAML parser accepts, the loader stores a generic skill
    with the metadata of the frontmatter, under the name in that
    metadata. *)
Theorem manifest_name_overrides_directory_name
    (dir_name : str) (children : list (str * Node))
    (frontmatter_text rest : str) (m : SkillMetadata) (refs : gmap str str) :
  startswith (py "_") dir_name = false ->
  startswith (py ".") dir_name = false ->
  child (Dir children) (py "SKILL.md")
  = Some (File (Some (py "---" ++ [nl] ++ frontmatter_text ++ nl :: py "---" ++ rest))) ->
  child (Dir children) (py "skill.py") = None ->
  contains (nl :: py "---") frontmatter_text = false ->
  yaml_metadata frontmatter_text = Some m ->
  snd (_load_references (Dir children)) = inr refs ->
  load_entry (dir_name, Dir children)
  = ([Stored (name m)
        {| skill_dir := dir_name;
           skill_class := DynamicPythonSkill;
           metadata := m;
           references := refs;
           skill_md :=
             Some (py "---" ++ [nl] ++ frontmatter_text ++ nl :: py "---" ++ rest) |}],
     inr tt).
Proof.
  intros H1 H2 Hmd Hpy Hfm Hyaml Hrefs.
  set (text := py "---" ++ [nl] ++ frontmatter_text ++ nl :: py "---" ++ rest) in *.
  rewrite (load_entry_candidate dir_name children (File (Some text)))
    by (rewrite ?H1, ?H2; auto).
  rewrite Hpy.
  assert (Hmatch : frontmatter_match text = Some frontmatter_text).
  { unfold frontmatter_match. subst text.
    change (py "---" ++ [nl] ++ frontmatter_text ++ nl :: py "---" ++ rest)
      with ((py "---" ++ [nl]) ++ frontmatter_text ++ nl :: py "---" ++ rest).
    rewrite startswith_prefix.
    change (drop 4 ((py "---" ++ [nl]) ++ frontmatter_text ++ nl :: py "---" ++ rest))
      with (frontmatter_text ++ nl :: py "---" ++ rest).
    now rewrite until_marker_complete. }
  assert (Hmeta : _load_metadata dir_name (Dir children) = ([], inr m)).
  { unfold _load_metadata. rewrite Hmd. cbn [read_text].
    change (mret text : Run str) with (([], inr text) : Run str).
    rewrite Run_bind_value. cbn beta. now rewrite Hmatch, Hyaml. }
  pose proof (quiet__load_references (Dir children)) as Hq. unfold quiet in Hq.
  unfold new_skill. rewrite Hmeta, Hmd, Run_bind_value. cbn [fst snd].
  destruct (_load_references (Dir children)) as [l r].
  cbn [fst snd] in Hq, Hrefs. subst l r.
  rewrite !Run_bind_value. cbn [fst snd app name metadata emit]. reflexivity.
Qed.
End ReferencesMore.

(** The theorem on a [references] directory in which a directory is
    named [old.md]. *)
Lemma _load_references_fails_on_an_unreadable_match_witness :
  (exists e, _load_references stale_references_dir = ([], inl e))
  /\ forall cls dir_name,
       ~ ends_normally (@new_skill ascii_python cls dir_name stale_references_dir).
Proof.
  apply (@_load_references_fails_on_an_unreadable_match ascii_python stale_references_dir
           (Dir [ (py "a.md", File (Some (py "A"))); (py "old.md", Dir []) ])).
  - vm_compute. reflexivity.
  - vm_compute. reflexivity.
Defined.

(** The theorem on the directory [arithmetic], whose [SKILL.md] gives
    the name [calc]. *)
Lemma manifest_name_overrides_directory_name_witness :
  @load_entry yaml_python (py "arithmetic", arithmetic_dir)
  = ([Stored (name (sample_metadata "calc" "math helper"))
        {| skill_dir := py "arithmetic";
           skill_class := DynamicPythonSkill;
           metadata := sample_metadata "calc" "math helper";
           references := ∅;
           skill_md :=
             Some (py "---" ++ [nl]
                   ++ (py "name: calc" ++ [nl] ++ py "description: math helper")
                   ++ nl :: py "---" ++ (nl :: py "Do math.")) |}],
     inr tt).
Proof.
  apply (@manifest_name_overrides_directory_name yaml_python (py "arithmetic")
           (dir_entries arithmetic_dir)
           (py "name: calc" ++ [nl] ++ py "description: math helper")
           (nl :: py "Do math.") (sample_metadata "calc" "math helper") ∅).
  - vm_compute. reflexivity.
  - vm_compute. reflexivity.
  - vm_compute. reflexivity.
  - vm_compute. reflexivity.
  - vm_compute. reflexivity.
  - vm_compute. reflexivity.
  - vm_compute. reflexivity.
Defined.

(* ================================================================== *)
(** * More on the calculator *)
(* ================================================================== *)

(** ** White space and replacement *)

Lemma lstrip_incl (s : str) (c : N) : c ∈ lstrip s -> c ∈ s.
Proof.
  induction s as [|a s IH]; simpl; [auto|].
  destruct (isspace a); [|auto]. intros Hc. right. auto.
Qed.

Lemma strip_incl (s : str) (c : N) : c ∈ strip s -> c ∈ s.
Proof.
  unfold strip, rstrip. rewrite list_elem_of_In, <- in_rev, <- list_elem_of_In. intros Hc.
  apply lstrip_incl in Hc. rewrite list_elem_of_In, <- in_rev, <- list_elem_of_In in Hc.
  now apply lstrip_incl.
Qed.

Lemma elem_of_replace_char (old : N) (new s : str) (c : N) :
  c ∈ replace_char old new s -> (c ∈ s /\ c <> old) \/ (old ∈ s /\ c ∈ new).
Proof.
  unfold replace_char. rewrite list_elem_of_In, in_flat_map.
  intros (a & Ha%list_elem_of_In & Hc%list_elem_of_In).
  destruct (a =? old)%N eqn:E.
  - apply N.eqb_eq in E as ->. right. now split.
  - apply list_elem_of_singleton in Hc as ->. left. split; [exact Ha|].
    now apply N.eqb_neq.
Qed.

Lemma replace_char_absent (old : N) (new s : str) :
  old ∉ s -> replace_char old new s = s.
Proof.
  unfold replace_char. induction s as [|a s IH]; intros Hs; [reflexivity|].
  apply not_elem_of_cons in Hs as [Hne Hs]. cbn [flat_map].
  destruct (a =? old)%N eqn:E; [apply N.eqb_eq in E; congruence|].
  cbn [app]. now rewrite IH.
Qed.

Lemma forallb_elem_of {A : Type} (p : A -> bool) (l : list A) :
  forallb p l = true <-> forall x, x ∈ l -> p x = true.
Proof.
  rewrite forallb_forall. split; intros Hl x Hx; apply Hl.
  - now apply list_elem_of_In.
  - now apply list_elem_of_In.
Qed.

Section CalculatorMore.
Context `{P : Python}.

(** X16. The calculator hands to [eval] only an expression that is not
    empty and is made of the characters [0123456789+-*/(). %]: what
    [eval] would do with any other string has no effect on the result
    of [execute], for every message and every runtime. *)
Theorem calculator_evaluates_only_validated_expressions
    (other : str -> str + PyValue) (context : SkillContext) :
  @calculator_execute (with_eval P (eval_elsewhere P other)) context
  = @calculator_execute P context.
Proof.
  unfold calculator_execute, eval_elsewhere.
  change (@_extract_expression (with_eval P _)) with (@_extract_expression P).
  set (expression := _extract_expression (strip (user_message context))).
  destruct (truthy expression) eqn:Et; cbn [negb]; [|reflexivity].
  destruct (_is_valid_expression expression) eqn:Ev; cbn [negb]; [|reflexivity].
  cbn [py_eval with_eval]. rewrite Et, Ev. cbn [andb].
  reflexivity.
Qed.

(** X17. An expression found by the first pattern that holds only ASCII
    digits, the operators [+-*/^], parentheses, dots, percent signs and
    spaces always passes the validation: the power sign has become
    [**] and the percent sign [/100] before the check. *)
Theorem extracted_plain_expression_passes_validation (text found : str) :
  re_search expression_pattern text = Some found ->
  plain_expression found = true ->
  _is_valid_expression (_extract_expression text) = true
  /\ (cp "^" ∉ _extract_expression text)
  /\ (cp "%" ∉ _extract_expression text).
Proof.
  intros Hre Hplain. unfold _extract_expression. rewrite Hre.
  unfold plain_expression in Hplain. rewrite forallb_elem_of in Hplain.
  assert (Habsent : forall c, existsb (N.eqb c) (py "0123456789+-*/^().% ") = false ->
                              c ∉ found).
  { intros c Hc Hin. apply Hplain in Hin. congruence. }
  rewrite (replace_char_absent (cp "？")) by (apply Habsent; vm_compute; reflexivity).
  rewrite (replace_char_absent (cp "＝")) by (apply Habsent; vm_compute; reflexivity).
  rewrite (replace_char_absent (cp "乘")) by (apply Habsent; vm_compute; reflexivity).
  rewrite (replace_char_absent (cp "除")) by (apply Habsent; vm_compute; reflexivity).
  set (expr := replace_char (cp "%") (py "/100") (replace_char (cp "^") (py "**") found)).
  assert (Hexpr : forall c, c ∈ expr ->
            existsb (N.eqb c) (py "0123456789+-*/(). ") = true).
  { intros c Hc. subst expr.
    apply elem_of_replace_char in Hc as [[Hc Hne1]|[_ Hc]].
    2: { revert c Hc. apply forallb_elem_of. vm_compute. reflexivity. }
    apply elem_of_replace_char in Hc as [[Hc Hne2]|[_ Hc]].
    2: { clear Hne1. revert c Hc. apply forallb_elem_of. vm_compute. reflexivity. }
    specialize (Hplain c Hc).
    change (cp "^") with 94%N in *. change (cp "%") with 37%N in *.
    change (py "0123456789+-*/^().% ")
      with [48;49;50;51;52;53;54;55;56;57;43;45;42;47;94;40;41;46;37;32]%N in Hplain.
    change (py "0123456789+-*/(). ")
      with [48;49;50;51;52;53;54;55;56;57;43;45;42;47;40;41;46;32]%N.
    cbn [existsb] in Hplain |- *.
    apply N.eqb_neq in Hne1. apply N.eqb_neq in Hne2.
    rewrite Hne1, Hne2 in Hplain. cbn [orb] in Hplain.
    repeat (destruct (c =? _)%N; [reflexivity|]; cbn [orb] in Hplain |- * ).
    discriminate Hplain. }
  split; [|split].
  - unfold _is_valid_expression. apply forallb_elem_of. intros c Hc.
    apply strip_incl, Hexpr in Hc.
    change (py "0123456789+-*/(). %")
      with [48;49;50;51;52;53;54;55;56;57;43;45;42;47;40;41;46;32;37]%N.
    change (py "0123456789+-*/(). ")
      with [48;49;50;51;52;53;54;55;56;57;43;45;42;47;40;41;46;32]%N in Hc.
    cbn [existsb] in Hc |- *.
    repeat (destruct (c =? _)%N; [reflexivity|]; cbn [orb] in Hc |- * ).
    discriminate Hc.
  - intros Hc. apply strip_incl, Hexpr in Hc. vm_compute in Hc. discriminate Hc.
  - intros Hc. apply strip_incl, Hexpr in Hc. vm_compute in Hc. discriminate Hc.
Qed.
End CalculatorMore.

(** The theorem on the message [what is 2+2]. *)
Lemma extracted_plain_expression_passes_validation_witness :
  _is_valid_expression (@_extract_expression calculator_python (py "what is 2+2")) = true
  /\ (cp "^" ∉ @_extract_expression calculator_python (py "what is 2+2"))
  /\ (cp "%" ∉ @_extract_expression calculator_python (py "what is 2+2")).
Proof.
  apply (@extracted_plain_expression_passes_validation calculator_python
           (py "what is 2+2") (py "2+2")).
  - vm_compute. reflexivity.
  - vm_compute. reflexivity.
Defined.

(* ================================================================== *)
(** * More on the chat endpoint, and the endpoints of the skills *)
(* ================================================================== *)

(** ** The kinds of events *)

Lemma chat_event_scored skills : existsb chat_event (map Scored skills) = false.
Proof. induction skills as [|s skills IH]; [reflexivity|exact IH]. Qed.

Lemma skill_event_scored skills : existsb skill_event (map Scored skills) = false.
Proof. induction skills as [|s skills IH]; [reflexivity|exact IH]. Qed.

Lemma skill_event_chunks texts :
  existsb skill_event (map (fun text => Yielded (Chunk text)) texts) = false.
Proof. induction texts as [|t texts IH]; [reflexivity|exact IH]. Qed.

Section ChatMore.
Context `{Python}.

Lemma match_skill_events w _skills user_message history :
  existsb chat_event (fst (match_skill w _skills user_message history)) = false
  /\ existsb skill_event (fst (match_skill w _skills user_message history)) = false.
Proof.
  destruct (dict_values _skills) as [|s0 rest] eqn:E.
  - unfold match_skill, get_all_skills. rewrite E. now split.
  - rewrite match_skill_run by (rewrite E; discriminate). cbn [fst].
    rewrite best_match_raises_nothing, app_nil_r, !existsb_app.
    now rewrite chat_event_scored, skill_event_scored.
Qed.

Lemma execute_events w skill context :
  existsb chat_event (fst (execute w skill context)) = false.
Proof.
  unfold execute. destruct (skill_class skill).
  - unfold dynamic_execute, try_except, emit. rewrite Run_bind_value. cbn [fst snd].
    destruct (complete w _) as [e|[text|]]; reflexivity.
  - now rewrite calculator_execute_no_events.
  - reflexivity.
Qed.

Lemma generic_chat_events w messages :
  existsb chat_event (fst (generic_chat w messages)) = true
  /\ existsb skill_event (fst (generic_chat w messages)) = false.
Proof.
  rewrite generic_chat_run. cbn [fst existsb chat_event skill_event orb].
  split; [reflexivity|apply skill_event_chunks].
Qed.

(** The run of [generate] when the matcher is not called. *)
Lemma generate_unrouted_run w _skills messages enable_skills :
  enable_skills && truthy (strip (last_content messages)) = false ->
  generate w _skills messages enable_skills
  = (fst (generic_chat w messages),
     match snd (chat_stream w messages) with
     | Some e => inl e
     | None => inr messages
     end).
Proof.
  intros Hgate. unfold generate. rewrite Hgate, generic_chat_run. cbn [fst].
  destruct (snd (chat_stream w messages)); [reflexivity|].
  rewrite Run_bind_value. cbn. now rewrite app_nil_r.
Qed.

(** The run of [generate] when the matcher finds no skill. *)
Lemma generate_unmatched_run w _skills messages :
  truthy (strip (last_content messages)) = true ->
  snd (match_skill w _skills (last_content messages) (removelast messages)) = inr None ->
  generate w _skills messages true
  = (Yielded Analyzing
       :: fst (match_skill w _skills (last_content messages) (removelast messages))
       ++ fst (generic_chat w messages),
     match snd (chat_stream w messages) with
     | Some e => inl e
     | None => inr messages
     end).
Proof.
  intros Hgate Hmatch. unfold generate. rewrite Hgate. cbn [andb].
  destruct (match_skill w _skills (last_content messages) (removelast messages))
    as [evs_m r] eqn:Em.
  cbn [snd] in Hmatch. subst r. cbn [fst].
  unfold emit. rewrite !Run_bind_value. cbn [fst snd].
  rewrite generic_chat_run. cbn [fst].
  destruct (snd (chat_stream w messages)); [reflexivity|].
  rewrite Run_bind_value. cbn [fst snd app]. now rewrite app_nil_r.
Qed.

(** X18. When skill routing is on and the last message is not blank
    but the matcher finds no skill, [generate] goes on with the plain
    chat: after the analyzing fragment and the work of the matcher come
    the thinking fragment, the request for the chat stream with the
    messages as they were received, and the texts of the stream. The
    run ends with the stream, and the list of messages is left as it
    was. *)
Theorem generate_falls_back_to_chat_without_a_match
    (w : World) (_skills : dict str Skill) (messages : list (str * str)) :
  truthy (strip (last_content messages)) = true ->
  snd (match_skill w _skills (last_content messages) (removelast messages)) = inr None ->
  events (generate w _skills messages true)
  = Yielded Analyzing
      :: events (match_skill w _skills (last_content messages) (removelast messages))
      ++ Yielded Thinking :: Requested (ChatStream messages)
           :: map (fun text => Yielded (Chunk text))
                  (forwarded (fst (chat_stream w messages)))
  /\ fragments (generate w _skills messages true)
     = Analyzing :: Thinking :: map Chunk (forwarded (fst (chat_stream w messages)))
  /\ snd (generate w _skills messages true)
     = match snd (chat_stream w messages) with
       | Some e => inl e
       | None => inr messages
       end.
Proof.
  intros Hgate Hmatch. unfold fragments, events.
  rewrite (generate_unmatched_run _ _ _ Hgate Hmatch), generic_chat_run. cbn [fst snd].
  split; [reflexivity|]. split; [|reflexivity].
  change (Yielded Analyzing :: ?l) with ([Yielded Analyzing] ++ l).
  rewrite !fragments_of_app, match_skill_no_fragments.
  cbn. f_equal. f_equal. apply fragments_of_chunks.
Qed.

(** X19. A run of [generate] in which the matcher, when it is called,
    returns either executes a skill or goes to the plain chat, and
    never does both: the run has a thinking fragment, a chunk of the
    chat stream or a request for that stream exactly when it has no
    matched, executing, succeeded or failed fragment, no call of a
    handler and no request of the generic skill. *)
Theorem generate_executes_a_skill_or_chats_never_both
    (w : World) (_skills : dict str Skill) (messages : list (str * str))
    (enable_skills : bool) :
  (enable_skills && truthy (strip (last_content messages)) = true ->
   ends_normally (match_skill w _skills (last_content messages) (removelast messages))) ->
  existsb chat_event (events (generate w _skills messages enable_skills))
  = negb (existsb skill_event (events (generate w _skills messages enable_skills))).
Proof.
  intros Hreturns. unfold events.
  destruct (enable_skills && truthy (strip (last_content messages))) eqn:Hgate.
  - apply andb_true_iff in Hgate as [-> Hgate].
    destruct (match_skill_events w _skills (last_content messages) (removelast messages))
      as [Hmc Hms].
    destruct (Hreturns eq_refl) as [[[skill confidence]|] Hres].
    + rewrite (generate_matched_run _ _ _ _ _ Hgate Hres). cbn [fst].
      change (Yielded Analyzing :: ?l) with ([Yielded Analyzing] ++ l).
      rewrite !existsb_app, Hmc, Hms, execute_events.
      cbn [existsb chat_event skill_event orb negb].
      destruct (snd (execute w skill (context_of messages))) as [e|result]; [reflexivity|].
      now destruct (success result).
    + rewrite (generate_unmatched_run _ _ _ Hgate Hres). cbn [fst].
      destruct (generic_chat_events w messages) as [Hc Hs].
      change (Yielded Analyzing :: ?l) with ([Yielded Analyzing] ++ l).
      rewrite !existsb_app, Hmc, Hms, Hc, Hs. reflexivity.
  - rewrite (generate_unrouted_run _ _ _ _ Hgate). cbn [fst].
    destruct (generic_chat_events w messages) as [-> ->]. reflexivity.
Qed.

(** ** The requests to the model *)

Lemma requests_app evs1 evs2 : requests (evs1 ++ evs2) = requests evs1 ++ requests evs2.
Proof. unfold requests. apply omap_app. Qed.

Lemma requests_scored skills : requests (map Scored skills) = [].
Proof. induction skills as [|s skills IH]; [reflexivity|exact IH]. Qed.

Lemma requests_chunks texts :
  requests (map (fun text => Yielded (Chunk text)) texts) = [].
Proof. induction texts as [|t texts IH]; [reflexivity|exact IH]. Qed.

Lemma match_skill_requests w _skills user_message history :
  requests (fst (match_skill w _skills user_message history))
  = match dict_values _skills with
    | [] => []
    | _ :: _ => [SelectSkill user_message (dict_values _skills)]
    end.
Proof.
  destruct (dict_values _skills) as [|s0 rest] eqn:E.
  - unfold match_skill, get_all_skills. now rewrite E.
  - rewrite match_skill_run by (rewrite E; discriminate). cbn [fst].
    rewrite best_match_raises_nothing, app_nil_r, requests_app, requests_scored, E.
    reflexivity.
Qed.

Lemma execute_requests w skill context :
  requests (fst (execute w skill context))
  = match skill_class skill with
    | DynamicPythonSkill => [ExecuteSkill skill context]
    | _ => []
    end.
Proof.
  unfold execute. destruct (skill_class skill).
  - unfold dynamic_execute, try_except, emit. rewrite Run_bind_value. cbn [fst snd].
    destruct (complete w _) as [e|[text|]]; reflexivity.
  - now rewrite calculator_execute_no_events.
  - reflexivity.
Qed.

Lemma generic_chat_requests w messages :
  requests (fst (generic_chat w messages)) = [ChatStream messages].
Proof.
  rewrite generic_chat_run. cbn [fst].
  change (Yielded Thinking :: Requested (ChatStream messages) :: ?l)
    with ([Yielded Thinking; Requested (ChatStream messages)] ++ l).
  now rewrite requests_app, requests_chunks.
Qed.

(** X21. A run of [generate] in which the matcher, when it is called,
    returns sends one or two requests to the model, not counting what
    a class loaded from a [skill.py] sends itself: the request that
    picks a skill, when routing is on, the last message is not blank
    and the table holds a skill; then the request of the generic skill
    when such a skill is matched, nothing when the calculator or
    another class is matched, and the request of the chat stream when
    no skill is matched. *)
Theorem generate_sends_one_or_two_requests
    (w : World) (_skills : dict str Skill) (messages : list (str * str))
    (enable_skills : bool) (matched : option (Skill * float)) :
  (if enable_skills && truthy (strip (last_content messages))
   then snd (match_skill w _skills (last_content messages) (removelast messages))
        = inr matched
   else matched = None) ->
  requests (events (generate w _skills messages enable_skills))
  = (if enable_skills && truthy (strip (last_content messages))
     then match dict_values _skills with
          | [] => []
          | _ :: _ => [SelectSkill (last_content messages) (dict_values _skills)]
          end
     else [])
    ++ match matched with
       | Some (skill, _) =>
           match skill_class skill with
           | DynamicPythonSkill => [ExecuteSkill skill (context_of messages)]
           | _ => []
           end
       | None => [ChatStream messages]
       end
  /\ (1 <= length (requests (events (generate w _skills messages enable_skills))) <= 2)%nat.
Proof.
  unfold events.
  destruct (enable_skills && truthy (strip (last_content messages))) eqn:Hgate.
  - apply andb_true_iff in Hgate as [-> Hgate]. intros Hres.
    destruct matched as [[skill confidence]|].
    + rewrite (generate_matched_run _ _ _ _ _ Hgate Hres). cbn [fst].
      change (Yielded Analyzing :: ?l) with ([Yielded Analyzing] ++ l).
      rewrite !requests_app, match_skill_requests, execute_requests.
      assert (Htail : requests
                match snd (execute w skill (context_of messages)) with
                | inl _ => []
                | inr result =>
                    [Yielded (if success result then Succeeded (content result)
                              else Failed (error result))]
                end = []).
      { destruct (snd (execute w skill (context_of messages))); reflexivity. }
      rewrite Htail, app_nil_r. cbn [requests omap app].
      assert (Hne : dict_values _skills <> []).
      { intros E. unfold match_skill, get_all_skills in Hres. rewrite E in Hres.
        discriminate Hres. }
      destruct (dict_values _skills) as [|s0 rest]; [congruence|].
      split; [reflexivity|].
      destruct (skill_class skill); cbn; lia.
    + rewrite (generate_unmatched_run _ _ _ Hgate Hres). cbn [fst].
      change (Yielded Analyzing :: ?l) with ([Yielded Analyzing] ++ l).
      rewrite !requests_app, match_skill_requests, generic_chat_requests.
      cbn [requests omap app]. split; [reflexivity|].
      destruct (dict_values _skills); cbn; lia.
  - intros ->. rewrite (generate_unrouted_run _ _ _ _ Hgate). cbn [fst].
    rewrite generic_chat_requests. split; [reflexivity|cbn; lia].
Qed.
End ChatMore.

(** ** The endpoints of the skills *)

Section ApiFacts.
Context `{Python}.

Lemma keyed_by_name_get (_skills : dict str Skill) k s :
  keyed_by_name _skills -> (get_skill _skills k = Some s <-> (k, s) ∈ _skills).
Proof.
  intros [Hnd _]. unfold get_skill. split.
  - apply dict_get_elem_of.
  - now apply elem_of_dict_get.
Qed.

Lemma reload_skills_events skills_dir :
  events (Api.reload_skills skills_dir) = events (reload skills_dir).
Proof.
  unfold Api.reload_skills, events. destruct (reload skills_dir) as [evs [e|[]]];
    [reflexivity|].
  rewrite Run_bind_value. cbn. now rewrite app_nil_r.
Qed.

(** X20. After [POST /skills/reload], whether the reload ended well or
    by an exception, the three endpoints agree: the total of
    [GET /skills] is the number of its items, no two items have the
    same name, [GET /skills/{name}] answers for exactly the names
    listed and with the metadata that the list shows, and it raises the
    404 error for every other name. *)
Theorem endpoints_agree_after_reload
    (old : dict str Skill) (skills_dir : option Node) :
  let _skills := table_after old (events (Api.reload_skills skills_dir)) in
  Api.total (Api.list_skills _skills) = length (Api.skills (Api.list_skills _skills))
  /\ NoDup (map Api.info_name (Api.skills (Api.list_skills _skills)))
  /\ (forall info, info ∈ Api.skills (Api.list_skills _skills) ->
        exists skill,
          Api.get_skill_detail _skills (Api.info_name info)
          = mret (metadata skill, dom (references skill))
          /\ info = Api.skill_info (metadata skill))
  /\ (forall skill_name,
        skill_name ∉ map Api.info_name (Api.skills (Api.list_skills _skills)) ->
        Api.get_skill_detail _skills skill_name = raise (Api.not_found skill_name)).
Proof.
  cbv zeta. rewrite reload_skills_events.
  destruct (reload_table_keyed_by_name old skills_dir) as [Hk Hnd].
  set (_skills := table_after old (events (reload skills_dir))) in *.
  assert (Hnames : map Api.info_name (Api.skills (Api.list_skills _skills))
                   = dict_keys _skills).
  { unfold Api.list_skills, list_skills, dict_values, dict_keys. cbn [Api.skills].
    rewrite !map_map. destruct Hk as [_ Hkeys].
    induction _skills as [|[k s] t IH]; [reflexivity|].
    cbn. f_equal.
    - apply Hkeys. left.
    - apply IH.
      + intros k' s' Hin. apply Hkeys. now right.
      + unfold dict_values in Hnd. cbn in Hnd. now apply NoDup_cons in Hnd as [_ ?]. }
  split; [unfold Api.list_skills; cbn; now rewrite length_map|].
  split; [rewrite Hnames; apply Hk|].
  split.
  - intros info Hinfo. unfold Api.list_skills, list_skills, dict_values in Hinfo.
    cbn [Api.skills] in Hinfo. rewrite !map_map in Hinfo.
    apply list_elem_of_fmap in Hinfo as ([k s] & -> & Hin). cbn [snd].
    exists s. split; [|reflexivity].
    unfold Api.get_skill_detail. cbn [Api.info_name Api.skill_info].
    destruct Hk as [Hnd' Hkeys]. rewrite (Hkeys _ _ Hin).
    replace (get_skill _skills k) with (Some s); [reflexivity|].
    symmetry. apply keyed_by_name_get; [now split|exact Hin].
  - intros skill_name Hno. rewrite Hnames in Hno. unfold Api.get_skill_detail.
    destruct (get_skill _skills skill_name) as [s|] eqn:Eg; [|reflexivity].
    exfalso. apply Hno. apply dict_get_elem_of in Eg.
    unfold dict_keys. apply (list_elem_of_fmap_2 fst) in Eg. exact Eg.
Qed.
End ApiFacts.

(** The theorem on the message [hello], which the skill [boom] does not
    match when the model replies with the empty text. *)
Lemma generate_falls_back_to_chat_without_a_match_witness :
  events (@generate ascii_python silent_world boom_table hello_messages true)
  = Yielded Analyzing
      :: events (@match_skill ascii_python silent_world boom_table
                   (last_content hello_messages) (removelast hello_messages))
      ++ Yielded Thinking :: Requested (ChatStream hello_messages)
           :: map (fun text => Yielded (Chunk text))
                  (forwarded (fst (chat_stream silent_world hello_messages)))
  /\ fragments (@generate ascii_python silent_world boom_table hello_messages true)
     = Analyzing :: Thinking
         :: map Chunk (forwarded (fst (chat_stream silent_world hello_messages)))
  /\ snd (@generate ascii_python silent_world boom_table hello_messages true)
     = match snd (chat_stream silent_world hello_messages) with
       | Some e => inl e
       | None => inr hello_messages
       end.
Proof.
  apply (@generate_falls_back_to_chat_without_a_match ascii_python).
  - vm_compute. reflexivity.
  - vm_compute. reflexivity.
Defined.

(** The theorem on the skill [calc], which a model that replies [1]
    picks for the message [math]: the run executes the skill and has no
    event of the plain chat. *)
Lemma generate_executes_a_skill_or_chats_never_both_witness :
  existsb chat_event
    (events (@generate ascii_python first_choice_world sample_table
               [(py "user", py "math")] true))
  = negb (existsb skill_event
            (events (@generate ascii_python first_choice_world sample_table
                       [(py "user", py "math")] true))).
Proof.
  apply (@generate_executes_a_skill_or_chats_never_both ascii_python first_choice_world
           sample_table [(py "user", py "math")] true).
  intros _. eexists. vm_compute. reflexivity.
Defined.

(** The theorem on the same run: the request that picks the skill, then
    the request of the generic skill. *)
Lemma generate_sends_one_or_two_requests_witness :
  requests (events (@generate ascii_python first_choice_world sample_table
                      [(py "user", py "math")] true))
  = [SelectSkill (py "math") [calc_skill]]
    ++ [ExecuteSkill calc_skill (context_of [(py "user", py "math")])]
  /\ (1 <= length (requests (events (@generate ascii_python first_choice_world sample_table
                                       [(py "user", py "math")] true))) <= 2)%nat.
Proof.
  apply (@generate_sends_one_or_two_requests ascii_python first_choice_world
           sample_table [(py "user", py "math")] true
           (Some (calc_skill, 0.70000000000000007%float))).
  vm_compute. reflexivity.
Defined.

(* ================================================================== *)
(** * More on the lexical score: longer messages *)
(* ================================================================== *)

Local Open Scope float_scope.

(** ** Occurrences *)

Lemma contains_spec (sub s : str) :
  contains sub s = true <-> exists pre post, s = pre ++ sub ++ post.
Proof.
  split.
  - induction s as [|c t IH].
    + cbn. rewrite orb_false_r. intros Hs. apply startswith_inv in Hs as [rest Hs].
      exists [], rest. exact Hs.
    + rewrite contains_cons. intros [Hs|Hc]%orb_true_iff.
      * apply startswith_inv in Hs as [rest Hs]. exists [], rest. exact Hs.
      * destruct (IH Hc) as (pre & post & ->). exists (c :: pre), post. reflexivity.
  - intros (pre & post & ->). induction pre as [|c pre IH].
    + cbn [app]. destruct (sub ++ post) as [|c t] eqn:E.
      * destruct sub; [reflexivity|discriminate E].
      * rewrite contains_cons, <- E, startswith_prefix. reflexivity.
    + cbn [app]. rewrite contains_cons, IH. apply orb_true_r.
Qed.

Lemma contains_trans (a b c : str) :
  contains a b = true -> contains b c = true -> contains a c = true.
Proof.
  rewrite !contains_spec. intros (p1 & q1 & ->) (p2 & q2 & ->).
  exists (p2 ++ p1), (q1 ++ q2). now rewrite <- !app_assoc.
Qed.

Lemma filter_length_le {A : Type} (p q : A -> bool) (l : list A) :
  (forall x, p x = true -> q x = true) ->
  (length (List.filter p l) <= length (List.filter q l))%nat.
Proof.
  intros Hpq. induction l as [|x l IH]; [reflexivity|]. cbn [List.filter].
  destruct (p x) eqn:Ep.
  - rewrite (Hpq x Ep). cbn [length]. lia.
  - destruct (q x); cbn [length]; lia.
Qed.

Lemma lexical_table_mono (named1 named2 : bool) (hits1 hits2 : nat) :
  (named1 = true -> named2 = true) -> (hits1 <= hits2)%nat ->
  (lexical_table named1 hits1 <=? lexical_table named2 hits2) = true.
Proof.
  intros Hnamed Hhits.
  destruct named1, named2; try (specialize (Hnamed eq_refl); discriminate Hnamed);
    destruct hits1 as [|[|[|n1]]], hits2 as [|[|[|n2]]]; try lia;
    vm_compute; reflexivity.
Qed.

Section MessageGrowth.
Context `{Python}.

(** X2. A message that holds another message in it never has a lower
    lexical score: when the lowercased message [m1] occurs in the
    lowercased message [m2], every skill scores on [m2] at least what
    it scores on [m1]. *)
Theorem keyword_score_grows_with_the_message
    (m1 m2 : str) (skill : Skill) :
  contains m1 m2 = true ->
  (keyword_score m1 skill <=? keyword_score m2 skill) = true.
Proof.
  intros Hsub. rewrite !keyword_score_table. apply lexical_table_mono.
  - intros Hnamed. exact (contains_trans _ _ _ Hnamed Hsub).
  - unfold matched_keywords, keyword_hits.
    apply Nat.add_le_mono; apply filter_length_le;
      intros kw Hkw; exact (contains_trans _ _ _ Hkw Hsub).
Qed.
End MessageGrowth.

(** The theorem on the skill [calc] and the messages [math] and
    [alpha math]. *)
Lemma keyword_score_grows_with_the_message_witness :
  (@keyword_score ascii_python (py "math") calc_skill
   <=? @keyword_score ascii_python (py "alpha math") calc_skill) = true.
Proof.
  apply (@keyword_score_grows_with_the_message ascii_python).
  vm_compute. reflexivity.
Defined.

Local Close Scope float_scope.
